(** * udptest: wire framing, receiver accounting and reconstruction buffer

    A shallow embedding of [main.go]: the frame codec ([paket.apply],
    [paket.writeTo], [paket.readFrom]), the receiver loop ([serve]) with its
    deferred report, the reconstruction buffer ([store.save],
    [store.checkSum]) and the sender loop ([upload]).

    Conventions.
    - A Go [byte] is a [Byte.byte]; a [[]byte] is a [list byte]; a slice that
      may be [nil] and is tested against [nil] is an [option (list byte)].
    - A [uint16] is a [Z] in [0, 65536); every [uint16] operation of the
      source is followed by [u16], its wrap-around.  An [int] is a [Z] in
      [-2^63, 2^63); sums, differences and products of [int]s are followed by
      [int_wrap].
    - [panic] is the [Panic] result; the run-time panics of slice expressions
      and [make] are written out.
    - The socket is a list of events; wall-clock time is not modelled beyond
      "a read with a deadline times out when nothing arrives".  The ticker
      of the sender is kept for its one effect on the run: [time.NewTicker]
      panics when the send interval is not positive. *)

From Stdlib Require Import ZArith List Lia Bool.
From Stdlib Require Import Strings.String Strings.Ascii Strings.Byte.
From Stdlib Require Import Numbers.DecimalString.
From Stdlib Require Import Floats.
From Stdlib Require Import Sorting.Permutation.
From stdpp Require Import base list.

Local Open Scope string_scope.
Local Open Scope list_scope.
Local Open Scope Z_scope.

(** ** Errors, panics and results *)

(** An [error] value. *)
Inductive error : Type :=
| ErrDeadlineExceeded            (* os.ErrDeadlineExceeded *)
| EOF                            (* io.EOF *)
| ErrOther (msg : string).

(** What [panic] was called with: a string of the program, an [error], or a
    run-time error of the language. *)
Inductive panic : Type :=
| PanicMsg (msg : string)
| PanicErr (e : error)
| RuntimeError (msg : string).
Coercion PanicMsg : string >-> panic.

(** A value, a panic, or a read that never returns. *)
Inductive result (A : Type) : Type :=
| Ok (a : A)
| Panic (v : panic)
| Blocked.
Arguments Ok {A} a.
Arguments Panic {A} v.
Arguments Blocked {A}.

#[export] Instance result_ret : MRet result := fun A a => Ok a.
#[export] Instance result_bind : MBind result := fun A B f m =>
  match m with
  | Ok a => f a
  | Panic v => Panic v
  | Blocked => Blocked
  end.

(** ** Machine integers *)

(** [uint16(z)] *)
Definition u16 (z : Z) : Z := z mod 65536.

(** wrap-around of a 64-bit [int] *)
Definition int_wrap (z : Z) : Z := (z + 2 ^ 63) mod 2 ^ 64 - 2 ^ 63.

Definition is_int (z : Z) : Prop := - 2 ^ 63 <= z < 2 ^ 63.

(** [byte(z)]: the low eight bits *)
Definition byte_of_Z (z : Z) : byte :=
  default x00 (Byte.of_N (Z.to_N (z mod 256))).

(** [uint16(b)] for a byte [b] *)
Definition Z_of_byte (b : byte) : Z := Z.of_N (Byte.to_N b).

(** ** Slices *)

(** [len(s)] *)
Definition len {A : Type} (s : list A) : Z := Z.of_nat (length s).

(** [make([]byte, n)] *)
Definition make (n : Z) : result (list byte) :=
  if n <? 0 then Panic (RuntimeError "makeslice: len out of range")
  else Ok (replicate (Z.to_nat n) x00).

(** [s[lo:]] *)
Definition slice_from (s : list byte) (lo : Z) : result (list byte) :=
  if (0 <=? lo) && (lo <=? len s) then Ok (drop (Z.to_nat lo) s)
  else Panic (RuntimeError "slice bounds out of range").

(** [s[lo:hi]] *)
Definition slice (s : list byte) (lo hi : Z) : result (list byte) :=
  if (0 <=? lo) && (lo <=? hi) && (hi <=? len s)
  then Ok (take (Z.to_nat (hi - lo)) (drop (Z.to_nat lo) s))
  else Panic (RuntimeError "slice bounds out of range").

(** [copy(dst, src)]: the contents of [dst] afterwards.  The first
    [min(len(dst), len(src))] bytes come from [src]. *)
Definition copy (dst src : list byte) : list byte :=
  take (length dst) src ++ drop (length src) dst.

(** A write through the sub-slice [s[lo:]]: [f] gives the new contents of the
    sub-slice, the bytes before [lo] stay. *)
Definition with_slice_from (s : list byte) (lo : Z)
    (f : list byte -> result (list byte)) : result (list byte) :=
  d ← slice_from s lo;
  d' ← f d;
  mret (take (Z.to_nat lo) s ++ d').

#[export] Instance byte_eq_decision : EqDecision byte := Byte.byte_eq_dec.

(** [bytes.Equal(a, b)] *)
Definition bytes_Equal (a b : list byte) : bool :=
  bool_decide (a = b).

(** ** encoding/binary, little endian *)

(** [binary.LittleEndian.Uint16(b)]:
    [_ = b[1]; return uint16(b[0]) | uint16(b[1])<<8] *)
Definition Uint16 (b : list byte) : result Z :=
  match b with
  | b0 :: b1 :: _ => Ok (Z.lor (Z_of_byte b0) (u16 (Z.shiftl (Z_of_byte b1) 8)))
  | _ => Panic (RuntimeError "index out of range")
  end.

(** [binary.LittleEndian.PutUint16(b, v)]:
    [_ = b[1]; b[0] = byte(v); b[1] = byte(v >> 8)] *)
Definition PutUint16 (b : list byte) (v : Z) : result (list byte) :=
  match b with
  | _ :: _ :: rest => Ok (byte_of_Z v :: byte_of_Z (Z.shiftr v 8) :: rest)
  | _ => Panic (RuntimeError "index out of range")
  end.

(** ** Constants of the wire format *)

Definition pktEnd : list byte := [x0d; x0a].                 (* "\r\n" *)
Definition start : list byte := [x73; x74; x61; x72; x74].   (* "start" *)

Definition pktNoSize : Z := 2.
Definition pktSzSize : Z := 2.
Definition pktHdrSize : Z := pktNoSize + pktSzSize.
Definition pktEndSize : Z := 2.
Definition pktInfSize : Z := pktHdrSize + pktEndSize.

(** ** Run configuration: the flags read by the core *)

Record config : Type := Config {
  pktSize : Z;      (* -p *)
  pktCount : Z;     (* -cnt *)
  useMem : bool     (* -m *)
}.

(** ** Errors and the socket *)

(** A [net.Addr]: [None] is the nil interface, [Some a] an address whose
    [String()] is [a]. *)
Definition Addr : Type := option string.

(** What the socket has in store for the reader, oldest first. *)
Inductive event : Type :=
| Recv (d : list byte) (a : Addr) (err : option error)
    (* a read returns the datagram [d] (cut to the buffer), [a] and [err] *)
| Quiet.
    (* nothing arrives for the length of a read timeout *)

Record conn : Type := Conn {
  deadline : bool;           (* is a read deadline set? *)
  pending : list event
}.

(** [errors.Is(err, os.ErrDeadlineExceeded)] *)
Definition is_deadline (err : option error) : bool :=
  match err with Some ErrDeadlineExceeded => true | _ => false end.

(** [ep(err)] *)
Definition ep (err : option error) : result unit :=
  match err with
  | None => Ok tt
  | Some EOF => Ok tt
  | Some e => Panic (PanicErr e)
  end.

(** [con.ReadFrom(buf)]: the byte count, the buffer afterwards, the origin,
    the error, and the socket afterwards.  With a deadline a silent period is
    a timeout; without one the read waits it out, for ever when nothing is
    left to come. *)
Fixpoint read_events (dl : bool) (evs : list event) (buf : list byte)
    : result (Z * list byte * Addr * option error * list event) :=
  match evs with
  | [] =>
      if dl then Ok (0, buf, None, Some ErrDeadlineExceeded, []) else Blocked
  | Quiet :: evs' =>
      if dl then Ok (0, buf, None, Some ErrDeadlineExceeded, evs')
      else read_events dl evs' buf
  | Recv d a err :: evs' =>
      let n := Z.min (len d) (len buf) in
      Ok (n, take (Z.to_nat n) d ++ drop (Z.to_nat n) buf, a, err, evs')
  end.

Definition ReadFrom (c : conn) (buf : list byte)
    : result (Z * list byte * Addr * option error * conn) :=
  '(n, buf', a, err, evs') ← read_events (deadline c) (pending c) buf;
  mret (n, buf', a, err, Conn (deadline c) evs').

(** [con.SetReadDeadline(t)]: [time.Time{}] clears the deadline,
    [time.Now().Add(rwTimeout)] sets one. *)
Definition SetReadDeadline (c : conn) (dl : bool) : conn :=
  Conn dl (pending c).

(** ** The frame: [type paket struct] *)

Record paket : Type := Paket {
  p_no : Z;                     (* no   uint16 *)
  p_size : Z;                   (* size uint16 *)
  p_data : list byte;           (* data []byte, a view into buf *)
  p_buf : option (list byte);   (* buf  []byte, nil until reset *)
  p_from : Addr                 (* from net.Addr *)
}.

(** [var pkt paket] *)
Definition paket_zero : paket := Paket 0 0 [] None None.

(** The bytes of a possibly nil slice. *)
Definition bytes_of (b : option (list byte)) : list byte := default [] b.

Section Codec.
Variable cfg : config.

(** [func (p *paket) reset()] *)
Definition reset (p : paket) : result paket :=
  buf ← match p_buf p with
        | None => b ← make (pktSize cfg); mret (Some b)
        | Some b => mret (Some b)
        end;
  mret (Paket 0 0 (p_data p) buf None).

(** [func (p *paket) apply(b []byte)] *)
Definition apply (p : paket) (b : list byte) : result paket :=
  p ← (if p_no p =? 0 then reset p else mret p);
  if len b >? int_wrap (pktSize cfg - pktInfSize) then Panic "payload to long"
  else
    let size := u16 (len b) in
    let no := u16 (p_no p + 1) in
    b1 ← PutUint16 (bytes_of (p_buf p)) no;
    b2 ← with_slice_from b1 pktNoSize (fun d => PutUint16 d size);
    b3 ← with_slice_from b2 pktHdrSize (fun d => mret (copy d b));
    b4 ← with_slice_from b3 (int_wrap (pktHdrSize + len b))
           (fun d => mret (copy d pktEnd));
    mret (Paket no size (p_data p)
            (match p_buf p with None => None | Some _ => Some b4 end)
            (p_from p)).

(** [func (p *paket) writeTo(w io.Writer)]: the bytes handed to [w.Write]. *)
Definition writeTo (p : paket) : list byte := bytes_of (p_buf p).

(** The parsing of [readFrom] (from [buf := p.buf[:n]] to [p.size = plSize]):
    sequence number, payload length and payload of the frame [buf].  The sum
    [pktHdrSize+plSize] has the type of [plSize], [uint16].  (A slice
    expression checks its upper bound against the capacity, not the length;
    here the bound is [len(buf) - 2] unless the sum wrapped, and then it is
    below the lower bound.) *)
Definition decode (buf : list byte) : result (Z * Z * list byte) :=
  if len buf <? pktInfSize then Panic "to few bytes received"
  else
    b01 ← slice buf 0 pktNoSize;
    no ← Uint16 b01;
    b23 ← slice buf pktNoSize pktHdrSize;
    plSize ← Uint16 b23;
    if negb (len buf - pktInfSize =? plSize)
    then Panic "expected and received packet size are not match"
    else
      tl ← slice_from buf (len buf - pktEndSize);
      if negb (bytes_Equal tl pktEnd) then Panic "unexpected packet end"
      else
        data ← slice buf pktHdrSize (u16 (pktHdrSize + plSize));
        mret (no, plSize, data).

(** [func (p *paket) readFrom(con net.PacketConn) error] *)
Definition readFrom (p : paket) (con : conn)
    : result (paket * conn * option error) :=
  p ← reset p;
  let con := SetReadDeadline con true in
  '(n, buf', addr, err, con) ← ReadFrom con (bytes_of (p_buf p));
  let p := Paket (p_no p) (p_size p) (p_data p)
             (match p_buf p with None => None | Some _ => Some buf' end)
             (p_from p) in
  if is_deadline err then mret (p, con, err)
  else
    _ ← ep err;
    _ ← match p_from p with
        | Some f =>
            match addr with
            | Some a =>
                if negb (String.eqb f a) then Panic "remote address changed"
                else mret tt
            | None => Panic (RuntimeError "invalid memory address or nil pointer dereference")
            end
        | None => mret tt
        end;
    buf ← slice (bytes_of (p_buf p)) 0 n;
    '(no, plSize, data) ← decode buf;
    mret (Paket no plSize data (p_buf p) addr, con, None).

End Codec.

(** ** crypto/md5 (RFC 1321) *)

Definition w32 (z : Z) : Z := z mod 2 ^ 32.

Definition rotl32 (x c : Z) : Z :=
  w32 (Z.lor (Z.shiftl x c) (Z.shiftr x (32 - c))).

Definition not32 (x : Z) : Z := Z.lxor x (2 ^ 32 - 1).

(** [floor(2^32 * abs(sin(i + 1)))] *)
Definition md5_K : list Z :=
  [3614090360; 3905402710; 606105819; 3250441966; 4118548399; 1200080426;
   2821735955; 4249261313; 1770035416; 2336552879; 4294925233; 2304563134;
   1804603682; 4254626195; 2792965006; 1236535329; 4129170786; 3225465664;
   643717713; 3921069994; 3593408605; 38016083; 3634488961; 3889429448;
   568446438; 3275163606; 4107603335; 1163531501; 2850285829; 4243563512;
   1735328473; 2368359562; 4294588738; 2272392833; 1839030562; 4259657740;
   2763975236; 1272893353; 4139469664; 3200236656; 681279174; 3936430074;
   3572445317; 76029189; 3654602809; 3873151461; 530742520; 3299628645;
   4096336452; 1126891415; 2878612391; 4237533241; 1700485571; 2399980690;
   4293915773; 2240044497; 1873313359; 4264355552; 2734768916; 1309151649;
   4149444226; 3174756917; 718787259; 3951481745].

Definition md5_S : list Z :=
  [7; 12; 17; 22; 7; 12; 17; 22; 7; 12; 17; 22; 7; 12; 17; 22;
   5; 9; 14; 20; 5; 9; 14; 20; 5; 9; 14; 20; 5; 9; 14; 20;
   4; 11; 16; 23; 4; 11; 16; 23; 4; 11; 16; 23; 4; 11; 16; 23;
   6; 10; 15; 21; 6; 10; 15; 21; 6; 10; 15; 21; 6; 10; 15; 21].

Definition le32 (v : Z) : list byte :=
  [byte_of_Z v; byte_of_Z (Z.shiftr v 8); byte_of_Z (Z.shiftr v 16);
   byte_of_Z (Z.shiftr v 24)].

Definition le32_value (b : list byte) : Z :=
  match b with
  | b0 :: b1 :: b2 :: b3 :: _ =>
      Z_of_byte b0 + 256 * (Z_of_byte b1 + 256 * (Z_of_byte b2 + 256 * Z_of_byte b3))
  | _ => 0
  end.

(** The sixteen words of a block. *)
Fixpoint md5_words (n : nat) (block : list byte) : list Z :=
  match n with
  | O => []
  | S n' => le32_value block :: md5_words n' (drop 4 block)
  end.

Definition md5_step (m : list Z) (st : Z * Z * Z * Z) (i : nat) : Z * Z * Z * Z :=
  let '(a, b, c, d) := st in
  let iz := Z.of_nat i in
  let '(f, g) :=
    if iz <? 16 then (Z.lor (Z.land b c) (Z.land (not32 b) d), iz)
    else if iz <? 32 then (Z.lor (Z.land d b) (Z.land (not32 d) c), (5 * iz + 1) mod 16)
    else if iz <? 48 then (Z.lxor (Z.lxor b c) d, (3 * iz + 5) mod 16)
    else (Z.lxor c (Z.lor b (not32 d)), (7 * iz) mod 16) in
  let f' := w32 (f + a + nth i md5_K 0 + nth (Z.to_nat g) m 0) in
  (d, w32 (b + rotl32 f' (nth i md5_S 0)), b, c).

Definition md5_block (st : Z * Z * Z * Z) (block : list byte) : Z * Z * Z * Z :=
  let '(a0, b0, c0, d0) := st in
  let '(a, b, c, d) := fold_left (md5_step (md5_words 16 block)) (seq 0 64) st in
  (w32 (a0 + a), w32 (b0 + b), w32 (c0 + c), w32 (d0 + d)).

Fixpoint md5_blocks (n : nat) (st : Z * Z * Z * Z) (msg : list byte) : Z * Z * Z * Z :=
  match n with
  | O => st
  | S n' => md5_blocks n' (md5_block st (take 64 msg)) (drop 64 msg)
  end.

(** The message, a one bit, zeros up to 56 modulo 64, the bit length. *)
Definition md5_pad (msg : list byte) : list byte :=
  let l := Z.of_nat (length msg) in
  let zeros := (55 - l) mod 64 in
  msg ++ [x80] ++ replicate (Z.to_nat zeros) x00
      ++ le32 (8 * l) ++ le32 (Z.shiftr (8 * l) 32).

(** [md5.Sum] *)
Definition md5_sum (msg : list byte) : list byte :=
  let padded := md5_pad msg in
  let '(a, b, c, d) :=
    md5_blocks (length padded / 64)
      (1732584193, 4023233417, 2562383102, 271733878) padded in
  le32 a ++ le32 b ++ le32 c ++ le32 d.

(** ** Formatting: [%d], [%x], [%.2f] and [float64(n)] *)

(** [%d] *)
Definition fmt_d (z : Z) : string := NilZero.string_of_int (Z.to_int z).

Definition hex_digit (n : N) : ascii :=
  match n with
  | 0 => "0" | 1 => "1" | 2 => "2" | 3 => "3" | 4 => "4" | 5 => "5"
  | 6 => "6" | 7 => "7" | 8 => "8" | 9 => "9" | 10 => "a" | 11 => "b"
  | 12 => "c" | 13 => "d" | 14 => "e" | _ => "f"
  end%N%char.

(** [%x] of a byte slice *)
Fixpoint fmt_x (b : list byte) : string :=
  match b with
  | [] => ""
  | x :: b' =>
      String (hex_digit (Byte.to_N x / 16)) (String (hex_digit (Byte.to_N x mod 16)) (fmt_x b'))
  end.

(** [float64(z)] for an [int]: the nearest double, ties to even. *)
Definition float64 (z : Z) : float :=
  SF2Prim (binary_normalize prec emax z 0 false).

(** [%.2f]: the double's exact value in hundredths, rounded half to even. *)
Definition fmt_2f (f : float) : string :=
  match Prim2SF f with
  | S754_zero s => ((if s then "-" else "") ++ "0.00")%string
  | S754_infinity s => if s then "-Inf" else "+Inf"
  | S754_nan => "NaN"
  | S754_finite s m e =>
      let num := Z.pos m * 100 * 2 ^ Z.max e 0 in
      let den := 2 ^ Z.max (- e) 0 in
      let q := num / den in
      let r := num mod den in
      let h := if 2 * r <? den then q
               else if den <? 2 * r then q + 1
               else if Z.even q then q else q + 1 in
      ((if s then "-" else "") ++ fmt_d (h / 100) ++ "."
        ++ fmt_d (h mod 100 / 10) ++ fmt_d (h mod 10))%string
  end.

(** ** Standard output, line by line *)

Inductive line : Type :=
| LWaiting                         (* "waiting for incoming connection" *)
| LReceivedStart                   (* "received start command" *)
| LWrongOrder (prev cur : Z)       (* "wrong packet order: prev no: %d, cur no: %d\n" *)
| LCheckSum (digest : string)      (* the digest in hexadecimal *)
| LTotalReceived (i : Z)           (* "total packets received: %d\n" *)
| LLoss (lost : Z) (pct : float)   (* "packet loss: %d (%.2f%%)\n" *)
| LTotalSent (i : Z).              (* "total packets sent: %d\n" *)

Definition render (l : line) : string :=
  match l with
  | LWaiting => "waiting for incoming connection"
  | LReceivedStart => "received start command"
  | LWrongOrder prev cur =>
      ("wrong packet order: prev no: " ++ fmt_d prev ++ ", cur no: " ++ fmt_d cur)%string
  | LCheckSum digest => digest
  | LTotalReceived i => ("total packets received: " ++ fmt_d i)%string
  | LLoss lost pct =>
      ("packet loss: " ++ fmt_d lost ++ " (" ++ fmt_2f pct ++ "%)")%string
  | LTotalSent i => ("total packets sent: " ++ fmt_d i)%string
  end.

Definition is_wrong_order (l : line) : bool :=
  match l with LWrongOrder _ _ => true | _ => false end.

Definition is_check_sum (l : line) : bool :=
  match l with LCheckSum _ => true | _ => false end.

(** How a run ends. *)
Inductive ending : Type :=
| Completed                 (* the loop ran all its iterations *)
| TimedOut                  (* a read returned the deadline error *)
| Aborted (v : panic)       (* a panic *)
| Waiting.                  (* a read without deadline that never returns *)

(** ** The reconstruction buffer: [type store []byte] *)

Definition store : Type := option (list byte).

Section Run.
Variable cfg : config.

(** [func (s *store) save(p *paket)] *)
Definition save (s : store) (p : paket) : result store :=
  if negb (useMem cfg) then mret s
  else
    b ← match s with
        | None =>
            make (int_wrap (int_wrap (pktSize cfg - pktInfSize) * pktCount cfg))
        | Some b => mret b
        end;
    b' ← with_slice_from b
           (int_wrap (u16 (p_no p - 1) * int_wrap (pktSize cfg - pktInfSize)))
           (fun d => mret (copy d (p_data p)));
    mret (Some b').

(** [func (s store) checkSum() string] *)
Definition checkSum (s : store) : string := fmt_x (md5_sum (bytes_of s)).

(** The deferred function of [serve]. *)
Definition report (i : Z) : list line :=
  LTotalReceived i ::
  (if negb (i =? pktCount cfg)
   then [LLoss (int_wrap (pktCount cfg - i))
           (float64 (int_wrap (pktCount cfg - i)) / float64 (pktCount cfg) * 100)%float]
   else []).

(** The variables of [serve]. *)
Record rstate : Type := RState {
  r_i : Z;             (* i   int *)
  r_no : Z;            (* no  uint16 *)
  r_pkt : paket;       (* pkt paket *)
  r_s : store;         (* s   store *)
  r_con : conn;        (* con *)
  r_out : list line    (* standard output so far *)
}.

(** The sequence check of the loop body: the line it prints, if any. *)
Definition order_check (no cur : Z) : list line :=
  if no >=? cur then [LWrongOrder no cur] else [].

(** The loop [for i = 0; i < pktCount; i++] of [serve], with [remaining]
    iterations to go. *)
Fixpoint recv_loop (remaining : nat) (st : rstate) : rstate * ending :=
  match remaining with
  | O => (st, Completed)
  | S remaining' =>
      match readFrom cfg (r_pkt st) (r_con st) with
      | Panic msg => (st, Aborted msg)
      | Blocked => (st, Waiting)
      | Ok (pkt, con, Some _) =>
          (RState (r_i st) (r_no st) pkt (r_s st) con (r_out st), TimedOut)
      | Ok (pkt, con, None) =>
          let out := r_out st ++ order_check (r_no st) (p_no pkt) in
          let no := p_no pkt in
          match save (r_s st) pkt with
          | Ok s => recv_loop remaining' (RState (r_i st + 1) no pkt s con out)
          | Panic msg => (RState (r_i st) no pkt (r_s st) con out, Aborted msg)
          | Blocked => (RState (r_i st) no pkt (r_s st) con out, Waiting)
          end
      end
  end.

(** What a run of the receiver leaves behind. *)
Record run : Type := Run {
  run_out : list line;     (* standard output *)
  run_i : Z;               (* received count *)
  run_s : store;           (* reconstruction buffer *)
  run_end : ending
}.

(** The end of [serve]: after a loop that ran all its iterations the digest
    of the store is printed; the deferred function runs however the loop
    ended. *)
Definition after_loop (r : rstate * ending) : run :=
  let '(st, e) := r in
  match e with
  | Completed =>
      Run (r_out st ++ [LCheckSum (checkSum (r_s st))] ++ report (r_i st))
        (r_i st) (r_s st) Completed
  | Waiting => Run (r_out st) (r_i st) (r_s st) Waiting
  | _ => Run (r_out st ++ report (r_i st)) (r_i st) (r_s st) e
  end.

(** [func serve()], from the open socket on. *)
Definition serve (con : conn) : run :=
  let out := [LWaiting] in
  match make (len start) with
  | Ok buf =>
      let con := SetReadDeadline con false in
      match ReadFrom con buf with
      | Blocked => Run out 0 None Waiting
      | Panic msg => Run (out ++ report 0) 0 None (Aborted msg)
      | Ok (_, buf, _, err, con) =>
          match ep err with
          | Ok _ =>
              if negb (bytes_Equal buf start)
              then Run (out ++ report 0) 0 None
                     (Aborted (PanicMsg ("unexpected first bytes: "
                                 ++ string_of_list_byte buf ++ String "010" "")%string))
              else
                let out := out ++ [LReceivedStart] in
                after_loop
                  (recv_loop (Z.to_nat (pktCount cfg))
                     (RState 0 0 paket_zero None con out))
          | Panic msg => Run (out ++ report 0) 0 None (Aborted msg)
          | Blocked => Run out 0 None Waiting
          end
      end
  | Panic msg => Run (out ++ report 0) 0 None (Aborted msg)
  | Blocked => Run out 0 None Waiting
  end.

End Run.

(** ** The sender *)

Section Sender.
Variable cfg : config.
(** [crypto/rand]: the bytes it hands out, in order. *)
Variable rnd : nat -> byte.
(** [sendInterval], the flag [-i]: a [time.Duration], in nanoseconds. *)
Variable sendInterval : Z.

(** [time.NewTicker(d)]: it panics unless [d] is positive. *)
Definition NewTicker (d : Z) : result unit :=
  if d <=? 0 then Panic (PanicMsg "non-positive interval for NewTicker")
  else Ok tt.

(** [rand.Read(bb)], having handed out [pos] bytes before. *)
Definition rand_Read (pos : nat) (bb : list byte) : list byte :=
  map rnd (seq pos (length bb)).

(** [con.Write(b)] on a socket whose coming writes fail as [w] says
    (no entry: success). *)
Definition Write (w : list (option error)) : option error * list (option error) :=
  match w with
  | [] => (None, [])
  | e :: w' => (e, w')
  end.

(** The variables of [upload]. *)
Record sstate : Type := SState {
  s_i : Z;                      (* i int *)
  s_pkt : paket;                (* pkt paket *)
  s_h : list byte;              (* what was written to the digest h *)
  s_pos : nat;                  (* random bytes drawn *)
  s_w : list (option error);    (* con *)
  s_sent : list (list byte)     (* datagrams written to con *)
}.

(** The loop [for i = 0; i < pktCount; i++] of [upload]; the wait for the
    ticker has no effect on the data. *)
Fixpoint send_loop (remaining : nat) (bb : list byte) (st : sstate)
    : sstate * ending :=
  match remaining with
  | O => (st, Completed)
  | S remaining' =>
      let bb := rand_Read (s_pos st) bb in
      let h := s_h st ++ bb in
      match apply cfg (s_pkt st) bb with
      | Ok pkt =>
          match Write (s_w st) with
          | (None, w) =>
              send_loop remaining' bb
                (SState (s_i st + 1) pkt h (s_pos st + length bb)%nat w
                   (s_sent st ++ [writeTo pkt]))
          | (Some e, w) =>
              (SState (s_i st) pkt h (s_pos st + length bb)%nat w (s_sent st),
               Aborted (PanicErr e))
          end
      | Panic msg => (st, Aborted msg)
      | Blocked => (st, Waiting)
      end
  end.

(** What a run of the sender leaves behind. *)
Record sent : Type := Sent {
  sent_datagrams : list (list byte);
  sent_out : list line;
  sent_end : ending
}.

(** [func upload()], from the open socket on.  The deferred print of the
    count is registered after the handshake write and before the ticker is
    made, so a panic of [time.NewTicker] still prints a count of 0. *)
Definition upload (w : list (option error)) : sent :=
  match make (int_wrap (pktSize cfg - pktInfSize)) with
  | Ok bb =>
      let '(err, w) := Write w in
      match ep err with
      | Ok _ =>
          let first := match err with None => [start] | Some _ => [] end in
          match NewTicker sendInterval with
          | Ok _ =>
              let '(st, e) :=
                send_loop (Z.to_nat (pktCount cfg)) bb
                  (SState 0 paket_zero [] 0 w first) in
              match e with
              | Completed =>
                  Sent (s_sent st)
                    [LCheckSum (fmt_x (md5_sum (s_h st))); LTotalSent (s_i st)]
                    Completed
              | _ => Sent (s_sent st) [LTotalSent (s_i st)] e
              end
          | Panic msg => Sent first [LTotalSent 0] (Aborted msg)
          | Blocked => Sent first [] Waiting
          end
      | Panic msg => Sent [] [] (Aborted msg)
      | Blocked => Sent [] [] Waiting
      end
  | Panic msg => Sent [] [] (Aborted msg)
  | Blocked => Sent [] [] Waiting
  end.

End Sender.

(** * The wire format and the invariants, as the properties state them *)

(** The value of two bytes read as a little-endian [uint16]. *)
Definition le16_value (b0 b1 : byte) : Z := Z_of_byte b0 + 256 * Z_of_byte b1.

(** The two bytes of [v] as a little-endian [uint16]. *)
Definition le16 (v : Z) : list byte := [byte_of_Z v; byte_of_Z (Z.shiftr v 8)].

(** The frame of the wire format: sequence number, payload length, payload,
    terminator. *)
Definition frame (no : Z) (payload : list byte) : list byte :=
  le16 no ++ le16 (len payload) ++ payload ++ pktEnd.

(** The frame buffer of a [paket] that [apply] and [readFrom] maintain: nil
    before the first use (with the sequence number still 0), [pktSize] bytes
    afterwards. *)
Definition paket_ok (cfg : config) (p : paket) : Prop :=
  match p_buf p with
  | None => p_no p = 0
  | Some b => len b = pktSize cfg
  end.

(** The frame buffer [apply] writes into: the one of [p], or the fresh one of
    [reset]. *)
Definition buf_or_fresh (cfg : config) (p : paket) : list byte :=
  match p_buf p with
  | None => replicate (Z.to_nat (pktSize cfg)) x00
  | Some b => b
  end.

(** [s] with the bytes from index [lo] on replaced by [src]. *)
Definition overwrite (s : list byte) (lo : nat) (src : list byte) : list byte :=
  take lo s ++ src ++ drop (lo + length src) s.

(** The fields of a frame of the wire format, read off its bytes. *)
Definition sequence_field (f : list byte) : Z :=
  match f with
  | b0 :: b1 :: _ => le16_value b0 b1
  | _ => 0
  end.

Definition declared_length (f : list byte) : Z :=
  match f with
  | _ :: _ :: b2 :: b3 :: _ => le16_value b2 b3
  | _ => 0
  end.

Definition payload_view (f : list byte) : list byte :=
  take (Z.to_nat (declared_length f)) (drop 4 f).

(** The three malformed shapes of a frame. *)
Definition too_short (f : list byte) : Prop := len f < 6.

Definition length_mismatch (f : list byte) : Prop :=
  declared_length f <> len f - 6.

Definition bad_terminator (f : list byte) : Prop :=
  drop (length f - 2) f <> pktEnd.

Definition malformed (f : list byte) : Prop :=
  too_short f \/ length_mismatch f \/ bad_terminator f.

(** A frame of 65538 bytes: sequence number 1, 65532 payload bytes. *)
Definition long_frame : list byte := frame 1 (replicate (Z.to_nat 65532) x00).

(** The five-byte buffer of the first read of [serve] once the datagram [d]
    has arrived: its first five bytes, zeros where it is shorter. *)
Definition first_read (d : list byte) : list byte :=
  take 5 d ++ replicate (5 - length d) x00.

(** The payload capacity of a frame. *)
Definition capacity (cfg : config) : Z := pktSize cfg - 6.

(** The sizes of a run for which no [int] of [save] overflows: the buffer
    size and the largest offset a sequence number can give. *)
Definition sizes_fit (cfg : config) : Prop :=
  0 <= capacity cfg /\ 0 <= pktCount cfg /\
  capacity cfg * pktCount cfg < 2 ^ 63 /\
  65535 * capacity cfg < 2 ^ 63.

(** The reconstruction buffer is nil or has the size [save] allocates. *)
Definition store_ok (cfg : config) (s : store) : Prop :=
  match s with
  | None => True
  | Some b => len b = capacity cfg * pktCount cfg
  end.

(** The bytes [save] writes into: the buffer, or the fresh one of zeros. *)
Definition store_bytes (cfg : config) (s : store) : list byte :=
  match s with
  | None => replicate (Z.to_nat (capacity cfg * pktCount cfg)) x00
  | Some b => b
  end.

(** An accepted frame, as far as [save] looks at it: a [uint16] sequence
    number and a payload within the capacity. *)
Definition accepted (cfg : config) (p : paket) : Prop :=
  0 <= p_no p < 65536 /\ len (p_data p) <= capacity cfg.

(** [copy(b[off:], src)] on the bytes [b], for [off] within [b]. *)
Definition write_at (b : list byte) (off : nat) (src : list byte) : list byte :=
  take off b ++ copy (drop off b) src.

(** [save] for each frame of a list, in order. *)
Fixpoint save_all (cfg : config) (s : store) (ps : list paket) : result store :=
  match ps with
  | [] => Ok s
  | p :: ps' => s' ← save cfg s p; save_all cfg s' ps'
  end.

(** The sequence tracker as the specification words it: [observe] compares
    a sequence number with the last one seen; the anomalies of a stream are
    the observations that are not in order, each against its predecessor. *)
Definition in_order (last k : Z) : bool := last <? k.

Fixpoint anomalies (last : Z) (ks : list Z) : list line :=
  match ks with
  | [] => []
  | k :: ks' =>
      (if in_order last k then [] else [LWrongOrder last k]) ++ anomalies k ks'
  end.

(** The last sequence number seen after a stream. *)
Definition last_seen (last : Z) (ks : list Z) : Z := List.last ks last.

(** Frames on the socket: each a sequence number and a payload, all from the
    address [a]. *)
Definition arrivals (a : Addr) (fs : list (Z * list byte)) : list event :=
  map (fun f => Recv (frame (fst f) (snd f)) a None) fs.

(** A frame the receiver of [cfg] decodes: a [uint16] sequence number and a
    payload that fits the frame buffer and the slice arithmetic. *)
Definition fits (cfg : config) (f : Z * list byte) : Prop :=
  0 <= fst f < 65536 /\ len (snd f) + 6 <= pktSize cfg /\ len (snd f) <= 65531.

(** [save] cannot abort on these sequence numbers: buffering is off, or they
    are slots of the buffer. *)
Definition saves_ok (cfg : config) (ks : list Z) : Prop :=
  useMem cfg = false \/
  (sizes_fit cfg /\ Forall (fun k => 1 <= k <= pktCount cfg) ks).

(** The frames of a stream as [save] sees them, and the buffer after saving
    them in order. *)
Definition as_paket (f : Z * list byte) : paket :=
  Paket (fst f) (len (snd f)) (snd f) None None.

Definition stored (cfg : config) (s : store) (fs : list (Z * list byte)) : result store :=
  save_all cfg s (map as_paket fs).

(** The next read on these events returns the deadline error. *)
Definition times_out (evs : list event) : Prop :=
  match evs with
  | [] => True
  | Quiet :: _ => True
  | Recv _ _ (Some ErrDeadlineExceeded) :: _ => True
  | Recv _ _ _ :: _ => False
  end.

(** The sequence numbers 1, 2, ..., n. *)
Definition upto (n : nat) : list Z := map Z.of_nat (seq 1 n).

(** A stream with the payload [pl k] for the sequence number [k]. *)
Definition stream (pl : Z -> list byte) (ks : list Z) : list (Z * list byte) :=
  map (fun k => (k, pl k)) ks.

(** The payload of the sender's frame number [k + 1]: the [k]-th run of
    [pktSize - 6] bytes of the random source. *)
Definition payload_of (cfg : config) (rnd : nat -> byte) (k : nat) : list byte :=
  map rnd (seq (k * Z.to_nat (capacity cfg)) (Z.to_nat (capacity cfg))).

(** The frames of the sender numbered [j + 1] to [j + n]. *)
Definition frames_of (cfg : config) (rnd : nat -> byte) (j n : nat) : list (list byte) :=
  map (fun k => frame (Z.of_nat (S k)) (payload_of cfg rnd k)) (seq j n).

(** The payloads of these frames, one after the other. *)
Definition payloads_of (cfg : config) (rnd : nat -> byte) (j n : nat) : list byte :=
  concat (map (payload_of cfg rnd) (seq j n)).

(** The state of the loop of [upload] before the frame number [j + 1]. *)
Definition sending (cfg : config) (j : nat) (bb : list byte) (st : sstate) : Prop :=
  length bb = Z.to_nat (capacity cfg) /\
  paket_ok cfg (s_pkt st) /\
  p_no (s_pkt st) = u16 (Z.of_nat j) /\
  s_pos st = (j * Z.to_nat (capacity cfg))%nat.

(** The bytes of the slot of the sequence number [k] in a reconstruction
    buffer. *)
Definition slot (cfg : config) (b : list byte) (k : Z) : list byte :=
  take (Z.to_nat (capacity cfg)) (drop (Z.to_nat ((k - 1) * capacity cfg)) b).

(** The payload of the last frame of [fs] with the sequence number [k], or
    [d] when there is none. *)
Definition last_payload (d : list byte) (fs : list (Z * list byte)) (k : Z) : list byte :=
  fold_left (fun acc f => if fst f =? k then snd f else acc) fs d.

(** A frame [save] puts into a slot of its own: a sequence number from 1 to
    [pktCount] and a payload of the full capacity. *)
Definition full_frame (cfg : config) (f : Z * list byte) : Prop :=
  1 <= fst f <= pktCount cfg /\ fst f < 65536 /\ len (snd f) = capacity cfg.

(** The sender's frame number [k + 1] as the receiver decodes it. *)
Definition sent_frame (cfg : config) (rnd : nat -> byte) (k : nat) : Z * list byte :=
  (Z.of_nat (S k), payload_of cfg rnd k).

(** * Properties *)

(** ** Machine integers and bytes *)

Lemma u16_small (z : Z) : 0 <= z < 65536 -> u16 z = z.
Proof. intros H. unfold u16. apply Z.mod_small. exact H. Qed.

Lemma u16_range (z : Z) : 0 <= u16 z < 65536.
Proof. unfold u16. apply Z.mod_pos_bound. lia. Qed.

Lemma int_wrap_small (z : Z) : is_int z -> int_wrap z = z.
Proof.
  unfold is_int, int_wrap. intros H.
  rewrite Z.mod_small; lia.
Qed.

Lemma Z_of_byte_range (b : byte) : 0 <= Z_of_byte b < 256.
Proof.
  unfold Z_of_byte. pose proof (Byte.to_N_bounded b). lia.
Qed.

Lemma Z_of_byte_of_Z (z : Z) : Z_of_byte (byte_of_Z z) = z mod 256.
Proof.
  unfold Z_of_byte, byte_of_Z.
  assert (Hr : 0 <= z mod 256 < 256) by (apply Z.mod_pos_bound; lia).
  destruct (Byte.of_N (Z.to_N (z mod 256))) as [b|] eqn:E.
  - apply Byte.to_of_N in E. simpl. rewrite E. lia.
  - apply Byte.of_N_None_iff in E. lia.
Qed.

Lemma byte_of_Z_of_byte (b : byte) : byte_of_Z (Z_of_byte b) = b.
Proof.
  unfold byte_of_Z, Z_of_byte.
  pose proof (Byte.to_N_bounded b) as Hb.
  rewrite Z.mod_small by lia.
  rewrite N2Z.id, Byte.of_to_N. reflexivity.
Qed.

Lemma lor_shift_bytes (b0 b1 : byte) :
  Z.lor (Z_of_byte b0) (u16 (Z.shiftl (Z_of_byte b1) 8)) = le16_value b0 b1.
Proof.
  pose proof (Z_of_byte_range b0) as H0.
  pose proof (Z_of_byte_range b1) as H1.
  unfold le16_value.
  rewrite Z.shiftl_mul_pow2 by lia.
  rewrite u16_small by lia.
  symmetry. rewrite Z.mul_comm with (n := 256).
  change 256 with (2 ^ 8) at 1.
  rewrite <- Z.shiftl_mul_pow2 by lia.
  apply Z.add_nocarry_lor.
  apply Z.bits_inj'. intros n Hn.
  rewrite Z.land_spec, Z.bits_0.
  destruct (Z.ltb_spec n 8) as [Hlt|Hge].
  - rewrite Z.shiftl_spec_low by lia. apply andb_false_r.
  - rewrite (Z.bits_above_log2 (Z_of_byte b0) n); [reflexivity | lia |].
    destruct (Z.eq_dec (Z_of_byte b0) 0) as [->|Hne]; [simpl; lia|].
    apply Z.log2_lt_pow2; [lia|].
    apply Z.lt_le_trans with (m := 2 ^ 8); [lia|].
    apply Z.pow_le_mono_r; lia.
Qed.

Lemma le16_value_range (b0 b1 : byte) : 0 <= le16_value b0 b1 < 65536.
Proof.
  pose proof (Z_of_byte_range b0). pose proof (Z_of_byte_range b1).
  unfold le16_value. lia.
Qed.

Lemma le16_value_le16 (v : Z) :
  le16_value (byte_of_Z v) (byte_of_Z (Z.shiftr v 8)) = u16 v.
Proof.
  unfold le16_value, u16. rewrite !Z_of_byte_of_Z.
  rewrite Z.shiftr_div_pow2 by lia.
  change (2 ^ 8) with 256.
  change 65536 with (256 * 256).
  rewrite Z.rem_mul_r by lia. lia.
Qed.

Lemma Uint16_le16 (v : Z) (rest : list byte) :
  Uint16 (le16 v ++ rest) = Ok (u16 v).
Proof.
  unfold le16. simpl. rewrite lor_shift_bytes, le16_value_le16. reflexivity.
Qed.

(** ** Slices *)

Lemma len_nonneg {A : Type} (s : list A) : 0 <= len s.
Proof. unfold len. lia. Qed.

Lemma len_app {A : Type} (s t : list A) : len (s ++ t) = len s + len t.
Proof. unfold len. rewrite length_app. lia. Qed.

Lemma make_ok (n : Z) : 0 <= n -> make n = Ok (replicate (Z.to_nat n) x00).
Proof.
  intros H. unfold make.
  destruct (Z.ltb_spec n 0); [lia | reflexivity].
Qed.

Lemma slice_from_ok (s : list byte) (lo : Z) :
  0 <= lo <= len s -> slice_from s lo = Ok (drop (Z.to_nat lo) s).
Proof.
  intros H. unfold slice_from.
  destruct (Z.leb_spec 0 lo); [|lia].
  destruct (Z.leb_spec lo (len s)); [reflexivity | lia].
Qed.

Lemma slice_ok (s : list byte) (lo hi : Z) :
  0 <= lo <= hi -> hi <= len s ->
  slice s lo hi = Ok (take (Z.to_nat (hi - lo)) (drop (Z.to_nat lo) s)).
Proof.
  intros H1 H2. unfold slice.
  destruct (Z.leb_spec 0 lo); [|lia].
  destruct (Z.leb_spec lo hi); [|lia].
  destruct (Z.leb_spec hi (len s)); [reflexivity | lia].
Qed.

Lemma copy_fits (dst src : list byte) :
  (length src <= length dst)%nat -> copy dst src = src ++ drop (length src) dst.
Proof.
  intros H. unfold copy. rewrite take_ge by lia. reflexivity.
Qed.

Lemma length_copy (dst src : list byte) : length (copy dst src) = length dst.
Proof.
  unfold copy. rewrite length_app, length_take, length_drop. lia.
Qed.

Lemma length_overwrite (s : list byte) (lo : nat) (src : list byte) :
  (lo + length src <= length s)%nat -> length (overwrite s lo src) = length s.
Proof.
  intros H. unfold overwrite.
  rewrite !length_app, length_take, length_drop. lia.
Qed.

Lemma overwrite_app (pre t src : list byte) :
  overwrite (pre ++ t) (length pre) src = pre ++ src ++ drop (length src) t.
Proof.
  unfold overwrite.
  rewrite take_app_length, drop_app_add. reflexivity.
Qed.

Lemma with_slice_from_copy (s : list byte) (lo : Z) (src : list byte) :
  0 <= lo -> lo + len src <= len s ->
  with_slice_from s lo (fun d => mret (copy d src))
  = Ok (overwrite s (Z.to_nat lo) src).
Proof.
  intros H1 H2. unfold with_slice_from, len in *.
  rewrite slice_from_ok by (unfold len; lia). simpl.
  rewrite copy_fits by (rewrite length_drop; lia).
  unfold overwrite, mret, result_ret.
  rewrite drop_drop. reflexivity.
Qed.

Lemma PutUint16_ok (s : list byte) (v : Z) :
  2 <= len s -> PutUint16 s v = Ok (le16 v ++ drop 2 s).
Proof.
  unfold len. intros H.
  destruct s as [|x0 [|x1 s]]; simpl in H; try lia.
  reflexivity.
Qed.

Lemma with_slice_from_PutUint16 (s : list byte) (lo v : Z) :
  0 <= lo -> lo + 2 <= len s ->
  with_slice_from s lo (fun d => PutUint16 d v)
  = Ok (overwrite s (Z.to_nat lo) (le16 v)).
Proof.
  intros H1 H2. unfold with_slice_from, len in *.
  rewrite slice_from_ok by (unfold len; lia). simpl.
  rewrite PutUint16_ok by (unfold len; rewrite length_drop; lia). simpl.
  unfold overwrite, mret, result_ret.
  rewrite drop_drop. reflexivity.
Qed.

Lemma length_le16 (v : Z) : length (le16 v) = 2%nat.
Proof. reflexivity. Qed.

Lemma length_pktEnd : length pktEnd = 2%nat.
Proof. reflexivity. Qed.

Ltac solve_len :=
  unfold len, pktInfSize, pktHdrSize, pktNoSize, pktSzSize, pktEndSize in *;
  rewrite ?length_app, ?length_drop, ?length_take, ?length_le16, ?length_pktEnd,
    ?length_replicate;
  cbn [length] in *;
  lia.

(** ** [paket.apply]: the layout of the frame buffer *)

Lemma len_buf_or_fresh (cfg : config) (p : paket) :
  0 <= pktSize cfg -> paket_ok cfg p -> len (buf_or_fresh cfg p) = pktSize cfg.
Proof.
  intros Hs Hok. unfold paket_ok, buf_or_fresh in *.
  destruct (p_buf p); [exact Hok|].
  unfold len. rewrite length_replicate. lia.
Qed.

(** The four writes of [apply] into a buffer with room for the frame. *)
Lemma apply_writes {A : Type} (buf : list byte) (no size : Z) (b : list byte)
    (k : list byte -> result A) :
  len b + 6 <= len buf ->
  len buf < 2 ^ 63 ->
  (b1 ← PutUint16 buf no;
   b2 ← with_slice_from b1 pktNoSize (fun d => PutUint16 d size);
   b3 ← with_slice_from b2 pktHdrSize (fun d => mret (copy d b));
   b4 ← with_slice_from b3 (int_wrap (pktHdrSize + len b))
          (fun d => mret (copy d pktEnd));
   k b4)
  = k (le16 no ++ le16 size ++ b ++ pktEnd ++ drop (6 + length b) buf).
Proof.
  intros Hfit Hint.
  pose proof (len_nonneg b) as Hb.
  rewrite int_wrap_small by (unfold is_int; solve_len).
  rewrite PutUint16_ok by solve_len.
  unfold mbind at 1, result_bind at 1.
  rewrite with_slice_from_PutUint16 by solve_len.
  unfold mbind at 1, result_bind at 1.
  change (Z.to_nat pktNoSize) with (length (le16 no)).
  rewrite overwrite_app.
  rewrite with_slice_from_copy by solve_len.
  unfold mbind at 1, result_bind at 1.
  change (Z.to_nat pktHdrSize) with (length (le16 no ++ le16 size)).
  rewrite (app_assoc (le16 no) (le16 size)), overwrite_app.
  rewrite with_slice_from_copy by solve_len.
  unfold mbind at 1, result_bind at 1.
  replace (Z.to_nat (pktHdrSize + len b))
    with (length ((le16 no ++ le16 size) ++ b)) by solve_len.
  rewrite (app_assoc (le16 no ++ le16 size) b), overwrite_app.
  rewrite !drop_drop. rewrite <- !app_assoc.
  rewrite ?length_le16, ?length_pktEnd. do 6 f_equal. lia.
Qed.

Lemma reset_ok (cfg : config) (p : paket) :
  0 <= pktSize cfg ->
  reset cfg p = Ok (Paket 0 0 (p_data p) (Some (buf_or_fresh cfg p)) None).
Proof.
  intros Hs. unfold reset, buf_or_fresh.
  destruct (p_buf p); [reflexivity|].
  rewrite make_ok by lia. reflexivity.
Qed.

Lemma apply_ok (cfg : config) (p : paket) (b : list byte) :
  paket_ok cfg p ->
  pktSize cfg < 2 ^ 63 ->
  len b <= pktSize cfg - 6 ->
  apply cfg p b
  = Ok (Paket (u16 (p_no p + 1)) (u16 (len b)) (p_data p)
          (Some (le16 (u16 (p_no p + 1)) ++ le16 (u16 (len b)) ++ b ++ pktEnd
                   ++ drop (6 + length b) (buf_or_fresh cfg p)))
          (if p_no p =? 0 then None else p_from p)).
Proof.
  intros Hok Hint Hlen.
  pose proof (len_nonneg b) as Hb.
  assert (Hs : 0 <= pktSize cfg) by lia.
  pose proof (len_buf_or_fresh cfg p Hs Hok) as Hbuf.
  assert (Hguard : (len b >? int_wrap (pktSize cfg - pktInfSize)) = false).
  { rewrite int_wrap_small by (unfold is_int; solve_len).
    rewrite Z.gtb_ltb. apply Z.ltb_ge. solve_len. }
  unfold apply.
  destruct (Z.eqb_spec (p_no p) 0) as [E0|E0].
  - rewrite reset_ok by lia.
    unfold mbind at 1, result_bind at 1.
    cbn [p_no p_size p_data p_buf p_from].
    rewrite Hguard, E0.
    apply (apply_writes (buf_or_fresh cfg p) _ _ b
             (fun b4 => Ok (Paket _ _ _ (Some b4) _))); lia.
  - change (mret p) with (Ok p).
    unfold mbind at 1, result_bind at 1. cbv beta iota.
    rewrite Hguard.
    unfold paket_ok, buf_or_fresh in *.
    destruct (p_buf p) as [buf|]; [|contradiction].
    apply (apply_writes buf _ _ b (fun b4 => Ok (Paket _ _ _ (Some b4) _))); lia.
Qed.

(** ** The parsing of [readFrom] *)

Lemma decode_short (buf : list byte) :
  len buf < 6 -> decode buf = Panic "to few bytes received".
Proof.
  intros H. unfold decode.
  destruct (Z.ltb_spec (len buf) pktInfSize) as [_|Hge]; [reflexivity|].
  solve_len.
Qed.

(** [decode] on a frame of six bytes or more, check by check. *)
Lemma decode_long (b0 b1 b2 b3 : byte) (rest : list byte) :
  2 <= len rest ->
  decode (b0 :: b1 :: b2 :: b3 :: rest)
  = if negb (len rest - 2 =? le16_value b2 b3)
    then Panic "expected and received packet size are not match"
    else if negb (bytes_Equal (drop (length rest - 2) rest) pktEnd)
    then Panic "unexpected packet end"
    else if 65532 <=? len rest - 2
    then Panic (RuntimeError "slice bounds out of range")
    else Ok (le16_value b0 b1, len rest - 2, take (length rest - 2) rest).
Proof.
  intros H. unfold decode.
  set (buf := b0 :: b1 :: b2 :: b3 :: rest).
  assert (Hlen : len buf = 4 + len rest).
  { unfold buf, len. simpl length. lia. }
  destruct (Z.ltb_spec (len buf) pktInfSize) as [Hlt|_]; [solve_len|].
  rewrite (slice_ok buf 0 pktNoSize) by solve_len.
  rewrite (slice_ok buf pktNoSize pktHdrSize) by solve_len.
  change (take (Z.to_nat (pktNoSize - 0)) (drop (Z.to_nat 0) buf)) with [b0; b1].
  change (take (Z.to_nat (pktHdrSize - pktNoSize)) (drop (Z.to_nat pktNoSize) buf))
    with [b2; b3].
  unfold mbind at 1, result_bind at 1. unfold mbind at 1, result_bind at 1.
  unfold mbind at 1, result_bind at 1. unfold mbind at 1, result_bind at 1.
  unfold Uint16. rewrite !lor_shift_bytes.
  replace (len buf - pktInfSize) with (len rest - 2) by solve_len.
  pose proof (le16_value_range b2 b3) as Hsz.
  destruct (Z.eqb_spec (len rest - 2) (le16_value b2 b3)) as [Esz|Esz];
    [|reflexivity].
  cbn [negb]. rewrite <- Esz in *.
  rewrite slice_from_ok by solve_len.
  unfold mbind at 1, result_bind at 1.
  replace (drop (Z.to_nat (len buf - pktEndSize)) buf)
    with (drop (length rest - 2) rest).
  2:{ replace (Z.to_nat (len buf - pktEndSize)) with (4 + (length rest - 2))%nat
        by solve_len.
      reflexivity. }
  destruct (bytes_Equal (drop (length rest - 2) rest) pktEnd); [|reflexivity].
  cbn [negb].
  destruct (Z.leb_spec 65532 (len rest - 2)) as [Hbig|Hsmall].
  - unfold slice, u16.
    assert (Hw : (pktHdrSize + (len rest - 2)) mod 65536 = len rest - 2 - 65532).
    { unfold pktHdrSize, pktNoSize, pktSzSize.
      replace (2 + 2 + (len rest - 2)) with ((len rest - 2 - 65532) + 1 * 65536) by lia.
      rewrite Z.mod_add by lia. apply Z.mod_small. lia. }
    rewrite Hw.
    destruct (Z.leb_spec pktHdrSize (len rest - 2 - 65532)) as [Hle|_].
    + unfold pktHdrSize, pktNoSize, pktSzSize in Hle. lia.
    + rewrite andb_false_r. reflexivity.
  - rewrite u16_small by solve_len.
    rewrite slice_ok by solve_len.
    unfold mbind, result_bind, mret, result_ret.
    replace (Z.to_nat (pktHdrSize + (len rest - 2) - pktHdrSize))
      with (length rest - 2)%nat by solve_len.
    reflexivity.
Qed.

Lemma le16_u16 (v : Z) : le16 (u16 v) = le16 v.
Proof.
  unfold le16, u16, byte_of_Z.
  rewrite !Z.shiftr_div_pow2 by lia.
  change (2 ^ 8) with 256.
  replace ((v mod 65536) mod 256) with (v mod 256)
    by (Z.div_mod_to_equations; lia).
  replace (((v mod 65536) / 256) mod 256) with ((v / 256) mod 256)
    by (Z.div_mod_to_equations; lia).
  reflexivity.
Qed.

Lemma decode_frame_residue (no : Z) (b residue : list byte) :
  decode (frame no b ++ residue)
  = if negb (len b + len residue =? u16 (len b))
    then Panic "expected and received packet size are not match"
    else if negb (bytes_Equal (drop (length b + length residue)
                                 (b ++ pktEnd ++ residue)) pktEnd)
    then Panic "unexpected packet end"
    else if 65532 <=? len b + len residue
    then Panic (RuntimeError "slice bounds out of range")
    else Ok (u16 no, len b + len residue,
             take (length b + length residue) (b ++ pktEnd ++ residue)).
Proof.
  change (frame no b ++ residue)
    with (byte_of_Z no :: byte_of_Z (Z.shiftr no 8)
          :: byte_of_Z (len b) :: byte_of_Z (Z.shiftr (len b) 8)
          :: ((b ++ pktEnd) ++ residue)).
  rewrite decode_long by solve_len.
  rewrite !le16_value_le16.
  replace (len ((b ++ pktEnd) ++ residue) - 2) with (len b + len residue)
    by solve_len.
  replace (length ((b ++ pktEnd) ++ residue) - 2)%nat
    with (length b + length residue)%nat by solve_len.
  rewrite <- !app_assoc. reflexivity.
Qed.

Lemma decode_frame (no : Z) (b : list byte) :
  0 <= no < 65536 -> len b <= 65531 ->
  decode (frame no b) = Ok (no, len b, b).
Proof.
  intros Hno Hb. pose proof (len_nonneg b) as Hb0.
  rewrite <- (app_nil_r (frame no b)), decode_frame_residue.
  change (len (@nil byte)) with 0. change (length (@nil byte)) with 0%nat.
  rewrite !Z.add_0_r, !Nat.add_0_r.
  rewrite !u16_small by lia.
  rewrite Z.eqb_refl. cbn [negb].
  rewrite drop_app_length, app_nil_r, take_app_length.
  unfold bytes_Equal. rewrite bool_decide_eq_true_2 by reflexivity. cbn [negb].
  destruct (Z.leb_spec 65532 (len b)); [lia | reflexivity].
Qed.

Lemma decode_frame_residue_fails (no : Z) (b residue : list byte) :
  residue <> [] ->
  decode (frame no b ++ residue)
  = Panic "expected and received packet size are not match".
Proof.
  intros Hres. rewrite decode_frame_residue.
  assert (0 < len residue).
  { destruct residue; [contradiction|]. unfold len. simpl. lia. }
  pose proof (len_nonneg b).
  destruct (Z.eqb_spec (len b + len residue) (u16 (len b))) as [E|E];
    [|reflexivity].
  exfalso. unfold u16 in E.
  pose proof (Z.mod_le (len b) 65536). lia.
Qed.

(** ** [decode] against the three malformed shapes *)

Lemma decode_malformed (f : list byte) :
  malformed f -> exists msg, decode f = Panic msg.
Proof.
  intros Hm.
  destruct (Z.lt_ge_cases (len f) 6) as [Hshort|Hlong].
  { rewrite decode_short by exact Hshort. eauto. }
  destruct f as [|b0 [|b1 [|b2 [|b3 rest]]]]; try (unfold len in Hlong; simpl in Hlong; lia).
  assert (Hrest : 2 <= len rest) by solve_len.
  rewrite decode_long by exact Hrest.
  destruct Hm as [Hm|[Hm|Hm]].
  - unfold too_short in Hm. lia.
  - unfold length_mismatch, declared_length in Hm.
    destruct (Z.eqb_spec (len rest - 2) (le16_value b2 b3)) as [E|E].
    + exfalso. apply Hm. rewrite <- E. solve_len.
    + cbn [negb]. eauto.
  - unfold bad_terminator in Hm.
    destruct (negb (len rest - 2 =? le16_value b2 b3)); [eauto|].
    replace (drop (length (b0 :: b1 :: b2 :: b3 :: rest) - 2)
               (b0 :: b1 :: b2 :: b3 :: rest))
      with (drop (length rest - 2) rest) in Hm.
    2:{ replace (length (b0 :: b1 :: b2 :: b3 :: rest) - 2)%nat
          with (4 + (length rest - 2))%nat by solve_len.
        reflexivity. }
    unfold bytes_Equal. rewrite bool_decide_eq_false_2 by exact Hm.
    cbn [negb]. eauto.
Qed.

Lemma decode_wellformed (f : list byte) :
  ~ malformed f -> len f <= 65537 ->
  decode f = Ok (sequence_field f, declared_length f, payload_view f).
Proof.
  intros Hm Hlen.
  assert (Hlong : 6 <= len f).
  { destruct (Z.lt_ge_cases (len f) 6); [|assumption].
    exfalso. apply Hm. left. assumption. }
  destruct f as [|b0 [|b1 [|b2 [|b3 rest]]]]; try (unfold len in Hlong; simpl in Hlong; lia).
  assert (Hrest : 2 <= len rest) by solve_len.
  rewrite decode_long by exact Hrest.
  destruct (Z.eqb_spec (len rest - 2) (le16_value b2 b3)) as [E|E].
  2:{ exfalso. apply Hm. right. left.
      unfold length_mismatch, declared_length. intros E'. apply E.
      rewrite E'. solve_len. }
  cbn [negb].
  destruct (decide (drop (length rest - 2) rest = pktEnd)) as [Eend|Eend].
  2:{ exfalso. apply Hm. right. right. unfold bad_terminator.
      replace (length (b0 :: b1 :: b2 :: b3 :: rest) - 2)%nat
        with (4 + (length rest - 2))%nat by solve_len.
      exact Eend. }
  unfold bytes_Equal. rewrite bool_decide_eq_true_2 by exact Eend. cbn [negb].
  destruct (Z.leb_spec 65532 (len rest - 2)) as [Hbig|_]; [solve_len|].
  unfold payload_view. cbn [sequence_field declared_length].
  change (drop 4 (b0 :: b1 :: b2 :: b3 :: rest)) with rest.
  rewrite <- E.
  replace (Z.to_nat (len rest - 2)) with (length rest - 2)%nat by solve_len.
  reflexivity.
Qed.

(** On frames of at most 65537 bytes [decode] fails exactly on the three
    malformed shapes. *)
Lemma decode_fails_iff_malformed (f : list byte) :
  len f <= 65537 ->
  (exists msg, decode f = Panic msg) <-> malformed f.
Proof.
  intros Hlen. split.
  - intros [msg Hd].
    destruct (Z.lt_ge_cases (len f) 6) as [Hs|Hl]; [left; exact Hs|].
    destruct (decide (declared_length f = len f - 6)) as [E1|E1];
      [|right; left; exact E1].
    destruct (decide (drop (length f - 2) f = pktEnd)) as [E2|E2];
      [|right; right; exact E2].
    rewrite decode_wellformed in Hd; [discriminate| |exact Hlen].
    unfold malformed, too_short, length_mismatch, bad_terminator.
    intros [H|[H|H]]; [lia | contradiction | contradiction].
  - apply decode_malformed.
Qed.

(** C4 (as amended).  On frames of at most 65537 bytes the parsing of
    [readFrom] fails exactly on the three malformed shapes (shorter than 6
    bytes, a length field that is not the frame length minus 6, a
    terminator other than ["\r\n"]), and on every other such frame it
    succeeds and returns the little-endian [uint16] of bytes 0..2 as the
    sequence number, the length field, and the payload bytes at offsets
    4..4+length. *)
Theorem decode_exact_up_to_65537 (f : list byte) :
  len f <= 65537 ->
  ((exists v, decode f = Panic v) <-> malformed f) /\
  (~ malformed f ->
   decode f = Ok (sequence_field f, declared_length f, payload_view f)).
Proof.
  intros Hlen. split.
  - apply decode_fails_iff_malformed. exact Hlen.
  - intros Hm. apply decode_wellformed; assumption.
Qed.

Lemma decode_exact_up_to_65537_witness :
  len (frame 1 [x41; x42]) <= 65537 /\
  ~ malformed (frame 1 [x41; x42]) /\
  decode (frame 1 [x41; x42])
  = Ok (sequence_field (frame 1 [x41; x42]), declared_length (frame 1 [x41; x42]),
        payload_view (frame 1 [x41; x42])).
Proof.
  assert (H0 : len (frame 1 [x41; x42]) <= 65537) by (unfold len; simpl; lia).
  assert (H1 : ~ malformed (frame 1 [x41; x42])).
  { unfold malformed, too_short, length_mismatch, bad_terminator, len.
    simpl. intros [H|[H|H]]; [lia | apply H; reflexivity | apply H; reflexivity]. }
  split; [exact H0|]. split; [exact H1|].
  exact (proj2 (decode_exact_up_to_65537 (frame 1 [x41; x42]) H0) H1).
Defined.

(** C4, as stated, fails above the packet sizes [main] warns about: a frame
    of 65538 bytes that has none of the three malformed shapes (six bytes or
    more, a length field equal to the frame length minus 6, the terminator
    at its end) is not decoded.  The upper bound [pktHdrSize+plSize] of the
    payload slice is a [uint16] sum and wraps to 0, below the lower bound 4,
    and the slice expression panics. *)
Lemma decode_long_frame_aborts :
  len long_frame = 65538 /\
  ~ malformed long_frame /\
  decode long_frame = Panic (RuntimeError "slice bounds out of range").
Proof.
  assert (Hlen : len long_frame = 65538) by (vm_compute; reflexivity).
  assert (Hdecl : declared_length long_frame = 65532) by (vm_compute; reflexivity).
  assert (Hend : drop (length long_frame - 2) long_frame = pktEnd)
    by (vm_compute; reflexivity).
  split; [exact Hlen|]. split.
  - unfold malformed, too_short, length_mismatch, bad_terminator.
    rewrite Hlen, Hdecl, Hend.
    intros [H|[H|H]]; [lia | apply H; reflexivity | apply H; reflexivity].
  - vm_compute. reflexivity.
Qed.

(** ** [paket.readFrom] on what the socket delivers *)

Lemma bytes_of_Some (b : list byte) : bytes_of (Some b) = b.
Proof. reflexivity. Qed.

(** A datagram arrives (possibly with an error): the first [pktSize] bytes
    of it are decoded; the origin plays no part. *)
Lemma readFrom_recv (cfg : config) (q : paket) (dl : bool)
    (d : list byte) (a : Addr) (err : option error) (evs : list event) :
  0 <= pktSize cfg -> paket_ok cfg q ->
  readFrom cfg q (Conn dl (Recv d a err :: evs))
  = let n := Z.to_nat (Z.min (len d) (pktSize cfg)) in
    let buf' := take n d ++ drop n (buf_or_fresh cfg q) in
    if is_deadline err
    then Ok (Paket 0 0 (p_data q) (Some buf') None, Conn true evs, err)
    else
      _ ← ep err;
      '(no, plSize, data) ← decode (take n d);
      mret (Paket no plSize data (Some buf') a, Conn true evs, None).
Proof.
  intros Hs Hok.
  pose proof (len_buf_or_fresh cfg q Hs Hok) as Hbuf.
  pose proof (len_nonneg d) as Hd.
  unfold readFrom. rewrite reset_ok by exact Hs.
  unfold mbind at 1, result_bind at 1.
  cbn [p_no p_size p_data p_buf p_from].
  rewrite bytes_of_Some.
  unfold ReadFrom, SetReadDeadline. cbn [deadline pending read_events].
  unfold mbind at 1, result_bind at 1. unfold mbind at 1, result_bind at 1.
  cbn [mret result_ret].
  rewrite Hbuf.
  cbv zeta.
  destruct (is_deadline err); [reflexivity|].
  destruct (ep err) as [[]|msg|]; [|reflexivity|reflexivity].
  unfold mbind at 1, result_bind at 1. unfold mbind at 1, result_bind at 1.
  cbn [mret result_ret]. rewrite bytes_of_Some.
  set (n := Z.min (len d) (pktSize cfg)).
  assert (Hn : 0 <= n <= len d) by lia.
  rewrite slice_ok by (unfold len in *; rewrite ?length_app, ?length_take, ?length_drop; lia).
  unfold mbind at 1, result_bind at 1.
  replace (take (Z.to_nat (n - 0)) (drop (Z.to_nat 0) (take (Z.to_nat n) d ++ drop (Z.to_nat n) (buf_or_fresh cfg q))))
    with (take (Z.to_nat n) d).
  2:{ change (Z.to_nat 0) with 0%nat. rewrite drop_0, Z.sub_0_r.
      rewrite take_app_le by (rewrite length_take; unfold len in *; lia).
      rewrite take_take. f_equal. lia. }
  destruct (decode (take (Z.to_nat n) d)) as [[[no sz] data]|msg|]; reflexivity.
Qed.

(** Nothing arrives within the deadline. *)
Lemma readFrom_quiet (cfg : config) (q : paket) (dl : bool) (evs : list event) :
  0 <= pktSize cfg ->
  readFrom cfg q (Conn dl (Quiet :: evs))
  = Ok (Paket 0 0 (p_data q) (Some (buf_or_fresh cfg q)) None, Conn true evs,
        Some ErrDeadlineExceeded).
Proof.
  intros Hs. unfold readFrom. rewrite reset_ok by exact Hs. reflexivity.
Qed.

Lemma readFrom_silence (cfg : config) (q : paket) (dl : bool) :
  0 <= pktSize cfg ->
  readFrom cfg q (Conn dl [])
  = Ok (Paket 0 0 (p_data q) (Some (buf_or_fresh cfg q)) None, Conn true [],
        Some ErrDeadlineExceeded).
Proof.
  intros Hs. unfold readFrom. rewrite reset_ok by exact Hs. reflexivity.
Qed.

(** ** Round trip through [apply], [writeTo] and [readFrom] *)

Lemma u16_pred_succ (seq : Z) : 0 <= seq < 65536 -> u16 (u16 (seq - 1) + 1) = seq.
Proof.
  intros H. unfold u16.
  destruct (Z.eq_dec seq 0) as [->|Hne]; [reflexivity|].
  rewrite (Z.mod_small (seq - 1)) by lia.
  rewrite Z.mod_small; lia.
Qed.

(** C2 (as amended).  For every sequence number, every packet size up to
    65537 and every payload of exactly [pktSize - 6] bytes, [apply] succeeds,
    the bytes [writeTo] emits are the frame of the wire format, their
    parsing gives back the sequence number and the payload, and a receiver
    with the same packet size that reads this datagram holds both in its
    [paket]. *)
Theorem roundtrip_full_payload (cfg : config) (p : paket) (seq : Z) (b : list byte) :
  paket_ok cfg p ->
  0 <= seq < 65536 ->
  p_no p = u16 (seq - 1) ->
  pktSize cfg <= 65537 ->
  len b = pktSize cfg - 6 ->
  exists p',
    apply cfg p b = Ok p' /\
    p_no p' = seq /\
    writeTo p' = frame seq b /\
    decode (writeTo p') = Ok (seq, len b, b) /\
    forall (q : paket) (dl : bool) (a : Addr) (evs : list event),
      paket_ok cfg q ->
      readFrom cfg q (Conn dl (Recv (writeTo p') a None :: evs))
      = Ok (Paket seq (len b) b (Some (writeTo p')) a, Conn true evs, None).
Proof.
  intros Hok Hseq Hno Hsize Hlen.
  pose proof (len_nonneg b) as Hb.
  assert (Hs : 0 <= pktSize cfg) by lia.
  pose proof (len_buf_or_fresh cfg p Hs Hok) as Hbuf.
  eexists. split; [apply apply_ok; [exact Hok | lia | lia]|].
  unfold writeTo. cbn [p_no p_buf]. rewrite bytes_of_Some.
  rewrite Hno, u16_pred_succ by exact Hseq.
  rewrite drop_ge by solve_len.
  rewrite le16_u16, app_nil_r.
  change (le16 seq ++ le16 (len b) ++ b ++ pktEnd) with (frame seq b).
  assert (Hdec : decode (frame seq b) = Ok (seq, len b, b))
    by (apply decode_frame; lia).
  split; [reflexivity|]. split; [reflexivity|]. split; [exact Hdec|].
  intros q dl a evs Hq.
  pose proof (len_buf_or_fresh cfg q Hs Hq) as Hqbuf.
  rewrite readFrom_recv by assumption.
  cbv zeta. cbn [is_deadline ep].
  assert (Hfl : len (frame seq b) = pktSize cfg) by (unfold frame; solve_len).
  rewrite Hfl, Z.min_id.
  rewrite take_ge by solve_len.
  rewrite drop_ge by solve_len.
  rewrite app_nil_r, Hdec. reflexivity.
Qed.

Lemma roundtrip_full_payload_witness :
  paket_ok (Config 8 1 false) paket_zero /\
  len [x41; x42] = pktSize (Config 8 1 false) - 6 /\
  exists p',
    apply (Config 8 1 false) paket_zero [x41; x42] = Ok p' /\
    p_no p' = 1 /\
    writeTo p' = frame 1 [x41; x42] /\
    decode (writeTo p') = Ok (1, len [x41; x42], [x41; x42]) /\
    forall (q : paket) (dl : bool) (a : Addr) (evs : list event),
      paket_ok (Config 8 1 false) q ->
      readFrom (Config 8 1 false) q (Conn dl (Recv (writeTo p') a None :: evs))
      = Ok (Paket 1 (len [x41; x42]) [x41; x42] (Some (writeTo p')) a,
            Conn true evs, None).
Proof.
  split; [reflexivity|]. split; [reflexivity|].
  apply (roundtrip_full_payload (Config 8 1 false) paket_zero 1 [x41; x42]).
  - reflexivity.
  - lia.
  - reflexivity.
  - simpl. lia.
  - reflexivity.
Defined.

(** C2, as stated, fails: with a packet size of 8 a payload of one byte lies
    in [0, pktSize - 6]; [apply] succeeds, [writeTo] emits all 8 bytes of the
    frame buffer, and the parsing rejects them, the length field (1) not
    being the frame length minus 6 (2).  It also fails for a payload of
    exactly [pktSize - 6] bytes once the frame exceeds 65537 bytes: with a
    packet size of 65538 the frame is written in full and the parsing
    panics on its payload slice. *)
Lemma roundtrip_short_payload_fails :
  paket_ok (Config 8 1 false) paket_zero /\
  0 <= len [x41] <= pktSize (Config 8 1 false) - 6 /\
  (exists p',
     apply (Config 8 1 false) paket_zero [x41] = Ok p' /\
     writeTo p' = [x01; x00; x01; x00; x41; x0d; x0a; x00] /\
     decode (writeTo p')
     = Panic "expected and received packet size are not match") /\
  len (replicate (Z.to_nat 65532) x00) = pktSize (Config 65538 1 false) - 6 /\
  (p ← apply (Config 65538 1 false) paket_zero (replicate (Z.to_nat 65532) x00);
   mret (p_no p, len (writeTo p))) = Ok (1, 65538) /\
  (p ← apply (Config 65538 1 false) paket_zero (replicate (Z.to_nat 65532) x00);
   decode (writeTo p)) = Panic (RuntimeError "slice bounds out of range").
Proof.
  split; [reflexivity|]. split; [simpl; unfold len; simpl; lia|].
  split; [eexists; split; [reflexivity|]; split; reflexivity|].
  split; [vm_compute; reflexivity|].
  split; vm_compute; reflexivity.
Qed.

(** ** What the sender puts on the wire *)

Lemma apply_frame (cfg : config) (p : paket) (b : list byte) :
  paket_ok cfg p ->
  0 <= pktSize cfg < 2 ^ 63 ->
  len b <= pktSize cfg - 6 ->
  exists p',
    apply cfg p b = Ok p' /\
    paket_ok cfg p' /\
    p_no p' = u16 (p_no p + 1) /\
    len (writeTo p') = pktSize cfg /\
    writeTo p' = frame (p_no p') b ++ drop (6 + length b) (buf_or_fresh cfg p).
Proof.
  intros Hok Hs Hlen.
  pose proof (len_nonneg b) as Hb.
  pose proof (len_buf_or_fresh cfg p ltac:(lia) Hok) as Hbuf.
  eexists. split; [apply apply_ok; [exact Hok | lia | lia]|].
  unfold writeTo, paket_ok. cbn [p_no p_buf]. rewrite bytes_of_Some.
  rewrite !le16_u16. unfold frame. rewrite <- !app_assoc.
  rewrite le16_u16.
  split; [solve_len|]. split; [reflexivity|]. split; [solve_len | reflexivity].
Qed.

Lemma length_rand_Read (rnd : nat -> byte) (pos : nat) (bb : list byte) :
  length (rand_Read rnd pos bb) = length bb.
Proof. unfold rand_Read. rewrite length_map, length_seq. reflexivity. Qed.

(** The loop of [upload] only adds datagrams of [pktSize] bytes. *)
Lemma send_loop_sent (cfg : config) (rnd : nat -> byte) (n : nat) :
  0 <= pktSize cfg < 2 ^ 63 ->
  forall (bb : list byte) (st : sstate),
    len bb = pktSize cfg - 6 ->
    paket_ok cfg (s_pkt st) ->
    exists frames,
      s_sent (send_loop cfg rnd n bb st).1 = s_sent st ++ frames /\
      Forall (fun d => len d = pktSize cfg) frames.
Proof.
  intros Hs. induction n as [|n IH]; intros bb st Hbb Hok.
  - exists []. cbn. rewrite app_nil_r. split; [reflexivity | constructor].
  - cbn [send_loop].
    assert (Hrb : len (rand_Read rnd (s_pos st) bb) = pktSize cfg - 6)
      by (unfold len in *; rewrite length_rand_Read; exact Hbb).
    destruct (apply_frame cfg (s_pkt st) (rand_Read rnd (s_pos st) bb) Hok Hs
                ltac:(lia)) as (p' & Happ & Hok' & _ & Hlen' & _).
    rewrite Happ.
    destruct (Write (s_w st)) as [[e|] w'].
    + exists []. cbn. rewrite app_nil_r. split; [reflexivity | constructor].
    + edestruct (IH (rand_Read rnd (s_pos st) bb)) as (frames & Hsent & Hall);
        [exact Hrb | | ].
      2:{ rewrite Hsent. cbn [s_sent]. rewrite <- app_assoc.
          eexists. split; [reflexivity|].
          constructor; [exact Hlen' | exact Hall]. }
      exact Hok'.
Qed.

(** Apart from the handshake token, every datagram [upload] writes has
    [pktSize] bytes. *)
Lemma upload_sent (cfg : config)
    (rnd : nat -> byte) (sendInterval : Z) (w : list (option error)) :
  0 <= pktSize cfg < 2 ^ 63 ->
  exists hs frames,
    sent_datagrams (upload cfg rnd sendInterval w) = hs ++ frames /\
    (hs = [start] \/ hs = []) /\
    Forall (fun d => len d = pktSize cfg) frames.
Proof.
  intros Hs. unfold upload.
  rewrite int_wrap_small by (unfold is_int; solve_len).
  destruct (Z.lt_ge_cases (pktSize cfg - pktInfSize) 0) as [Hneg|Hpos].
  { unfold make. destruct (Z.ltb_spec (pktSize cfg - pktInfSize) 0); [|lia].
    exists [], []. split; [reflexivity|]. split; [right; reflexivity | constructor]. }
  rewrite make_ok by exact Hpos.
  destruct (Write w) as [err w'].
  destruct (ep err) as [[]|msg|] eqn:Eep;
    [ | exists [], []; split; [reflexivity|]; split; [right; reflexivity | constructor]
      | exists [], []; split; [reflexivity|]; split; [right; reflexivity | constructor] ].
  set (first := match err with None => [start] | Some _ => [] end).
  assert (Hfirst : first = [start] \/ first = [])
    by (destruct err; [right|left]; reflexivity).
  destruct (NewTicker sendInterval) as [[]|msg|];
    [ | exists first, []; rewrite app_nil_r; split; [reflexivity|];
        split; [exact Hfirst | constructor]
      | exists first, []; rewrite app_nil_r; split; [reflexivity|];
        split; [exact Hfirst | constructor] ].
  destruct (send_loop_sent cfg rnd (Z.to_nat (pktCount cfg)) Hs
              (replicate (Z.to_nat (pktSize cfg - pktInfSize)) x00)
              (SState 0 paket_zero [] 0 w' first))
    as (frames & Hsent & Hall).
  { solve_len. }
  { reflexivity. }
  destruct (send_loop cfg rnd _ _ _) as [st e]. cbn [fst] in Hsent.
  exists first, frames.
  split; [destruct e; exact Hsent|].
  split; [exact Hfirst | exact Hall].
Qed.

(** C10.  Whatever the length of the payload handed to [apply] (up to
    [pktSize - 6]), the datagram [writeTo] emits is the whole frame buffer,
    [pktSize] bytes: the frame of the payload followed by what the buffer
    held from byte [6 + len(payload)] on; its parsing can only succeed when
    the payload has exactly [pktSize - 6] bytes.  Accordingly every datagram
    [upload] writes after the handshake token has [pktSize] bytes, whatever
    the send interval and the failures of the writes. *)
Theorem sent_datagram_is_whole_buffer (cfg : config) :
  0 <= pktSize cfg < 2 ^ 63 ->
  (forall (p : paket) (b : list byte),
     paket_ok cfg p ->
     len b <= pktSize cfg - 6 ->
     exists p',
       apply cfg p b = Ok p' /\
       len (writeTo p') = pktSize cfg /\
       writeTo p' = frame (p_no p') b ++ drop (6 + length b) (buf_or_fresh cfg p) /\
       len (drop (6 + length b) (buf_or_fresh cfg p)) = pktSize cfg - 6 - len b /\
       forall r, decode (writeTo p') = Ok r -> len b = pktSize cfg - 6) /\
  (forall (rnd : nat -> byte) (sendInterval : Z) (w : list (option error)),
     exists hs frames,
       sent_datagrams (upload cfg rnd sendInterval w) = hs ++ frames /\
       (hs = [start] \/ hs = []) /\
       Forall (fun d => len d = pktSize cfg) frames).
Proof.
  intros Hs. split.
  - intros p b Hok Hlen.
    pose proof (len_nonneg b) as Hb.
    pose proof (len_buf_or_fresh cfg p ltac:(lia) Hok) as Hbuf.
    destruct (apply_frame cfg p b Hok Hs Hlen) as (p' & Happ & _ & _ & Hl & Hw).
    exists p'. split; [exact Happ|]. split; [exact Hl|]. split; [exact Hw|].
    split; [solve_len|].
    intros r Hr. rewrite Hw in Hr.
    destruct (decide (drop (6 + length b) (buf_or_fresh cfg p) = [])) as [E|E].
    + apply (f_equal length) in E. rewrite length_drop in E.
      cbn [length] in E. unfold len in *. lia.
    + rewrite decode_frame_residue_fails in Hr by exact E. discriminate.
  - intros rnd sendInterval w. apply upload_sent. exact Hs.
Qed.

Lemma sent_datagram_is_whole_buffer_witness :
  0 <= pktSize (Config 8 2 false) < 2 ^ 63 /\
  paket_ok (Config 8 2 false) paket_zero /\
  len [x41] <= pktSize (Config 8 2 false) - 6 /\
  exists p',
    apply (Config 8 2 false) paket_zero [x41] = Ok p' /\
    len (writeTo p') = pktSize (Config 8 2 false) /\
    writeTo p' = frame (p_no p') [x41]
                   ++ drop (6 + length [x41]) (buf_or_fresh (Config 8 2 false) paket_zero) /\
    len (drop (6 + length [x41]) (buf_or_fresh (Config 8 2 false) paket_zero))
    = pktSize (Config 8 2 false) - 6 - len [x41] /\
    forall r, decode (writeTo p') = Ok r -> len [x41] = pktSize (Config 8 2 false) - 6.
Proof.
  assert (H0 : 0 <= pktSize (Config 8 2 false) < 2 ^ 63) by (simpl; lia).
  assert (H1 : len [x41] <= pktSize (Config 8 2 false) - 6) by (unfold len; simpl; lia).
  split; [exact H0|]. split; [reflexivity|]. split; [exact H1|].
  exact (proj1 (sent_datagram_is_whole_buffer (Config 8 2 false) H0)
           paket_zero [x41] eq_refl H1).
Defined.

(** ** The receive loop: what every run has in common *)

Lemma save_off (cfg : config) (s : store) (p : paket) :
  useMem cfg = false -> save cfg s p = Ok s.
Proof. intros H. unfold save. rewrite H. reflexivity. Qed.

Lemma Forall_order_check (no cur : Z) :
  Forall (fun l => is_wrong_order l = true) (order_check no cur).
Proof.
  unfold order_check. destruct (no >=? cur); repeat constructor.
Qed.

(** The loop only ever prints ordering anomalies, counts one frame per
    completed iteration, and can only end early. *)
Lemma recv_loop_shape (cfg : config) (n : nat) :
  forall (st st' : rstate) (e : ending),
    recv_loop cfg n st = (st', e) ->
    (exists ws, r_out st' = r_out st ++ ws
                /\ Forall (fun l => is_wrong_order l = true) ws) /\
    match e with
    | Completed => r_i st' = r_i st + Z.of_nat n
    | _ => r_i st <= r_i st' < r_i st + Z.of_nat n
    end.
Proof.
  induction n as [|n IH]; intros st st' e Hrun.
  - cbn in Hrun. inversion Hrun; subst. split.
    + exists []. rewrite app_nil_r. split; [reflexivity | constructor].
    + lia.
  - cbn [recv_loop] in Hrun.
    destruct (readFrom cfg (r_pkt st) (r_con st)) as [[[pkt con] [err|]]|v|].
    + inversion Hrun; subst. cbn. split; [|lia].
      exists []. rewrite app_nil_r. split; [reflexivity | constructor].
    + destruct (save cfg (r_s st) pkt) as [s|v|].
      * apply IH in Hrun. cbn [r_out r_i] in Hrun.
        destruct Hrun as [(ws & Hout & Hws) Hi]. split.
        -- exists (order_check (r_no st) (p_no pkt) ++ ws).
           rewrite Hout, <- app_assoc. split; [reflexivity|].
           apply Forall_app. split; [apply Forall_order_check | exact Hws].
        -- destruct e; lia.
      * inversion Hrun; subst. cbn. split; [|lia].
        eexists. split; [reflexivity | apply Forall_order_check].
      * inversion Hrun; subst. cbn. split; [|lia].
        eexists. split; [reflexivity | apply Forall_order_check].
    + inversion Hrun; subst. split; [|lia].
      exists []. rewrite app_nil_r. split; [reflexivity | constructor].
    + inversion Hrun; subst. split; [|lia].
      exists []. rewrite app_nil_r. split; [reflexivity | constructor].
Qed.

Lemma recv_loop_store_off (cfg : config) (n : nat) :
  useMem cfg = false ->
  forall (st st' : rstate) (e : ending),
    recv_loop cfg n st = (st', e) -> r_s st' = r_s st.
Proof.
  intros Hoff. induction n as [|n IH]; intros st st' e Hrun.
  - cbn in Hrun. inversion Hrun; subst. reflexivity.
  - cbn [recv_loop] in Hrun.
    destruct (readFrom cfg (r_pkt st) (r_con st)) as [[[pkt con] [err|]]|v|];
      try (inversion Hrun; subst; reflexivity).
    rewrite save_off in Hrun by exact Hoff.
    apply IH in Hrun. exact Hrun.
Qed.

(** ** [serve]: the handshake *)

(** The buffer of five zero bytes after a read of the datagram [d]. *)
Lemma first_read_model (d : list byte) :
  take (Z.to_nat (Z.min (len d) 5)) d
    ++ drop (Z.to_nat (Z.min (len d) 5)) (replicate 5 x00)
  = first_read d.
Proof.
  unfold first_read.
  destruct (decide (length d <= 5)%nat) as [Hle|Hgt].
  - replace (Z.to_nat (Z.min (len d) 5)) with (length d) by (unfold len; lia).
    rewrite !take_ge by lia. f_equal.
    rewrite drop_replicate. reflexivity.
  - replace (Z.to_nat (Z.min (len d) 5)) with 5%nat by (unfold len; lia).
    rewrite drop_replicate.
    replace (5 - length d)%nat with 0%nat by lia. reflexivity.
Qed.

(** [serve] once the first datagram has arrived. *)
Lemma serve_first_read (cfg : config) (dl : bool)
    (d : list byte) (a : Addr) (err : option error) (evs : list event) :
  serve cfg (Conn dl (Recv d a err :: evs))
  = match ep err with
    | Ok _ =>
        if negb (bytes_Equal (first_read d) start)
        then Run ([LWaiting] ++ report cfg 0) 0 None
               (Aborted (PanicMsg ("unexpected first bytes: "
                           ++ string_of_list_byte (first_read d) ++ String "010" "")%string))
        else
          after_loop cfg
            (recv_loop cfg (Z.to_nat (pktCount cfg))
               (RState 0 0 paket_zero None (Conn false evs) [LWaiting; LReceivedStart]))
    | Panic v => Run ([LWaiting] ++ report cfg 0) 0 None (Aborted v)
    | Blocked => Run [LWaiting] 0 None Waiting
    end.
Proof. rewrite <- first_read_model. reflexivity. Qed.

(** The first read has no deadline: a silent period before the handshake
    changes nothing, and with nothing to come the receiver waits for ever. *)
Lemma serve_quiet (cfg : config) (dl : bool)
    (evs : list event) :
  serve cfg (Conn dl (Quiet :: evs)) = serve cfg (Conn dl evs).
Proof. reflexivity. Qed.

Lemma serve_silence (cfg : config) (dl : bool) :
  serve cfg (Conn dl []) = Run [LWaiting] 0 None Waiting.
Proof. reflexivity. Qed.

(** ** The reconstruction buffer *)

Lemma length_write_at (b : list byte) (off : nat) (src : list byte) :
  (off <= length b)%nat -> length (write_at b off src) = length b.
Proof.
  intros H. unfold write_at.
  rewrite length_app, length_take, length_copy, length_drop. lia.
Qed.

(** [write_at], byte by byte. *)
Lemma lookup_write_at (b : list byte) (off : nat) (src : list byte) (i : nat) :
  (off <= length b)%nat ->
  write_at b off src !! i
  = if decide (off <= i /\ i < off + length src /\ i < length b)%nat
    then src !! (i - off)%nat
    else b !! i.
Proof.
  intros Hoff. unfold write_at, copy.
  destruct (decide (i < off)%nat) as [Hlt|Hge].
  - rewrite lookup_app_l by (rewrite length_take; lia).
    rewrite lookup_take_lt by lia.
    destruct (decide _) as [H|H]; [lia | reflexivity].
  - rewrite lookup_app_r by (rewrite length_take; lia).
    rewrite length_take, length_drop.
    replace (i - off `min` length b)%nat with (i - off)%nat by lia.
    destruct (decide (i - off < (length b - off) `min` length src)%nat) as [Hin|Hout].
    + rewrite lookup_app_l by (rewrite length_take; lia).
      rewrite lookup_take_lt by lia.
      destruct (decide _) as [H|H]; [reflexivity | lia].
    + rewrite lookup_app_r by (rewrite length_take; lia).
      rewrite length_take, !lookup_drop.
      destruct (decide _) as [H|H]; [lia|].
      destruct (decide (length src <= length b - off)%nat) as [Hfit|Hcut].
      * f_equal. lia.
      * rewrite !lookup_ge_None_2 by lia. reflexivity.
Qed.

Lemma write_at_idem (b : list byte) (off : nat) (src : list byte) :
  (off <= length b)%nat ->
  write_at (write_at b off src) off src = write_at b off src.
Proof.
  intros Hoff. apply list_eq. intros i.
  rewrite lookup_write_at by (rewrite length_write_at; lia).
  rewrite length_write_at by lia.
  rewrite lookup_write_at by lia.
  destruct (decide _); reflexivity.
Qed.

Lemma write_at_comm (b : list byte) (o1 o2 : nat) (d1 d2 : list byte) :
  (o1 <= length b)%nat -> (o2 <= length b)%nat ->
  (o1 + length d1 <= o2 \/ o2 + length d2 <= o1)%nat ->
  write_at (write_at b o1 d1) o2 d2 = write_at (write_at b o2 d2) o1 d1.
Proof.
  intros H1 H2 Hdisj. apply list_eq. intros i.
  rewrite !lookup_write_at by (rewrite ?length_write_at; lia).
  rewrite !length_write_at by lia.
  repeat destruct (decide _); try reflexivity; lia.
Qed.

Lemma write_at_fits (b : list byte) (off : nat) (src : list byte) :
  (off + length src <= length b)%nat -> write_at b off src = overwrite b off src.
Proof.
  intros H. unfold write_at, overwrite.
  rewrite copy_fits by (rewrite length_drop; lia).
  rewrite drop_drop. reflexivity.
Qed.

Lemma with_slice_from_write (b : list byte) (off : Z) (src : list byte) :
  with_slice_from b off (fun d => mret (copy d src))
  = if (0 <=? off) && (off <=? len b) then Ok (write_at b (Z.to_nat off) src)
    else Panic (RuntimeError "slice bounds out of range").
Proof.
  unfold with_slice_from, slice_from.
  destruct ((0 <=? off) && (off <=? len b)); reflexivity.
Qed.

(** [save], with buffering on, as one allocation and one write. *)
Lemma save_on (cfg : config) (s : store) (p : paket) :
  useMem cfg = true ->
  save cfg s p
  = (b ← match s with
         | None => make (int_wrap (int_wrap (pktSize cfg - pktInfSize) * pktCount cfg))
         | Some b => Ok b
         end;
     let off := int_wrap (u16 (p_no p - 1) * int_wrap (pktSize cfg - pktInfSize)) in
     if (0 <=? off) && (off <=? len b)
     then Ok (Some (write_at b (Z.to_nat off) (p_data p)))
     else Panic (RuntimeError "slice bounds out of range")).
Proof.
  intros Hon. unfold save. rewrite Hon. cbn [negb].
  assert (H : forall b0 : list byte,
             (b' ← with_slice_from b0
                     (int_wrap (u16 (p_no p - 1) * int_wrap (pktSize cfg - pktInfSize)))
                     (fun d => mret (copy d (p_data p)));
              mret (Some b'))
             = let off := int_wrap (u16 (p_no p - 1) * int_wrap (pktSize cfg - pktInfSize)) in
               if (0 <=? off) && (off <=? len b0)
               then Ok (Some (write_at b0 (Z.to_nat off) (p_data p)))
               else Panic (RuntimeError "slice bounds out of range")).
  { intros b0. rewrite with_slice_from_write. cbv zeta.
    destruct ((0 <=? _) && (_ <=? len b0)); reflexivity. }
  destruct s as [b|]; [apply H|].
  destruct (make _) as [b|v|]; [apply H | reflexivity | reflexivity].
Qed.

Lemma bind_Ok {A B : Type} (a : A) (f : A -> result B) : (Ok a ≫= f) = f a.
Proof. reflexivity. Qed.

Lemma capacity_wrap (cfg : config) :
  sizes_fit cfg -> int_wrap (pktSize cfg - pktInfSize) = capacity cfg.
Proof.
  unfold sizes_fit, capacity. intros (H0 & _ & _ & H1).
  change pktInfSize with 6.
  apply int_wrap_small. unfold is_int. lia.
Qed.

Lemma offset_wrap (cfg : config) (no : Z) :
  sizes_fit cfg ->
  int_wrap (u16 (no - 1) * capacity cfg) = u16 (no - 1) * capacity cfg
  /\ 0 <= u16 (no - 1) * capacity cfg.
Proof.
  unfold sizes_fit. intros (H0 & _ & _ & H1).
  pose proof (u16_range (no - 1)) as Hr.
  assert (0 <= u16 (no - 1) * capacity cfg <= 65535 * capacity cfg) by nia.
  split; [|lia]. apply int_wrap_small. unfold is_int. lia.
Qed.

Lemma u16_pred_inj (n1 n2 : Z) :
  0 <= n1 < 65536 -> 0 <= n2 < 65536 ->
  u16 (n1 - 1) = u16 (n2 - 1) -> n1 = n2.
Proof.
  intros H1 H2 E.
  rewrite <- (u16_pred_succ n1 H1), <- (u16_pred_succ n2 H2), E. reflexivity.
Qed.

(** Saving the same frame twice is saving it once. *)
Lemma save_idem (cfg : config) (s : store) (p : paket) :
  (s' ← save cfg s p; save cfg s' p) = save cfg s p.
Proof.
  destruct (useMem cfg) eqn:Hmem.
  2:{ rewrite !save_off by exact Hmem. cbn. apply save_off. exact Hmem. }
  rewrite (save_on cfg s p Hmem).
  set (off := int_wrap (u16 (p_no p - 1) * int_wrap (pktSize cfg - pktInfSize))).
  destruct (match s with
            | None => make (int_wrap (int_wrap (pktSize cfg - pktInfSize) * pktCount cfg))
            | Some b => Ok b
            end) as [b|v|]; [|reflexivity|reflexivity].
  rewrite !bind_Ok. cbv zeta.
  destruct (Z.leb_spec 0 off) as [H0|H0]; [|reflexivity].
  destruct (Z.leb_spec off (len b)) as [H1|H1]; [|reflexivity].
  cbn [andb]. rewrite bind_Ok. rewrite (save_on cfg _ p Hmem). rewrite bind_Ok.
  cbv zeta. fold off.
  assert (Hoff : (Z.to_nat off <= length b)%nat) by (unfold len in H1; lia).
  unfold len. rewrite length_write_at by exact Hoff. fold (len b).
  destruct (Z.leb_spec 0 off); [|lia].
  destruct (Z.leb_spec off (len b)); [|lia].
  cbn [andb]. rewrite write_at_idem by exact Hoff. reflexivity.
Qed.

(** Saves of frames with distinct sequence numbers commute. *)
Lemma save_comm (cfg : config) (s : store) (p1 p2 : paket) :
  sizes_fit cfg -> accepted cfg p1 -> accepted cfg p2 ->
  p_no p1 <> p_no p2 ->
  (s' ← save cfg s p1; save cfg s' p2) = (s' ← save cfg s p2; save cfg s' p1).
Proof.
  intros Hfit [Hn1 Hd1] [Hn2 Hd2] Hne.
  destruct (useMem cfg) eqn:Hmem.
  2:{ rewrite !save_off by exact Hmem. cbn. rewrite !save_off by exact Hmem.
      reflexivity. }
  rewrite (save_on cfg s p1 Hmem), (save_on cfg s p2 Hmem).
  rewrite !capacity_wrap by exact Hfit.
  destruct (offset_wrap cfg (p_no p1) Hfit) as [-> Ho1].
  destruct (offset_wrap cfg (p_no p2) Hfit) as [-> Ho2].
  set (o1 := u16 (p_no p1 - 1) * capacity cfg) in *.
  set (o2 := u16 (p_no p2 - 1) * capacity cfg) in *.
  assert (Hm : u16 (p_no p1 - 1) <> u16 (p_no p2 - 1))
    by (intros E; apply Hne; apply u16_pred_inj; assumption).
  assert (Hsep : o1 + capacity cfg <= o2 \/ o2 + capacity cfg <= o1).
  { unfold o1, o2. destruct Hfit as (Hc & _). nia. }
  destruct (match s with
            | None => make (int_wrap (capacity cfg * pktCount cfg))
            | Some b => Ok b
            end) as [b|v|]; [|reflexivity|reflexivity].
  rewrite !bind_Ok. cbv zeta.
  assert (Hsave : forall (b' : list byte) (p : paket) (o : Z),
             o = u16 (p_no p - 1) * capacity cfg ->
             save cfg (Some b') p
             = if (0 <=? o) && (o <=? len b')
               then Ok (Some (write_at b' (Z.to_nat o) (p_data p)))
               else Panic (RuntimeError "slice bounds out of range")).
  { intros b' p o ->. rewrite (save_on cfg _ p Hmem).
    rewrite !capacity_wrap by exact Hfit.
    destruct (offset_wrap cfg (p_no p) Hfit) as [-> _]. reflexivity. }
  pose proof (len_nonneg (p_data p1)) as Hl1.
  pose proof (len_nonneg (p_data p2)) as Hl2.
  destruct (Z.leb_spec 0 o1); [|lia]. destruct (Z.leb_spec 0 o2); [|lia].
  cbn [andb].
  destruct (Z.leb_spec o1 (len b)) as [H1|H1];
    destruct (Z.leb_spec o2 (len b)) as [H2|H2].
  - rewrite !bind_Ok. rewrite (Hsave _ p2 o2 eq_refl), (Hsave _ p1 o1 eq_refl).
    unfold len in *. rewrite !length_write_at by lia.
    destruct (Z.leb_spec 0 o1); [|lia]. destruct (Z.leb_spec 0 o2); [|lia].
    destruct (Z.leb_spec o1 (Z.of_nat (length b))); [|lia].
    destruct (Z.leb_spec o2 (Z.of_nat (length b))); [|lia].
    cbn [andb]. rewrite write_at_comm by lia. reflexivity.
  - rewrite !bind_Ok. rewrite (Hsave _ p2 o2 eq_refl).
    unfold len in *. rewrite !length_write_at by lia.
    destruct (Z.leb_spec o2 (Z.of_nat (length b))); [lia|].
    rewrite andb_false_r. reflexivity.
  - rewrite !bind_Ok. rewrite (Hsave _ p1 o1 eq_refl).
    unfold len in *. rewrite !length_write_at by lia.
    destruct (Z.leb_spec o1 (Z.of_nat (length b))); [lia|].
    rewrite andb_false_r. reflexivity.
  - reflexivity.
Qed.

(** With buffering on, a frame whose sequence number is in [1, pktCount]
    lands at offset [(no - 1) * (pktSize - 6)]; the rest of the buffer stays. *)
Lemma save_placed (cfg : config) (s : store) (p : paket) :
  useMem cfg = true ->
  sizes_fit cfg -> store_ok cfg s -> accepted cfg p ->
  1 <= p_no p <= pktCount cfg ->
  save cfg s p
  = Ok (Some (overwrite (store_bytes cfg s)
                (Z.to_nat ((p_no p - 1) * capacity cfg)) (p_data p))).
Proof.
  intros Hmem Hfit Hs [Hno Hd] Hrange.
  rewrite (save_on cfg s p Hmem).
  rewrite !capacity_wrap by exact Hfit.
  destruct (offset_wrap cfg (p_no p) Hfit) as [-> Ho].
  rewrite (u16_small (p_no p - 1)) in * by lia.
  pose proof Hfit as (Hc & Hcnt & Hprod & _).
  pose proof (len_nonneg (p_data p)) as Hl.
  assert (Hb : (match s with
                | None => make (int_wrap (capacity cfg * pktCount cfg))
                | Some b => Ok b
                end) = Ok (store_bytes cfg s)).
  { destruct s as [b|]; [reflexivity|].
    rewrite int_wrap_small by (unfold is_int; nia).
    rewrite make_ok by nia. reflexivity. }
  rewrite Hb, bind_Ok. cbv zeta.
  assert (Hlen : len (store_bytes cfg s) = capacity cfg * pktCount cfg).
  { destruct s as [b|]; [exact Hs|].
    unfold store_bytes, len. rewrite length_replicate. nia. }
  assert (Hin : (p_no p - 1) * capacity cfg + len (p_data p) <= len (store_bytes cfg s)).
  { rewrite Hlen. nia. }
  destruct (Z.leb_spec 0 ((p_no p - 1) * capacity cfg)); [|lia].
  destruct (Z.leb_spec ((p_no p - 1) * capacity cfg) (len (store_bytes cfg s))); [|lia].
  cbn [andb]. rewrite write_at_fits by (unfold len in *; lia). reflexivity.
Qed.

Lemma save_placed_store_ok (cfg : config) (s : store) (p : paket) :
  sizes_fit cfg -> store_ok cfg s -> accepted cfg p ->
  1 <= p_no p <= pktCount cfg ->
  store_ok cfg (Some (overwrite (store_bytes cfg s)
                        (Z.to_nat ((p_no p - 1) * capacity cfg)) (p_data p))).
Proof.
  intros Hfit Hs [Hno Hd] Hrange.
  pose proof Hfit as (Hc & Hcnt & Hprod & _).
  pose proof (len_nonneg (p_data p)) as Hl.
  assert (Hlen : len (store_bytes cfg s) = capacity cfg * pktCount cfg).
  { destruct s as [b|]; [exact Hs|].
    unfold store_bytes, len. rewrite length_replicate. nia. }
  unfold store_ok, len in *. rewrite length_overwrite; [exact Hlen|]. nia.
Qed.

(** The payload can be read back from its offset. *)
Lemma overwrite_read (b : list byte) (off : nat) (src : list byte) :
  (off + length src <= length b)%nat ->
  take (length src) (drop off (overwrite b off src)) = src.
Proof.
  intros H. unfold overwrite.
  rewrite drop_app_length' by (rewrite length_take; lia).
  rewrite take_app_length. reflexivity.
Qed.

Lemma save_all_cons (cfg : config) (s : store) (p : paket) (ps : list paket) :
  save_all cfg s (p :: ps) = (s' ← save cfg s p; save_all cfg s' ps).
Proof. reflexivity. Qed.

(** The final buffer does not depend on the order of arrival. *)
Lemma save_all_perm (cfg : config) (ps ps' : list paket) :
  sizes_fit cfg ->
  Permutation ps ps' ->
  Forall (accepted cfg) ps ->
  NoDup (map p_no ps) ->
  forall s : store, save_all cfg s ps = save_all cfg s ps'.
Proof.
  intros Hfit Hperm.
  induction Hperm as [|x l l' Hp IH|x y l|l l' l'' Hp1 IH1 Hp2 IH2];
    intros Hacc Hnd s.
  - reflexivity.
  - rewrite !save_all_cons.
    apply Forall_cons in Hacc as [_ Hacc].
    cbn [map] in Hnd. apply NoDup_cons in Hnd as [_ Hnd].
    destruct (save cfg s x) as [s'|v|]; [|reflexivity|reflexivity].
    rewrite !bind_Ok. apply IH; assumption.
  - rewrite !save_all_cons.
    apply Forall_cons in Hacc as [Hy Hacc]. apply Forall_cons in Hacc as [Hx _].
    cbn [map] in Hnd. apply NoDup_cons in Hnd as [Hne _].
    assert (Hxy : p_no y <> p_no x).
    { intros E. apply Hne. rewrite E. left. }
    pose proof (save_comm cfg s y x Hfit Hy Hx Hxy) as Hc.
    destruct (save cfg s y) as [sy|vy|]; destruct (save cfg s x) as [sx|vx|];
      rewrite ?bind_Ok in *; cbn [save_all] in *;
      try (rewrite ?save_all_cons; cbn in Hc |- *;
           first [ rewrite Hc; reflexivity
                 | rewrite <- Hc; reflexivity
                 | exact Hc
                 | discriminate ]).
  - rewrite IH1 by assumption. apply IH2.
    + eapply Permutation_Forall; eassumption.
    + assert (Hm : Permutation (map p_no l) (map p_no l'))
        by (apply Permutation_map; exact Hp1).
      rewrite <- Hm. exact Hnd.
Qed.

(** C8 (as amended).  With buffering on and sizes whose products fit an
    [int]: saving an accepted frame whose sequence number is in
    [1, pktCount] succeeds and puts its payload into the reconstruction
    buffer at offset [(no - 1) * (pktSize - 6)], the other bytes staying as
    they were; saving a frame twice is saving it once; saves of accepted
    frames with distinct sequence numbers commute; and the buffer after a
    list of accepted frames with distinct sequence numbers is the same for
    every order of arrival. *)
Theorem save_offset_idempotent_commutes (cfg : config) :
  useMem cfg = true ->
  sizes_fit cfg ->
  (forall (s : store) (p : paket),
     store_ok cfg s -> accepted cfg p -> 1 <= p_no p <= pktCount cfg ->
     let off := Z.to_nat ((p_no p - 1) * capacity cfg) in
     save cfg s p = Ok (Some (overwrite (store_bytes cfg s) off (p_data p))) /\
     store_ok cfg (Some (overwrite (store_bytes cfg s) off (p_data p))) /\
     take (length (p_data p))
          (drop off (overwrite (store_bytes cfg s) off (p_data p))) = p_data p) /\
  (forall (s : store) (p : paket),
     (s' ← save cfg s p; save cfg s' p) = save cfg s p) /\
  (forall (s : store) (p1 p2 : paket),
     accepted cfg p1 -> accepted cfg p2 -> p_no p1 <> p_no p2 ->
     (s' ← save cfg s p1; save cfg s' p2) = (s' ← save cfg s p2; save cfg s' p1)) /\
  (forall (s : store) (ps ps' : list paket),
     Forall (accepted cfg) ps -> NoDup (map p_no ps) -> Permutation ps ps' ->
     save_all cfg s ps = save_all cfg s ps').
Proof.
  intros Hmem Hfit. repeat split.
  - apply save_placed; assumption.
  - apply save_placed_store_ok; assumption.
  - apply overwrite_read.
    destruct H0 as [Hno Hd]. pose proof Hfit as (Hc & Hcnt & Hprod & _).
    pose proof (len_nonneg (p_data p)).
    assert (Hlen : len (store_bytes cfg s) = capacity cfg * pktCount cfg).
    { destruct s as [b|]; [exact H|].
      unfold store_bytes, len. rewrite length_replicate. nia. }
    unfold len in *. nia.
  - apply save_idem.
  - intros. apply save_comm; assumption.
  - intros s ps ps' Hacc Hnd Hperm. apply save_all_perm; assumption.
Qed.

Lemma save_offset_idempotent_commutes_witness :
  useMem (Config 8 2 true) = true /\
  sizes_fit (Config 8 2 true) /\
  save (Config 8 2 true) None (Paket 2 2 [x41; x42] None None)
  = Ok (Some [x00; x00; x41; x42]) /\
  save_all (Config 8 2 true) None
    [Paket 2 2 [x41; x42] None None; Paket 1 2 [x43; x44] None None]
  = save_all (Config 8 2 true) None
      [Paket 1 2 [x43; x44] None None; Paket 2 2 [x41; x42] None None].
Proof.
  assert (Hfit : sizes_fit (Config 8 2 true)).
  { unfold sizes_fit, capacity. simpl. lia. }
  assert (Hacc : forall k d, 0 <= k < 65536 -> (length d <= 2)%nat ->
                   accepted (Config 8 2 true) (Paket k 2 d None None)).
  { intros k d Hk Hd. unfold accepted, capacity, len. simpl. lia. }
  destruct (save_offset_idempotent_commutes (Config 8 2 true) eq_refl Hfit)
    as (Hplace & _ & _ & Hperm).
  split; [reflexivity|]. split; [exact Hfit|]. split.
  - apply (Hplace None (Paket 2 2 [x41; x42] None None)).
    + exact I.
    + apply Hacc; simpl; lia.
    + simpl. lia.
  - apply Hperm.
    + repeat constructor; apply Hacc; simpl; lia.
    + cbn [map p_no]. apply NoDup_cons. split.
      * intros Hin. apply list_elem_of_singleton in Hin. discriminate.
      * apply NoDup_singleton.
    + apply perm_swap.
Defined.

(** C8, as stated, fails for accepted frames whose sequence number lies
    outside [1, pktCount]: with two slots of two bytes, the frame numbered 3
    is saved without a panic and without a byte of it reaching the buffer,
    and the frame numbered 4 aborts the run.  A run that receives the frames
    numbered 3 and 1 completes with only the payload of the second in its
    buffer. *)
Lemma save_beyond_count :
  accepted (Config 8 2 true) (Paket 3 2 [x41; x42] None None) /\
  save (Config 8 2 true) None (Paket 3 2 [x41; x42] None None)
  = Ok (Some [x00; x00; x00; x00]) /\
  save (Config 8 2 true) None (Paket 4 2 [x41; x42] None None)
  = Panic (RuntimeError "slice bounds out of range") /\
  serve (Config 8 2 true)
    (Conn false [Recv start None None; Recv (frame 3 [x41; x42]) None None;
                 Recv (frame 1 [x43; x44]) None None])
  = Run [LWaiting; LReceivedStart; LWrongOrder 3 1;
         LCheckSum (fmt_x (md5_sum [x43; x44; x00; x00])); LTotalReceived 2]
      2 (Some [x43; x44; x00; x00]) Completed.
Proof.
  split; [|split; [reflexivity|split; [reflexivity|vm_compute; reflexivity]]].
  unfold accepted, capacity, len. simpl. lia.
Qed.

(** ** The receive loop on a stream of frames *)

Lemma order_check_in_order (no cur : Z) :
  order_check no cur = if in_order no cur then [] else [LWrongOrder no cur].
Proof.
  unfold order_check, in_order. rewrite Z.geb_leb.
  destruct (Z.leb_spec cur no); destruct (Z.ltb_spec no cur); try lia; reflexivity.
Qed.

(** One accepted frame: the loop body runs to its end. *)
Lemma recv_loop_accept (cfg : config) (n : nat) (st : rstate) (dl : bool)
    (d : list byte) (a : Addr) (err : option error) (evs : list event)
    (k sz : Z) (data : list byte) (s' : store) :
  0 <= pktSize cfg -> paket_ok cfg (r_pkt st) ->
  r_con st = Conn dl (Recv d a err :: evs) ->
  is_deadline err = false -> ep err = Ok tt ->
  decode (take (Z.to_nat (Z.min (len d) (pktSize cfg))) d) = Ok (k, sz, data) ->
  let n' := Z.to_nat (Z.min (len d) (pktSize cfg)) in
  let pkt := Paket k sz data
               (Some (take n' d ++ drop n' (buf_or_fresh cfg (r_pkt st)))) a in
  save cfg (r_s st) pkt = Ok s' ->
  recv_loop cfg (S n) st
  = recv_loop cfg n
      (RState (r_i st + 1) k pkt s' (Conn true evs)
         (r_out st ++ (if in_order (r_no st) k then [] else [LWrongOrder (r_no st) k]))).
Proof.
  intros Hs Hok Hcon Hdl Hep Hdec n' pkt Hsave. subst n' pkt.
  cbn [recv_loop]. rewrite Hcon, readFrom_recv by assumption.
  cbv zeta. rewrite Hdl, Hep, bind_Ok. rewrite Hdec, bind_Ok.
  cbn [mret result_ret p_no]. rewrite Hsave.
  rewrite order_check_in_order. reflexivity.
Qed.

Lemma paket_ok_received (cfg : config) (q : paket) (d : list byte)
    (k sz : Z) (data : list byte) (a : Addr) :
  0 <= pktSize cfg -> paket_ok cfg q ->
  let n' := Z.to_nat (Z.min (len d) (pktSize cfg)) in
  paket_ok cfg (Paket k sz data (Some (take n' d ++ drop n' (buf_or_fresh cfg q))) a).
Proof.
  intros Hs Hok n'.
  pose proof (len_buf_or_fresh cfg q Hs Hok) as Hbuf.
  pose proof (len_nonneg d).
  unfold paket_ok. cbn [p_buf]. subst n'. solve_len.
Qed.

Lemma save_succeeds (cfg : config) (s : store) (p : paket) :
  saves_ok cfg [p_no p] -> store_ok cfg s -> accepted cfg p ->
  exists s', save cfg s p = Ok s' /\ store_ok cfg s'.
Proof.
  intros [Hoff|[Hfit Hk]] Hs Hacc.
  - exists s. split; [apply save_off; exact Hoff | exact Hs].
  - apply Forall_cons in Hk as [Hk _].
    destruct (useMem cfg) eqn:Hmem.
    + eexists. split; [apply save_placed; assumption|].
      apply save_placed_store_ok; assumption.
    + exists s. split; [apply save_off; exact Hmem | exact Hs].
Qed.

Lemma saves_ok_cons (cfg : config) (k : Z) (ks : list Z) :
  saves_ok cfg (k :: ks) -> saves_ok cfg [k] /\ saves_ok cfg ks.
Proof.
  intros [Hoff|[Hfit Hall]].
  - split; left; exact Hoff.
  - apply Forall_cons in Hall as [Hk Hks].
    split; right; (split; [exact Hfit|]).
    + constructor; [exact Hk | constructor].
    + exact Hks.
Qed.

Lemma last_seen_cons (last k : Z) (ks : list Z) :
  last_seen last (k :: ks) = last_seen k ks.
Proof.
  unfold last_seen. revert last k. induction ks as [|k' ks IH]; intros last k.
  - reflexivity.
  - change (List.last (k :: k' :: ks) last) with (List.last (k' :: ks) last).
    rewrite (IH last k'), (IH k k'). reflexivity.
Qed.

Lemma save_ext (cfg : config) (s : store) (p q : paket) :
  p_no p = p_no q -> p_data p = p_data q -> save cfg s p = save cfg s q.
Proof. intros Hno Hdata. unfold save. rewrite Hno, Hdata. reflexivity. Qed.

(** A stream of decodable frames: the loop consumes them all, counts each,
    keeps the last sequence number and prints the anomalies of the stream. *)
Lemma recv_loop_feed (cfg : config) (a : Addr) (fs : list (Z * list byte)) :
  0 <= pktSize cfg ->
  forall (n : nat) (st : rstate) (dl : bool) (evs : list event),
    paket_ok cfg (r_pkt st) -> store_ok cfg (r_s st) ->
    Forall (fits cfg) fs -> saves_ok cfg (map fst fs) ->
    r_con st = Conn dl (arrivals a fs ++ evs) ->
    exists (pkt : paket) (s : store),
      paket_ok cfg pkt /\ store_ok cfg s /\
      stored cfg (r_s st) fs = Ok s /\
      recv_loop cfg (length fs + n) st
      = recv_loop cfg n
          (RState (r_i st + len fs) (last_seen (r_no st) (map fst fs)) pkt s
             (Conn (match fs with [] => dl | _ => true end) evs)
             (r_out st ++ anomalies (r_no st) (map fst fs))).
Proof.
  intros Hs. induction fs as [|[k d] fs IH]; intros n st dl evs Hok Hst Hfits Hsaves Hcon.
  - exists (r_pkt st), (r_s st). split; [exact Hok|]. split; [exact Hst|].
    split; [reflexivity|].
    cbn [length Nat.add map anomalies last_seen List.last].
    change (len (@nil (Z * list byte))) with 0.
    rewrite Z.add_0_r, app_nil_r.
    destruct st as [i no pkt s con out]. cbn [r_i r_no r_pkt r_s r_con r_out] in *.
    rewrite Hcon. reflexivity.
  - apply Forall_cons in Hfits as [(Hk & Hd & Hd') Hfits].
    cbn [fst snd] in Hk, Hd, Hd'.
    cbn [map fst] in Hsaves. apply saves_ok_cons in Hsaves as [Hsk Hsaves].
    pose proof (len_nonneg d) as Hd0.
    assert (Hfl : len (frame k d) = len d + 6) by (unfold frame; solve_len).
    assert (Hn : Z.to_nat (Z.min (len (frame k d)) (pktSize cfg)) = length (frame k d))
      by (unfold len in *; lia).
    assert (Hdec : decode (take (Z.to_nat (Z.min (len (frame k d)) (pktSize cfg)))
                             (frame k d)) = Ok (k, len d, d)).
    { rewrite Hn, take_ge by lia. apply decode_frame; assumption. }
    set (pkt := Paket k (len d) d
                  (Some (take (Z.to_nat (Z.min (len (frame k d)) (pktSize cfg))) (frame k d)
                         ++ drop (Z.to_nat (Z.min (len (frame k d)) (pktSize cfg)))
                              (buf_or_fresh cfg (r_pkt st)))) a).
    destruct (save_succeeds cfg (r_s st) pkt) as (s' & Hsave & Hst').
    { exact Hsk. }
    { exact Hst. }
    { unfold accepted, capacity. cbn [p_no p_data pkt]. lia. }
    cbn [length Nat.add].
    rewrite (recv_loop_accept cfg (length fs + n) st dl (frame k d) a None
               (arrivals a fs ++ evs) k (len d) d s' Hs Hok Hcon eq_refl eq_refl Hdec Hsave).
    fold pkt.
    edestruct (IH n (RState (r_i st + 1) k pkt s' (Conn true (arrivals a fs ++ evs))
                      (r_out st ++ (if in_order (r_no st) k then [] else [LWrongOrder (r_no st) k]))))
      as (pkt' & s'' & Hok' & Hst'' & Hstored & Hrun).
    { apply paket_ok_received; assumption. }
    { exact Hst'. }
    { exact Hfits. }
    { exact Hsaves. }
    { reflexivity. }
    exists pkt', s''. split; [exact Hok'|]. split; [exact Hst''|].
    split.
    { unfold stored in *. cbn [map]. rewrite save_all_cons.
      rewrite (save_ext cfg (r_s st) (as_paket (k, d)) pkt eq_refl eq_refl).
      rewrite Hsave, bind_Ok. exact Hstored. }
    rewrite Hrun. cbn [r_i r_no r_out map fst anomalies].
    f_equal. f_equal.
    + unfold len. cbn [length]. lia.
    + symmetry. apply last_seen_cons.
    + destruct fs; reflexivity.
    + rewrite <- app_assoc. reflexivity.
Qed.

(** ** [serve] as a whole *)

Lemma report_no_order_lines (cfg : config) (i : Z) :
  List.filter is_wrong_order (report cfg i) = [].
Proof. unfold report. destruct (negb (i =? pktCount cfg)); reflexivity. Qed.

Lemma report_no_digest (cfg : config) (i : Z) :
  List.filter is_check_sum (report cfg i) = [].
Proof. unfold report. destruct (negb (i =? pktCount cfg)); reflexivity. Qed.

Lemma filter_all {A : Type} (f : A -> bool) (l : list A) :
  Forall (fun x => f x = true) l -> List.filter f l = l.
Proof.
  induction 1 as [|x l Hx _ IH]; [reflexivity|].
  cbn. rewrite Hx, IH. reflexivity.
Qed.

Lemma filter_none {A : Type} (f : A -> bool) (l : list A) :
  Forall (fun x => f x = false) l -> List.filter f l = [].
Proof.
  induction 1 as [|x l Hx _ IH]; [reflexivity|].
  cbn. rewrite Hx, IH. reflexivity.
Qed.

Lemma order_lines_no_digest (ws : list line) :
  Forall (fun l => is_wrong_order l = true) ws -> List.filter is_check_sum ws = [].
Proof.
  intros H. apply filter_none.
  eapply Forall_impl; [exact H|].
  intros [] Hl; try discriminate; reflexivity.
Qed.

(** The deferred report with the arithmetic of its [int]s done. *)
Lemma report_eq (cfg : config) (i : Z) :
  is_int (pktCount cfg) -> 0 <= i <= Z.max 0 (pktCount cfg) ->
  report cfg i
  = LTotalReceived i ::
    (if i =? pktCount cfg then []
     else [LLoss (pktCount cfg - i)
             (float64 (pktCount cfg - i) / float64 (pktCount cfg) * 100)%float]).
Proof.
  intros Hint Hi. unfold report.
  rewrite int_wrap_small by (unfold is_int in *; lia).
  destruct (i =? pktCount cfg); reflexivity.
Qed.

(** Every run of [serve] either waits for ever for the handshake, or aborts
    at the handshake with nothing received, or goes through the loop. *)
Lemma serve_cases (cfg : config) (con : conn) :
  serve cfg con = Run [LWaiting] 0 None Waiting \/
  (exists v, serve cfg con = Run ([LWaiting] ++ report cfg 0) 0 None (Aborted v)) \/
  (exists evs,
     serve cfg con
     = after_loop cfg
         (recv_loop cfg (Z.to_nat (pktCount cfg))
            (RState 0 0 paket_zero None (Conn false evs) [LWaiting; LReceivedStart]))).
Proof.
  destruct con as [dl evs].
  induction evs as [|[d a err|] evs IH].
  - left. apply serve_silence.
  - rewrite serve_first_read.
    destruct (ep err) as [[]|v|].
    + destruct (negb (bytes_Equal (first_read d) start)).
      * right. left. eexists. reflexivity.
      * right. right. exists evs. reflexivity.
    + right. left. eexists. reflexivity.
    + left. reflexivity.
  - rewrite serve_quiet. exact IH.
Qed.

(** How a run ends decides what it prints: the two opening lines, the
    ordering anomalies, the digest after a loop that ran all its iterations
    and only then, and the deferred report of what was received. *)
Lemma serve_summary (cfg : config) (con : conn) :
  let r := serve cfg con in
  0 <= run_i r <= Z.max 0 (pktCount cfg) /\
  match run_end r with
  | Waiting => True
  | Completed =>
      run_i r = Z.max 0 (pktCount cfg) /\
      exists ws, Forall (fun l => is_wrong_order l = true) ws /\
        run_out r = [LWaiting; LReceivedStart] ++ ws
                      ++ [LCheckSum (checkSum (run_s r))] ++ report cfg (run_i r)
  | TimedOut =>
      run_i r < pktCount cfg /\
      exists ws, Forall (fun l => is_wrong_order l = true) ws /\
        run_out r = [LWaiting; LReceivedStart] ++ ws ++ report cfg (run_i r)
  | Aborted _ =>
      exists pre, List.filter is_check_sum pre = [] /\
        run_out r = pre ++ report cfg (run_i r)
  end.
Proof.
  cbv zeta.
  destruct (serve_cases cfg con) as [E|[[v E]|[evs E]]]; rewrite E; clear E.
  - cbn. lia.
  - cbn [run_i run_end run_out]. split; [lia|].
    exists [LWaiting]. split; reflexivity.
  - destruct (recv_loop cfg (Z.to_nat (pktCount cfg)) _) as [st e] eqn:Hrun.
    apply recv_loop_shape in Hrun as [(ws & Hout & Hws) Hi].
    cbn [r_out r_i] in Hout, Hi.
    unfold after_loop.
    destruct e; cbn [run_i run_end run_out run_s]; (split; [lia|]).
    + split; [lia|]. exists ws. split; [exact Hws|].
      rewrite Hout. reflexivity.
    + split; [lia|]. exists ws. split; [exact Hws|].
      rewrite Hout. reflexivity.
    + exists ([LWaiting; LReceivedStart] ++ ws). split.
      * rewrite List.filter_app, (order_lines_no_digest ws Hws). reflexivity.
      * rewrite Hout. reflexivity.
    + exact I.
Qed.

(** ** How a read can end an iteration *)

Lemma recv_loop_timeout (cfg : config) (n : nat) (st : rstate) :
  0 <= pktSize cfg -> paket_ok cfg (r_pkt st) ->
  times_out (pending (r_con st)) ->
  exists pkt con,
    recv_loop cfg (S n) st
    = (RState (r_i st) (r_no st) pkt (r_s st) con (r_out st), TimedOut).
Proof.
  intros Hs Hok Hto. cbn [recv_loop].
  destruct (r_con st) as [dl [|[d a [[| |msg]|]|] evs]]; cbn [pending times_out] in Hto;
    try contradiction.
  - rewrite readFrom_silence by exact Hs. eauto.
  - rewrite readFrom_recv by assumption. cbv zeta. cbn [is_deadline]. eauto.
  - rewrite readFrom_quiet by exact Hs. eauto.
Qed.

Lemma recv_loop_error (cfg : config) (n : nat) (st : rstate) (dl : bool)
    (d : list byte) (a : Addr) (msg : string) (evs : list event) :
  0 <= pktSize cfg ->
  r_con st = Conn dl (Recv d a (Some (ErrOther msg)) :: evs) ->
  recv_loop cfg (S n) st = (st, Aborted (PanicErr (ErrOther msg))).
Proof.
  intros Hs Hcon. cbn [recv_loop]. rewrite Hcon.
  unfold readFrom. rewrite reset_ok by exact Hs. reflexivity.
Qed.

Lemma readFrom_eof (cfg : config) (q : paket) (dl : bool)
    (d : list byte) (a : Addr) (evs : list event) :
  readFrom cfg q (Conn dl (Recv d a (Some EOF) :: evs))
  = readFrom cfg q (Conn dl (Recv d a None :: evs)).
Proof.
  unfold readFrom. destruct (reset cfg q); reflexivity.
Qed.

Lemma serve_handshake_error (cfg : config) (dl : bool) (d : list byte) (a : Addr)
    (e : error) (evs : list event) :
  e <> EOF ->
  serve cfg (Conn dl (Recv d a (Some e) :: evs))
  = Run ([LWaiting] ++ report cfg 0) 0 None (Aborted (PanicErr e)).
Proof.
  intros He. rewrite serve_first_read.
  destruct e; [reflexivity | contradiction | reflexivity].
Qed.

(** C5.  A read that returns the deadline error ends the loop at once,
    with nothing counted and nothing printed by the loop; the run that ends
    this way has received fewer frames than configured and still prints the
    received count and the loss with its percentage.  Any other failed read
    is fatal, in the loop and at the handshake.  A read of the datagram
    socket that fails returns an error and no bytes: an error other than
    [io.EOF] makes [ep] panic with it, whatever comes with it; [io.EOF] is
    let pass by [ep], and with no bytes read the check of the frame length
    (of the handshake token, at the first read) panics. *)
Theorem read_timeout_ends_run_gracefully (cfg : config) :
  0 <= pktSize cfg ->
  is_int (pktCount cfg) ->
  (forall (n : nat) (st : rstate),
     paket_ok cfg (r_pkt st) ->
     times_out (pending (r_con st)) ->
     exists pkt con,
       recv_loop cfg (S n) st
       = (RState (r_i st) (r_no st) pkt (r_s st) con (r_out st), TimedOut)) /\
  (forall con : conn,
     run_end (serve cfg con) = TimedOut ->
     let i := run_i (serve cfg con) in
     0 <= i < pktCount cfg /\
     exists ws,
       Forall (fun l => is_wrong_order l = true) ws /\
       run_out (serve cfg con)
       = [LWaiting; LReceivedStart] ++ ws
           ++ [LTotalReceived i;
               LLoss (pktCount cfg - i)
                 (float64 (pktCount cfg - i) / float64 (pktCount cfg) * 100)%float]) /\
  (forall (n : nat) (st : rstate) (dl : bool) (d : list byte) (a : Addr)
          (msg : string) (evs : list event),
     r_con st = Conn dl (Recv d a (Some (ErrOther msg)) :: evs) ->
     recv_loop cfg (S n) st = (st, Aborted (PanicErr (ErrOther msg)))) /\
  (forall (n : nat) (st : rstate) (dl : bool) (a : Addr) (evs : list event),
     paket_ok cfg (r_pkt st) ->
     r_con st = Conn dl (Recv [] a (Some EOF) :: evs) ->
     recv_loop cfg (S n) st = (st, Aborted (PanicMsg "to few bytes received"))) /\
  (forall (dl : bool) (d : list byte) (a : Addr) (msg : string) (evs : list event),
     serve cfg (Conn dl (Recv d a (Some (ErrOther msg)) :: evs))
     = Run ([LWaiting] ++ report cfg 0) 0 None (Aborted (PanicErr (ErrOther msg)))) /\
  (forall (dl : bool) (a : Addr) (evs : list event),
     exists v,
       serve cfg (Conn dl (Recv [] a (Some EOF) :: evs))
       = Run ([LWaiting] ++ report cfg 0) 0 None (Aborted v)).
Proof.
  intros Hs Hint. split; [|split; [|split; [|split; [|split]]]].
  - intros n st Hok Hto. apply recv_loop_timeout; assumption.
  - intros con Hend. cbv zeta.
    pose proof (serve_summary cfg con) as [Hi Hsum]. cbv zeta in Hi, Hsum.
    rewrite Hend in Hsum. destruct Hsum as [Hlt (ws & Hws & Hout)].
    split; [lia|]. exists ws. split; [exact Hws|].
    rewrite Hout, report_eq by assumption.
    destruct (Z.eqb_spec (run_i (serve cfg con)) (pktCount cfg)); [lia | reflexivity].
  - intros n st dl d a msg evs Hcon. eapply recv_loop_error; eassumption.
  - intros n st dl a evs Hok Hcon. cbn [recv_loop].
    rewrite Hcon, readFrom_eof, readFrom_recv by assumption.
    cbv zeta. cbn [is_deadline ep]. rewrite bind_Ok, take_nil. reflexivity.
  - intros dl d a msg evs. apply serve_handshake_error. discriminate.
  - intros dl a evs. rewrite serve_first_read. eexists. reflexivity.
Qed.

Lemma read_timeout_ends_run_gracefully_witness :
  0 <= pktSize (Config 8 3 false) /\
  is_int (pktCount (Config 8 3 false)) /\
  run_end (serve (Config 8 3 false)
             (Conn false [Recv start None None; Recv (frame 1 [x41; x42]) None None; Quiet]))
  = TimedOut /\
  0 <= 1 < 3 /\
  exists ws,
    Forall (fun l => is_wrong_order l = true) ws /\
    run_out (serve (Config 8 3 false)
               (Conn false [Recv start None None; Recv (frame 1 [x41; x42]) None None; Quiet]))
    = [LWaiting; LReceivedStart] ++ ws
        ++ [LTotalReceived 1; LLoss (3 - 1) (float64 (3 - 1) / float64 3 * 100)%float].
Proof.
  assert (H0 : 0 <= pktSize (Config 8 3 false)) by (simpl; lia).
  assert (H1 : is_int (pktCount (Config 8 3 false))) by (unfold is_int; simpl; lia).
  split; [exact H0|]. split; [exact H1|]. split; [reflexivity|].
  destruct (read_timeout_ends_run_gracefully (Config 8 3 false) H0 H1)
    as (_ & Hrun & _).
  exact (Hrun (Conn false [Recv start None None; Recv (frame 1 [x41; x42]) None None; Quiet])
           eq_refl).
Defined.

(** ** The origin of a datagram *)

Lemma decode_panic (f : list byte) (v : panic) :
  decode f = Panic v ->
  v = PanicMsg "to few bytes received" \/
  v = PanicMsg "expected and received packet size are not match" \/
  v = PanicMsg "unexpected packet end" \/
  v = RuntimeError "slice bounds out of range".
Proof.
  intros H.
  destruct (Z.lt_ge_cases (len f) 6) as [Hs|Hl].
  { rewrite decode_short in H by exact Hs. inversion H. auto. }
  destruct f as [|b0 [|b1 [|b2 [|b3 rest]]]]; try (unfold len in Hl; simpl in Hl; lia).
  rewrite decode_long in H by solve_len.
  destruct (negb _) in H; [inversion H; auto|].
  destruct (negb _) in H; [inversion H; auto|].
  destruct (_ <=? _) in H; [inversion H; auto | discriminate].
Qed.

(** X1.  [readFrom] never raises the panic of its origin check, whatever
    the frame state and the socket: [reset] has set [p.from] to nil before
    the check compares it. *)
Theorem readFrom_never_peer_changed (cfg : config) (q : paket) (con : conn) :
  readFrom cfg q con <> Panic (PanicMsg "remote address changed").
Proof.
  unfold readFrom, reset.
  destruct (match p_buf q with
            | Some b => mret (Some b)
            | None => make (pktSize cfg) ≫= (fun b => mret (Some b))
            end) as [buf|v|] eqn:Ebuf.
  - rewrite !bind_Ok. cbn [p_no p_size p_data p_buf p_from].
    destruct (ReadFrom (SetReadDeadline con true) (bytes_of buf))
      as [[[[[n buf'] a] err] con']|v|] eqn:Erd; [|intros H; inversion H; subst|discriminate].
    + rewrite bind_Ok. destruct (is_deadline err); [discriminate|].
      destruct err as [[| |msg]|]; cbn [ep]; try discriminate;
        rewrite !bind_Ok; cbn [p_buf].
      * destruct (slice _ 0 n) as [f|v|] eqn:Esl; [|intros H; inversion H; subst|discriminate].
        -- rewrite bind_Ok.
           destruct (decode f) as [[[no sz] data]|v|] eqn:Ed; [discriminate| |discriminate].
           intros H. inversion H; subst.
           apply decode_panic in Ed. destruct Ed as [E|[E|[E|E]]]; discriminate.
        -- unfold slice in Esl. destruct (_ && _) in Esl; discriminate.
      * destruct (slice _ 0 n) as [f|v|] eqn:Esl; [|intros H; inversion H; subst|discriminate].
        -- rewrite bind_Ok.
           destruct (decode f) as [[[no sz] data]|v|] eqn:Ed; [discriminate| |discriminate].
           intros H. inversion H; subst.
           apply decode_panic in Ed. destruct Ed as [E|[E|[E|E]]]; discriminate.
        -- unfold slice in Esl. destruct (_ && _) in Esl; discriminate.
    + unfold ReadFrom in Erd.
      destruct (read_events _ _ _) as [[[[[n0 b0] a0] e0] ev0]|v0|] eqn:Eev;
        [discriminate| |discriminate].
      exfalso. clear Erd.
      revert Eev. generalize (deadline (SetReadDeadline con true)).
      induction (pending (SetReadDeadline con true)) as [|[d a e|] evs IH];
        intros dl0 Eev; cbn in Eev.
      * destruct dl0; discriminate.
      * discriminate.
      * destruct dl0; [discriminate | eapply IH; exact Eev].
  - intros H. inversion H; subst.
    destruct (p_buf q); [discriminate|].
    unfold make in Ebuf. destruct (pktSize cfg <? 0); discriminate.
  - discriminate.
Qed.

(** C1.  A change of the origin address does not abort the run: after the
    handshake, a first frame from one address and a second frame from
    another are both accepted; the run counts two frames and completes.
    [readFrom] starts with [reset], which sets [p.from] to nil, so its check
    [p.from != nil && ...] never compares the addresses. *)
Theorem peer_change_is_accepted :
  serve (Config 8 2 false)
    (Conn false
       [Recv start (Some "192.0.2.1:4000") None;
        Recv (frame 1 [x41; x42]) (Some "192.0.2.1:4000") None;
        Recv (frame 2 [x43; x44]) (Some "198.51.100.7:4000") None])
  = Run [LWaiting; LReceivedStart; LCheckSum "d41d8cd98f00b204e9800998ecf8427e";
         LTotalReceived 2]
      2 None Completed.
Proof. vm_compute. reflexivity. Qed.

(** ** The digest line *)

Lemma serve_store_off (cfg : config) (con : conn) :
  useMem cfg = false -> run_s (serve cfg con) = None.
Proof.
  intros Hoff.
  destruct (serve_cases cfg con) as [E|[[v E]|[evs E]]]; rewrite E; clear E;
    [reflexivity | reflexivity |].
  destruct (recv_loop cfg (Z.to_nat (pktCount cfg)) _) as [st e] eqn:Hrun.
  apply recv_loop_store_off in Hrun; [|exact Hoff]. cbn [r_s] in Hrun.
  unfold after_loop. destruct e; exact Hrun.
Qed.

(** C3 (as amended).  [serve] prints a digest exactly when the loop ran all
    its [pktCount] iterations, whether buffering is on or off, and it prints
    exactly one: the MD5 digest of the store.  With buffering off the store
    is nil and the digest is that of the empty byte sequence.  A run that
    ends with a timeout or a panic prints no digest, with buffering on as
    with buffering off. *)
Theorem digest_printed_iff_loop_completed (cfg : config) (con : conn) :
  (run_end (serve cfg con) = Completed ->
   List.filter is_check_sum (run_out (serve cfg con))
   = [LCheckSum (fmt_x (md5_sum (bytes_of (run_s (serve cfg con)))))]) /\
  (run_end (serve cfg con) <> Completed ->
   List.filter is_check_sum (run_out (serve cfg con)) = []) /\
  (useMem cfg = false ->
   run_s (serve cfg con) = None /\
   fmt_x (md5_sum (bytes_of (run_s (serve cfg con))))
   = "d41d8cd98f00b204e9800998ecf8427e").
Proof.
  pose proof (serve_summary cfg con) as [_ Hsum]. cbv zeta in Hsum.
  split; [|split].
  - intros Hend. rewrite Hend in Hsum. destruct Hsum as [_ (ws & Hws & Hout)].
    rewrite Hout, !List.filter_app, (order_lines_no_digest ws Hws), report_no_digest.
    reflexivity.
  - intros Hend. destruct (run_end (serve cfg con)) eqn:E.
    + contradiction.
    + destruct Hsum as [_ (ws & Hws & Hout)].
      rewrite Hout, !List.filter_app, (order_lines_no_digest ws Hws), report_no_digest.
      reflexivity.
    + destruct Hsum as (pre & Hpre & Hout).
      rewrite Hout, List.filter_app, Hpre, report_no_digest. reflexivity.
    + clear Hsum.
      destruct (serve_cases cfg con) as [E'|[[v E']|[evs E']]].
      * rewrite E'. reflexivity.
      * rewrite E' in E. discriminate.
      * rewrite E' in E |- *.
        destruct (recv_loop cfg (Z.to_nat (pktCount cfg)) _) as [st e] eqn:Hrun.
        apply recv_loop_shape in Hrun as [(ws & Hout & Hws) _].
        unfold after_loop in E |- *. destruct e; try discriminate.
        cbn [run_out]. rewrite Hout.
        rewrite List.filter_app, (order_lines_no_digest ws Hws). reflexivity.
  - intros Hoff. rewrite serve_store_off by exact Hoff.
    split; [reflexivity | vm_compute; reflexivity].
Qed.

(** C3, as stated, fails in both directions: with buffering off a run that
    receives its one frame prints a digest, that of the empty byte sequence;
    with buffering on a run that times out after one of two frames prints no
    digest of its buffer. *)
Lemma digest_not_tied_to_buffering :
  useMem (Config 8 1 false) = false /\
  run_out (serve (Config 8 1 false)
             (Conn false [Recv start None None; Recv (frame 1 [x41; x42]) None None]))
  = [LWaiting; LReceivedStart; LCheckSum "d41d8cd98f00b204e9800998ecf8427e";
     LTotalReceived 1] /\
  useMem (Config 8 2 true) = true /\
  serve (Config 8 2 true)
    (Conn false [Recv start None None; Recv (frame 1 [x41; x42]) None None])
  = Run [LWaiting; LReceivedStart; LTotalReceived 1;
         LLoss 1 (float64 1 / float64 2 * 100)%float]
      1 (Some [x41; x42; x00; x00]) TimedOut.
Proof.
  split; [reflexivity|]. split; [vm_compute; reflexivity|].
  split; [reflexivity|]. vm_compute. reflexivity.
Qed.

Lemma digest_printed_iff_loop_completed_witness :
  run_end (serve (Config 8 1 true)
             (Conn false [Recv start None None; Recv (frame 1 [x41; x42]) None None]))
  = Completed /\
  List.filter is_check_sum
    (run_out (serve (Config 8 1 true)
                (Conn false [Recv start None None; Recv (frame 1 [x41; x42]) None None])))
  = [LCheckSum (fmt_x (md5_sum [x41; x42]))] /\
  run_end (serve (Config 8 2 true)
             (Conn false [Recv start None None; Recv (frame 1 [x41; x42]) None None]))
  <> Completed /\
  List.filter is_check_sum
    (run_out (serve (Config 8 2 true)
                (Conn false [Recv start None None; Recv (frame 1 [x41; x42]) None None])))
  = [].
Proof.
  assert (H1 : run_end (serve (Config 8 1 true)
                 (Conn false [Recv start None None; Recv (frame 1 [x41; x42]) None None]))
               = Completed) by reflexivity.
  assert (H2 : run_end (serve (Config 8 2 true)
                 (Conn false [Recv start None None; Recv (frame 1 [x41; x42]) None None]))
               <> Completed) by discriminate.
  split; [exact H1|]. split.
  - exact (proj1 (digest_printed_iff_loop_completed (Config 8 1 true)
                    (Conn false [Recv start None None; Recv (frame 1 [x41; x42]) None None]))
             H1).
  - split; [exact H2|].
    exact (proj1 (proj2 (digest_printed_iff_loop_completed (Config 8 2 true)
                    (Conn false [Recv start None None; Recv (frame 1 [x41; x42]) None None])))
             H2).
Defined.

(** ** The handshake *)

(** C9.  The first read of [serve] has no deadline (a silent period before
    the first datagram changes nothing) and fills a buffer of five bytes,
    the length of the token: [first_read d], the first five bytes of the
    datagram, zeros where it is shorter.  If these are not the token
    ["start"], the run aborts: nothing but the opening line and the deferred
    report is printed, and the received count is 0.  If they are, the
    receiver enters the loop with nothing counted and no sequence number
    seen. *)
Theorem handshake_gate (cfg : config) (dl : bool) (d : list byte) (a : Addr)
    (evs : list event) :
  serve cfg (Conn dl (Quiet :: Recv d a None :: evs))
  = serve cfg (Conn dl (Recv d a None :: evs)) /\
  len (first_read d) = len start /\
  (first_read d <> start ->
   serve cfg (Conn dl (Recv d a None :: evs))
   = Run ([LWaiting] ++ report cfg 0) 0 None
       (Aborted (PanicMsg ("unexpected first bytes: "
                   ++ string_of_list_byte (first_read d) ++ String "010" "")%string))
   /\ run_i (serve cfg (Conn dl (Recv d a None :: evs))) = 0
   /\ exists rest, report cfg 0 = LTotalReceived 0 :: rest) /\
  (first_read d = start ->
   serve cfg (Conn dl (Recv d a None :: evs))
   = after_loop cfg
       (recv_loop cfg (Z.to_nat (pktCount cfg))
          (RState 0 0 paket_zero None (Conn false evs) [LWaiting; LReceivedStart]))).
Proof.
  split; [apply serve_quiet|]. split.
  { unfold first_read, len.
    rewrite length_app, length_take, length_replicate.
    change (length start) with 5%nat. lia. }
  rewrite serve_first_read. cbn [ep]. unfold bytes_Equal. split.
  - intros Hne. rewrite bool_decide_eq_false_2 by exact Hne. cbn [negb].
    split; [reflexivity|]. split; [reflexivity|].
    unfold report. eexists. reflexivity.
  - intros Heq. rewrite bool_decide_eq_true_2 by exact Heq. reflexivity.
Qed.

Lemma handshake_gate_witness :
  first_read [x73; x74; x6f; x70] <> start /\
  run_i (serve (Config 8 1 false) (Conn false [Recv [x73; x74; x6f; x70] None None])) = 0 /\
  first_read start = start /\
  serve (Config 8 1 false)
    (Conn false [Recv start None None; Recv (frame 1 [x41; x42]) None None])
  = after_loop (Config 8 1 false)
      (recv_loop (Config 8 1 false) (Z.to_nat (pktCount (Config 8 1 false)))
         (RState 0 0 paket_zero None
            (Conn false [Recv (frame 1 [x41; x42]) None None])
            [LWaiting; LReceivedStart])).
Proof.
  assert (H1 : first_read [x73; x74; x6f; x70] <> start) by discriminate.
  assert (H2 : first_read start = start) by reflexivity.
  split; [exact H1|]. split.
  - destruct (handshake_gate (Config 8 1 false) false [x73; x74; x6f; x70] None [])
      as (_ & _ & Hno & _).
    exact (proj1 (proj2 (Hno H1))).
  - split; [exact H2|].
    destruct (handshake_gate (Config 8 1 false) false start None
                [Recv (frame 1 [x41; x42]) None None])
      as (_ & _ & _ & Hyes).
    exact (Hyes H2).
Defined.

(** ** A handshake, a stream of frames, then silence *)

Lemma first_read_start : first_read start = start.
Proof. reflexivity. Qed.

Lemma filter_anomalies (last : Z) (ks : list Z) :
  List.filter is_wrong_order (anomalies last ks) = anomalies last ks.
Proof.
  revert last. induction ks as [|k ks IH]; intros last; [reflexivity|].
  cbn [anomalies]. rewrite List.filter_app, IH.
  destruct (in_order last k); reflexivity.
Qed.

Lemma serve_feed (cfg : config) (dl : bool) (a0 a : Addr) (fs : list (Z * list byte)) :
  0 <= pktSize cfg ->
  Forall (fits cfg) fs -> saves_ok cfg (map fst fs) -> len fs <= pktCount cfg ->
  exists s,
    stored cfg None fs = Ok s /\
    serve cfg (Conn dl (Recv start a0 None :: arrivals a fs))
    = if len fs =? pktCount cfg
      then Run ([LWaiting; LReceivedStart] ++ anomalies 0 (map fst fs)
                  ++ [LCheckSum (checkSum s)] ++ report cfg (len fs))
             (len fs) s Completed
      else Run ([LWaiting; LReceivedStart] ++ anomalies 0 (map fst fs)
                  ++ report cfg (len fs))
             (len fs) s TimedOut.
Proof.
  intros Hs Hfits Hsaves Hlen.
  rewrite serve_first_read. cbn [ep]. rewrite first_read_start.
  unfold bytes_Equal. rewrite bool_decide_eq_true_2 by reflexivity. cbn [negb].
  set (m := (Z.to_nat (pktCount cfg) - length fs)%nat).
  replace (Z.to_nat (pktCount cfg)) with (length fs + m)%nat
    by (unfold len in Hlen; lia).
  destruct (recv_loop_feed cfg a fs Hs m
              (RState 0 0 paket_zero None (Conn false (arrivals a fs))
                 [LWaiting; LReceivedStart]) false [])
    as (pkt & s & Hok & Hst & Hstored & Hrun).
  { reflexivity. }
  { exact I. }
  { exact Hfits. }
  { exact Hsaves. }
  { cbn [r_con]. rewrite app_nil_r. reflexivity. }
  exists s. split; [exact Hstored|].
  rewrite Hrun. cbn [r_i r_no r_out]. rewrite Z.add_0_l.
  destruct (Z.eqb_spec (len fs) (pktCount cfg)) as [E|E].
  - replace m with 0%nat by (unfold len in *; lia).
    cbn [recv_loop after_loop r_out r_i r_s]. rewrite <- app_assoc. reflexivity.
  - destruct m as [|m'] eqn:Em; [unfold len in *; lia|].
    edestruct (recv_loop_timeout cfg m') as (pkt' & con' & Hto); [exact Hs | | | rewrite Hto].
    + exact Hok.
    + cbn [r_con pending times_out]. exact I.
    + cbn [after_loop r_out r_i r_s]. rewrite <- app_assoc. reflexivity.
Qed.

Lemma map_fst_stream (pl : Z -> list byte) (ks : list Z) :
  map fst (stream pl ks) = ks.
Proof.
  unfold stream. rewrite map_map. cbn [fst]. apply map_id.
Qed.

Lemma len_stream (pl : Z -> list byte) (ks : list Z) : len (stream pl ks) = len ks.
Proof. unfold stream, len. rewrite length_map. reflexivity. Qed.

Lemma anomalies_increasing (a n : nat) :
  anomalies (Z.of_nat a) (map Z.of_nat (seq (S a) n)) = [].
Proof.
  revert a. induction n as [|n IH]; intros a; [reflexivity|].
  cbn [seq map anomalies]. rewrite IH.
  unfold in_order. destruct (Z.ltb_spec (Z.of_nat a) (Z.of_nat (S a))); [reflexivity | lia].
Qed.

Lemma order_check_spec (no k : Z) :
  (order_check no k = [] <-> no < k) /\
  (order_check no k = [LWrongOrder no k] <-> k <= no).
Proof.
  unfold order_check. rewrite Z.geb_leb.
  destruct (Z.leb_spec k no); split; split; intros H';
    try reflexivity; try discriminate; lia.
Qed.

(** C6 (as amended).  The check of the loop body flags a sequence number
    exactly when it is not strictly greater than the last one seen.  For
    every stream of decodable frames after the handshake, in order or not,
    on which [save] does not abort (buffering off, or every sequence number
    a slot of the buffer, from 1 to [pktCount]), the received count is the
    number of frames, the anomalies printed are those of the stream
    observed from a last-seen value of 0, each against its predecessor, and
    every frame has been handed to [save], flagged or not.  Such a stream
    1, 2, ..., N gives no anomaly and a received count of N; such a stream
    1, 3, 2 gives one anomaly, at the observation of 2 after 3. *)
Theorem sequence_tracker_counts_and_flags (cfg : config) :
  0 <= pktSize cfg ->
  (forall no k : Z,
     (order_check no k = [] <-> no < k) /\
     (order_check no k = [LWrongOrder no k] <-> k <= no)) /\
  (forall (dl : bool) (a0 a : Addr) (fs : list (Z * list byte)),
     Forall (fits cfg) fs -> saves_ok cfg (map fst fs) -> len fs <= pktCount cfg ->
     let r := serve cfg (Conn dl (Recv start a0 None :: arrivals a fs)) in
     run_i r = len fs /\
     List.filter is_wrong_order (run_out r) = anomalies 0 (map fst fs) /\
     stored cfg None fs = Ok (run_s r)) /\
  (forall (dl : bool) (a0 a : Addr) (pl : Z -> list byte) (N : nat),
     Forall (fits cfg) (stream pl (upto N)) -> saves_ok cfg (upto N) ->
     Z.of_nat N <= pktCount cfg ->
     let r := serve cfg (Conn dl (Recv start a0 None :: arrivals a (stream pl (upto N)))) in
     run_i r = Z.of_nat N /\ List.filter is_wrong_order (run_out r) = []) /\
  (forall (dl : bool) (a0 a : Addr) (pl : Z -> list byte),
     Forall (fits cfg) (stream pl [1; 3; 2]) -> saves_ok cfg [1; 3; 2] ->
     3 <= pktCount cfg ->
     let r := serve cfg (Conn dl (Recv start a0 None :: arrivals a (stream pl [1; 3; 2]))) in
     run_i r = 3 /\ List.filter is_wrong_order (run_out r) = [LWrongOrder 3 2]).
Proof.
  intros Hs.
  assert (Hstream : forall (dl : bool) (a0 a : Addr) (fs : list (Z * list byte)),
     Forall (fits cfg) fs -> saves_ok cfg (map fst fs) -> len fs <= pktCount cfg ->
     let r := serve cfg (Conn dl (Recv start a0 None :: arrivals a fs)) in
     run_i r = len fs /\
     List.filter is_wrong_order (run_out r) = anomalies 0 (map fst fs) /\
     stored cfg None fs = Ok (run_s r)).
  { intros dl a0 a fs Hfits Hsaves Hlen. cbv zeta.
    destruct (serve_feed cfg dl a0 a fs Hs Hfits Hsaves Hlen) as (s & Hstored & Hrun).
    rewrite Hrun.
    destruct (len fs =? pktCount cfg); cbn [run_i run_out run_s];
      (split; [reflexivity|]); (split; [|exact Hstored]);
      rewrite !List.filter_app, filter_anomalies, report_no_order_lines;
      cbn [List.filter is_wrong_order app]; rewrite ?app_nil_r; reflexivity. }
  split; [apply order_check_spec|]. split; [exact Hstream|]. split.
  - intros dl a0 a pl N Hfits Hsaves Hlen. cbv zeta.
    destruct (Hstream dl a0 a (stream pl (upto N))) as (Hi & Hw & _).
    + exact Hfits.
    + rewrite map_fst_stream. exact Hsaves.
    + rewrite len_stream. unfold upto, len. rewrite length_map, length_seq. exact Hlen.
    + rewrite Hi, Hw, map_fst_stream, len_stream. split.
      * unfold upto, len. rewrite length_map, length_seq. reflexivity.
      * apply (anomalies_increasing 0 N).
  - intros dl a0 a pl Hfits Hsaves Hlen. cbv zeta.
    destruct (Hstream dl a0 a (stream pl [1; 3; 2])) as (Hi & Hw & _).
    + exact Hfits.
    + rewrite map_fst_stream. exact Hsaves.
    + rewrite len_stream. exact Hlen.
    + rewrite Hi, Hw. split; reflexivity.
Qed.

Lemma sequence_tracker_counts_and_flags_witness :
  0 <= pktSize (Config 8 3 true) /\
  run_i (serve (Config 8 3 true)
           (Conn false (Recv start None None
                          :: arrivals None (stream (fun _ => [x41; x42]) [1; 3; 2]))))
  = 3 /\
  List.filter is_wrong_order
    (run_out (serve (Config 8 3 true)
                (Conn false (Recv start None None
                               :: arrivals None (stream (fun _ => [x41; x42]) [1; 3; 2])))))
  = [LWrongOrder 3 2].
Proof.
  assert (H0 : 0 <= pktSize (Config 8 3 true)) by (simpl; lia).
  split; [exact H0|].
  destruct (sequence_tracker_counts_and_flags (Config 8 3 true) H0)
    as (_ & _ & _ & H132).
  apply (H132 false None None (fun _ => [x41; x42])).
  - repeat constructor; unfold len; simpl; lia.
  - right. split.
    + unfold sizes_fit, capacity. simpl. lia.
    + repeat constructor; simpl; lia.
  - simpl. lia.
Defined.

(** C6, as stated, fails with buffering on for a flagged frame whose
    sequence number is no slot of the buffer.  The frames numbered 1, 0, 2
    all decode; the frame 0 is flagged against 1, then [save] slices the
    six-byte buffer at [65535 * 2] and panics before [i++]: the frame is
    not counted, the frame 2 is never read, and the run aborts with a count
    of 1. *)
Lemma flagged_frame_outside_buffer_aborts :
  Forall (fits (Config 8 3 true)) (stream (fun _ => [x41; x42]) [1; 0; 2]) /\
  serve (Config 8 3 true)
    (Conn false (Recv start None None
                   :: arrivals None (stream (fun _ => [x41; x42]) [1; 0; 2])))
  = Run [LWaiting; LReceivedStart; LWrongOrder 1 0; LTotalReceived 1;
         LLoss 2 (float64 2 / float64 3 * 100)%float]
      1 (Some [x41; x42; x00; x00; x00; x00])
      (Aborted (RuntimeError "slice bounds out of range")).
Proof.
  split.
  - repeat constructor; unfold len; simpl; lia.
  - vm_compute. reflexivity.
Qed.

(** ** The loss report *)

Lemma fits_upto (cfg : config) (pl : Z -> list byte) (n : nat) :
  Z.of_nat n < 65536 ->
  (forall k, len (pl k) + 6 <= pktSize cfg /\ len (pl k) <= 65531) ->
  Forall (fits cfg) (stream pl (upto n)).
Proof.
  intros Hn Hpl. apply List.Forall_forall. intros f Hin.
  unfold stream, upto in Hin.
  apply List.in_map_iff in Hin as (k & <- & Hin).
  apply List.in_map_iff in Hin as (j & <- & Hin).
  apply List.in_seq in Hin. unfold fits. cbn [fst snd].
  destruct (Hpl (Z.of_nat j)). lia.
Qed.

(** C7.  Every run of [serve] that ends (normally, by a timeout or by a
    panic) prints last the deferred report: the received count and, when
    it differs from [pktCount], the loss [pktCount - received] with the
    percentage [float64(loss) / float64(pktCount) * 100].  With a packet
    count of 100 and 97 frames before the timeout the two lines read
    "total packets received: 97" and "packet loss: 3 (3.00%)". *)
Theorem loss_is_configured_minus_received (cfg : config) (con : conn) :
  is_int (pktCount cfg) ->
  (run_end (serve cfg con) <> Waiting ->
   let i := run_i (serve cfg con) in
   exists pre,
     run_out (serve cfg con)
     = pre ++ LTotalReceived i ::
         (if i =? pktCount cfg then []
          else [LLoss (pktCount cfg - i)
                  (float64 (pktCount cfg - i) / float64 (pktCount cfg) * 100)%float])) /\
  (forall (dl : bool) (a0 a : Addr) (pl : Z -> list byte),
     pktCount cfg = 100 -> saves_ok cfg (upto 97) -> 0 <= pktSize cfg ->
     Forall (fits cfg) (stream pl (upto 97)) ->
     let r := serve cfg (Conn dl (Recv start a0 None :: arrivals a (stream pl (upto 97)))) in
     run_end r = TimedOut /\
     map render (run_out r)
     = ["waiting for incoming connection"; "received start command";
        "total packets received: 97"; "packet loss: 3 (3.00%)"]).
Proof.
  intros Hint. split.
  - intros Hend. cbv zeta.
    pose proof (serve_summary cfg con) as [Hi Hsum]. cbv zeta in Hi, Hsum.
    rewrite <- report_eq by assumption.
    destruct (run_end (serve cfg con)).
    + destruct Hsum as [_ (ws & _ & Hout)]. rewrite Hout.
      exists ([LWaiting; LReceivedStart] ++ ws ++ [LCheckSum (checkSum (run_s (serve cfg con)))]).
      rewrite <- !app_assoc. reflexivity.
    + destruct Hsum as [_ (ws & _ & Hout)]. rewrite Hout.
      exists ([LWaiting; LReceivedStart] ++ ws).
      rewrite <- !app_assoc. reflexivity.
    + destruct Hsum as (pre & _ & Hout). exists pre. exact Hout.
    + contradiction.
  - intros dl a0 a pl Hcnt Hoff Hs Hfits. cbv zeta.
    destruct (serve_feed cfg dl a0 a (stream pl (upto 97)) Hs Hfits) as (s & _ & Hrun).
    + rewrite map_fst_stream. exact Hoff.
    + rewrite len_stream, Hcnt. vm_compute. discriminate.
    + rewrite Hrun, len_stream, map_fst_stream, Hcnt.
      change (len (upto 97) =? 100) with false. cbv iota.
      cbn [run_end run_out]. split; [reflexivity|].
      unfold report. rewrite Hcnt.
      vm_compute. reflexivity.
Qed.

Lemma loss_is_configured_minus_received_witness :
  is_int (pktCount (Config 8 100 false)) /\
  map render
    (run_out (serve (Config 8 100 false)
                (Conn false (Recv start None None
                               :: arrivals None (stream (fun _ => [x41; x42]) (upto 97))))))
  = ["waiting for incoming connection"; "received start command";
     "total packets received: 97"; "packet loss: 3 (3.00%)"].
Proof.
  assert (H0 : is_int (pktCount (Config 8 100 false))) by (unfold is_int; simpl; lia).
  split; [exact H0|].
  destruct (loss_is_configured_minus_received (Config 8 100 false)
              (Conn false []) H0) as [_ Hex].
  apply (Hex false None None (fun _ => [x41; x42])).
  - reflexivity.
  - left. reflexivity.
  - simpl. lia.
  - apply fits_upto; [lia|]. intros k. unfold len. simpl. lia.
Defined.

(** * Further properties of the code *)

(** ** The parsing of [readFrom], read backwards *)

Lemma byte_of_Z_mod (z : Z) : byte_of_Z (z mod 256) = byte_of_Z z.
Proof. unfold byte_of_Z. rewrite Z.mod_mod by lia. reflexivity. Qed.

Lemma le16_le16_value (b0 b1 : byte) : le16 (le16_value b0 b1) = [b0; b1].
Proof.
  pose proof (Z_of_byte_range b0) as H0. pose proof (Z_of_byte_range b1) as H1.
  unfold le16, le16_value. f_equal; [|f_equal].
  - rewrite <- byte_of_Z_mod.
    replace ((Z_of_byte b0 + 256 * Z_of_byte b1) mod 256) with (Z_of_byte b0)
      by (Z.div_mod_to_equations; lia).
    apply byte_of_Z_of_byte.
  - rewrite Z.shiftr_div_pow2 by lia. change (2 ^ 8) with 256.
    replace ((Z_of_byte b0 + 256 * Z_of_byte b1) / 256) with (Z_of_byte b1)
      by (Z.div_mod_to_equations; lia).
    apply byte_of_Z_of_byte.
Qed.

(** What the parsing of [readFrom] accepts is a frame of the wire format. *)
Lemma decode_Ok_frame (f : list byte) (no sz : Z) (d : list byte) :
  decode f = Ok (no, sz, d) ->
  f = frame no d /\ sz = len d /\ 0 <= no < 65536 /\ len d <= 65531.
Proof.
  intros Hdec.
  destruct (Z.lt_ge_cases (len f) 6) as [Hs|Hl].
  { rewrite decode_short in Hdec by exact Hs. discriminate. }
  destruct f as [|b0 [|b1 [|b2 [|b3 rest]]]]; try (unfold len in Hl; simpl in Hl; lia).
  assert (Hrest : 2 <= len rest) by solve_len.
  rewrite decode_long in Hdec by exact Hrest.
  destruct (Z.eqb_spec (len rest - 2) (le16_value b2 b3)) as [Esz|]; [|discriminate].
  cbn [negb] in Hdec. unfold bytes_Equal in Hdec.
  destruct (decide (drop (length rest - 2) rest = pktEnd)) as [Eend|Eend].
  2:{ rewrite bool_decide_eq_false_2 in Hdec by exact Eend. discriminate. }
  rewrite bool_decide_eq_true_2 in Hdec by exact Eend. cbn [negb] in Hdec.
  destruct (Z.leb_spec 65532 (len rest - 2)) as [|Hsmall]; [discriminate|].
  inversion Hdec; subst no sz d. clear Hdec.
  assert (Hlen : len (take (length rest - 2) rest) = len rest - 2) by solve_len.
  split; [|split; [symmetry; exact Hlen | split; [apply le16_value_range | lia]]].
  unfold frame. rewrite Hlen, Esz, !le16_le16_value, <- Eend.
  cbn [app]. rewrite take_drop. reflexivity.
Qed.

(** X2.  The parsing of [readFrom] is the exact inverse of the wire format:
    it accepts the bytes [f] with the sequence number [no], the size [sz]
    and the payload [d] if and only if [f] is the frame of [no] and [d]
    (nothing before, between or after), [sz] is the length of [d], [no] is
    a [uint16] and [d] has at most 65531 bytes. *)
Theorem decode_is_inverse_of_frame (f : list byte) (no sz : Z) (d : list byte) :
  decode f = Ok (no, sz, d) <->
  f = frame no d /\ sz = len d /\ 0 <= no < 65536 /\ len d <= 65531.
Proof.
  split.
  - apply decode_Ok_frame.
  - intros (-> & -> & Hno & Hd). apply decode_frame; assumption.
Qed.

Lemma decode_is_inverse_of_frame_witness :
  decode [x07; x00; x02; x00; x41; x42; x0d; x0a] = Ok (7, 2, [x41; x42]) /\
  [x07; x00; x02; x00; x41; x42; x0d; x0a] = frame 7 [x41; x42] /\
  2 = len [x41; x42] /\ 0 <= 7 < 65536 /\ len [x41; x42] <= 65531.
Proof.
  split; [reflexivity|].
  exact (proj1 (decode_is_inverse_of_frame [x07; x00; x02; x00; x41; x42; x0d; x0a]
                  7 2 [x41; x42]) eq_refl).
Defined.

(** ** What [readFrom] accepts *)

(** X3.  When [readFrom] returns without error on a datagram, the first
    [pktSize] bytes of the datagram (all of it when it is not longer) are
    the frame of the sequence number and payload now held in the [paket];
    [p.size] is the payload length, the payload has at most [pktSize - 6]
    bytes, [p.from] is the origin of the datagram, and the frame buffer
    still has [pktSize] bytes. *)
Theorem readFrom_accepts_frames_only (cfg : config) (q p' : paket) (dl : bool)
    (d : list byte) (a : Addr) (err : option error) (evs : list event) (con' : conn) :
  0 <= pktSize cfg ->
  paket_ok cfg q ->
  readFrom cfg q (Conn dl (Recv d a err :: evs)) = Ok (p', con', None) ->
  take (Z.to_nat (pktSize cfg)) d = frame (p_no p') (p_data p') /\
  p_size p' = len (p_data p') /\
  accepted cfg p' /\
  paket_ok cfg p' /\
  p_from p' = a /\
  con' = Conn true evs.
Proof.
  intros Hs Hok Hrd.
  rewrite readFrom_recv in Hrd by assumption. cbv zeta in Hrd.
  destruct (is_deadline err) eqn:Hdl.
  { destruct err as [[| |]|]; try discriminate. }
  destruct (ep err) as [[]|v|]; try discriminate.
  rewrite bind_Ok in Hrd.
  set (n := Z.to_nat (Z.min (len d) (pktSize cfg))) in *.
  destruct (decode (take n d)) as [[[no sz] data]|v|] eqn:Hdec; try discriminate.
  rewrite bind_Ok in Hrd. inversion Hrd; subst p' con'. clear Hrd.
  cbn [p_no p_size p_data p_buf p_from].
  apply decode_Ok_frame in Hdec as (Hf & Hsz & Hno & Hd).
  assert (Hn : take n d = take (Z.to_nat (pktSize cfg)) d).
  { subst n. destruct (Z.le_gt_cases (len d) (pktSize cfg)).
    - rewrite Z.min_l by lia. unfold len in *. rewrite !take_ge by lia. reflexivity.
    - rewrite Z.min_r by lia. reflexivity. }
  assert (Hfl : len (take n d) = len data + 6) by (rewrite Hf; unfold frame; solve_len).
  assert (Hnle : len (take n d) <= pktSize cfg).
  { subst n. unfold len. rewrite length_take. lia. }
  split; [rewrite <- Hn; exact Hf|]. split; [exact Hsz|]. split.
  { unfold accepted, capacity. cbn [p_no p_data]. lia. }
  split; [|split; reflexivity].
  apply paket_ok_received; assumption.
Qed.

Lemma readFrom_accepts_frames_only_witness :
  0 <= pktSize (Config 8 1 false) /\
  paket_ok (Config 8 1 false) paket_zero /\
  take (Z.to_nat (pktSize (Config 8 1 false))) (frame 7 [x41; x42] ++ [x43])
  = frame 7 [x41; x42] /\
  accepted (Config 8 1 false) (Paket 7 2 [x41; x42] (Some (frame 7 [x41; x42])) (Some "a")).
Proof.
  assert (H0 : 0 <= pktSize (Config 8 1 false)) by (simpl; lia).
  split; [exact H0|]. split; [reflexivity|].
  destruct (readFrom_accepts_frames_only (Config 8 1 false) paket_zero
              (Paket 7 2 [x41; x42] (Some (frame 7 [x41; x42])) (Some "a"))
              false (frame 7 [x41; x42] ++ [x43]) (Some "a") None [] (Conn true [])
              H0 eq_refl eq_refl) as (H1 & _ & H2 & _).
  split; [exact H1 | exact H2].
Defined.

(** ** [apply] and the length of the payload *)

(** X4.  [apply] succeeds exactly on the payloads of at most [pktSize - 6]
    bytes; on a longer one it panics with "payload to long", whatever the
    state of the frame. *)
Theorem apply_succeeds_iff_payload_fits (cfg : config) (p : paket) (b : list byte) :
  0 <= pktSize cfg < 2 ^ 63 ->
  paket_ok cfg p ->
  ((exists p', apply cfg p b = Ok p') <-> len b <= pktSize cfg - 6) /\
  (pktSize cfg - 6 < len b -> apply cfg p b = Panic (PanicMsg "payload to long")).
Proof.
  intros Hs Hok.
  assert (Hlong : pktSize cfg - 6 < len b ->
                  apply cfg p b = Panic (PanicMsg "payload to long")).
  { intros Hb. unfold apply.
    assert (Hguard : (len b >? int_wrap (pktSize cfg - pktInfSize)) = true).
    { rewrite int_wrap_small by (unfold is_int; solve_len).
      rewrite Z.gtb_ltb. apply Z.ltb_lt. solve_len. }
    destruct (p_no p =? 0).
    - rewrite reset_ok by lia. rewrite bind_Ok, Hguard. reflexivity.
    - change (mret p) with (Ok p). rewrite bind_Ok, Hguard. reflexivity. }
  split; [|exact Hlong]. split.
  - intros [p' Happ]. destruct (Z.le_gt_cases (len b) (pktSize cfg - 6)) as [|Hgt];
      [assumption|].
    rewrite Hlong in Happ by lia. discriminate.
  - intros Hfit. eexists. apply apply_ok; [exact Hok | lia | exact Hfit].
Qed.

Lemma apply_succeeds_iff_payload_fits_witness :
  0 <= pktSize (Config 8 1 false) < 2 ^ 63 /\
  paket_ok (Config 8 1 false) paket_zero /\
  apply (Config 8 1 false) paket_zero [x41; x42; x43] = Panic (PanicMsg "payload to long").
Proof.
  assert (H0 : 0 <= pktSize (Config 8 1 false) < 2 ^ 63) by (simpl; lia).
  split; [exact H0|]. split; [reflexivity|].
  apply (proj2 (apply_succeeds_iff_payload_fits (Config 8 1 false) paket_zero
                  [x41; x42; x43] H0 eq_refl)).
  unfold len. simpl. lia.
Defined.

(** ** What [upload] sends and prints *)

Lemma sequence_field_frame (no : Z) (d : list byte) :
  sequence_field (frame no d) = u16 no.
Proof. unfold frame, le16. cbn [app sequence_field]. apply le16_value_le16. Qed.

Lemma length_payload_of (cfg : config) (rnd : nat -> byte) (k : nat) :
  length (payload_of cfg rnd k) = Z.to_nat (capacity cfg).
Proof. unfold payload_of. rewrite length_map, length_seq. reflexivity. Qed.

Lemma frame_u16 (no : Z) (d : list byte) : frame (u16 no) d = frame no d.
Proof. unfold frame. rewrite le16_u16. reflexivity. Qed.

(** One turn of the loop of [upload]. *)
Lemma send_loop_step (cfg : config) (rnd : nat -> byte) (n j : nat)
    (bb : list byte) (st : sstate) :
  6 <= pktSize cfg < 2 ^ 63 ->
  sending cfg j bb st ->
  exists pkt,
    sending cfg (S j) (payload_of cfg rnd j)
      (SState (s_i st + 1) pkt (s_h st ++ payload_of cfg rnd j)
         (S j * Z.to_nat (capacity cfg))%nat (drop 1 (s_w st))
         (s_sent st ++ [frame (Z.of_nat (S j)) (payload_of cfg rnd j)])) /\
    send_loop cfg rnd (S n) bb st
    = match s_w st !! 0%nat with
      | Some (Some e) =>
          (SState (s_i st) pkt (s_h st ++ payload_of cfg rnd j)
             (S j * Z.to_nat (capacity cfg))%nat (drop 1 (s_w st)) (s_sent st),
           Aborted (PanicErr e))
      | _ =>
          send_loop cfg rnd n (payload_of cfg rnd j)
            (SState (s_i st + 1) pkt (s_h st ++ payload_of cfg rnd j)
               (S j * Z.to_nat (capacity cfg))%nat (drop 1 (s_w st))
               (s_sent st ++ [frame (Z.of_nat (S j)) (payload_of cfg rnd j)]))
      end.
Proof.
  intros Hs (Hbb & Hok & Hno & Hpos).
  assert (Hrb : rand_Read rnd (s_pos st) bb = payload_of cfg rnd j).
  { unfold rand_Read, payload_of. rewrite Hbb, Hpos. reflexivity. }
  assert (Hlen : len (payload_of cfg rnd j) = pktSize cfg - 6).
  { unfold len. rewrite length_payload_of. unfold capacity. lia. }
  destruct (apply_frame cfg (s_pkt st) (payload_of cfg rnd j) Hok ltac:(lia) ltac:(lia))
    as (pkt & Happ & Hok' & Hno' & Hlen' & Hwr).
  assert (Hnext : u16 (p_no (s_pkt st) + 1) = u16 (Z.of_nat (S j))).
  { rewrite Hno. unfold u16. rewrite Nat2Z.inj_succ, <- Z.add_1_r.
    apply Zplus_mod_idemp_l. }
  assert (Hframe : writeTo pkt = frame (Z.of_nat (S j)) (payload_of cfg rnd j)).
  { rewrite Hwr, Hno', Hnext, frame_u16.
    pose proof (len_buf_or_fresh cfg (s_pkt st) ltac:(lia) Hok) as Hbuf.
    rewrite drop_ge by solve_len. apply app_nil_r. }
  assert (Hposn : (s_pos st + length (payload_of cfg rnd j))%nat
                  = (S j * Z.to_nat (capacity cfg))%nat).
  { rewrite Hpos, length_payload_of. lia. }
  exists pkt. split.
  - split; [apply length_payload_of|]. split; [exact Hok'|].
    split; [cbn [s_pkt]; rewrite Hno'; exact Hnext | reflexivity].
  - cbn [send_loop]. rewrite Hrb, Happ, Hposn, Hframe.
    destruct (s_w st) as [|[e|] w']; reflexivity.
Qed.

(** The loop of [upload] while no write fails. *)
Lemma send_loop_all (cfg : config) (rnd : nat -> byte) (n : nat) :
  6 <= pktSize cfg < 2 ^ 63 ->
  forall (j : nat) (st : sstate) (bb : list byte),
    sending cfg j bb st ->
    (forall (k : nat) (e : error), (k < n)%nat -> s_w st !! k <> Some (Some e)) ->
    exists st',
      send_loop cfg rnd n bb st = (st', Completed) /\
      s_i st' = s_i st + Z.of_nat n /\
      s_h st' = s_h st ++ payloads_of cfg rnd j n /\
      s_sent st' = s_sent st ++ frames_of cfg rnd j n.
Proof.
  intros Hs. induction n as [|n IH]; intros j st bb Hst Hw.
  - exists st. cbn [send_loop]. unfold payloads_of, frames_of. cbn [seq map concat].
    rewrite !app_nil_r, Z.add_0_r. repeat split.
  - destruct (send_loop_step cfg rnd n j bb st Hs Hst) as (pkt & Hst' & Hrun).
    rewrite Hrun.
    assert (H0 : match s_w st !! 0%nat with Some (Some _) => False | _ => True end).
    { specialize (Hw 0%nat). destruct (s_w st !! 0%nat) as [[e|]|]; [|exact I|exact I].
      apply (Hw e); [lia | reflexivity]. }
    destruct (IH (S j) _ _ Hst') as (st' & Hrun' & Hi & Hh & Hsent).
    { intros k e Hk. cbn [s_w]. rewrite lookup_drop. apply Hw. lia. }
    exists st'. split.
    { destruct (s_w st !! 0%nat) as [[e|]|]; [destruct H0 | exact Hrun' | exact Hrun']. }
    rewrite Hi, Hh, Hsent. cbn [s_i s_h s_sent]. split; [lia|].
    unfold payloads_of, frames_of. cbn [seq map concat].
    rewrite <- !app_assoc. split; reflexivity.
Qed.

(** The loop of [upload] when the write of the frame number [j + m + 1] is
    the first to fail. *)
Lemma send_loop_fail (cfg : config) (rnd : nat -> byte) (r : nat) (e : error) :
  6 <= pktSize cfg < 2 ^ 63 ->
  forall (m j : nat) (st : sstate) (bb : list byte),
    sending cfg j bb st ->
    (forall (k : nat) (e' : error), (k < m)%nat -> s_w st !! k <> Some (Some e')) ->
    s_w st !! m = Some (Some e) ->
    exists st',
      send_loop cfg rnd (S (m + r)) bb st = (st', Aborted (PanicErr e)) /\
      s_i st' = s_i st + Z.of_nat m /\
      s_sent st' = s_sent st ++ frames_of cfg rnd j m.
Proof.
  intros Hs. induction m as [|m IH]; intros j st bb Hst Hw He.
  - destruct (send_loop_step cfg rnd (0 + r) j bb st Hs Hst) as (pkt & _ & Hrun).
    rewrite Hrun, He. eexists. split; [reflexivity|]. cbn [s_i s_sent].
    unfold frames_of. cbn [seq map]. rewrite app_nil_r, Z.add_0_r. split; reflexivity.
  - destruct (send_loop_step cfg rnd (S (m + r)) j bb st Hs Hst) as (pkt & Hst' & Hrun).
    change (S (S m + r)) with (S (S (m + r))). rewrite Hrun.
    assert (H0 : match s_w st !! 0%nat with Some (Some _) => False | _ => True end).
    { specialize (Hw 0%nat). destruct (s_w st !! 0%nat) as [[e'|]|]; [|exact I|exact I].
      apply (Hw e'); [lia | reflexivity]. }
    destruct (IH (S j) _ _ Hst') as (st' & Hrun' & Hi & Hsent).
    { intros k e' Hk. cbn [s_w]. rewrite lookup_drop. apply Hw. lia. }
    { cbn [s_w]. rewrite lookup_drop. exact He. }
    exists st'. split.
    { destruct (s_w st !! 0%nat) as [[e'|]|]; [destruct H0 | exact Hrun' | exact Hrun']. }
    rewrite Hi, Hsent. cbn [s_i s_sent]. split; [lia|].
    unfold frames_of. cbn [seq map]. rewrite <- !app_assoc. reflexivity.
Qed.

Lemma sending_start (cfg : config) (w : list (option error)) (first : list (list byte)) :
  6 <= pktSize cfg ->
  sending cfg 0 (replicate (Z.to_nat (pktSize cfg - pktInfSize)) x00)
    (SState 0 paket_zero [] 0 w first).
Proof.
  intros Hs. split; [|repeat split].
  rewrite length_replicate. reflexivity.
Qed.

(** [upload] when no write fails. *)
Lemma NewTicker_ok (d : Z) : 0 < d -> NewTicker d = Ok tt.
Proof. intros Hd. unfold NewTicker. destruct (Z.leb_spec d 0); [lia | reflexivity]. Qed.

Lemma NewTicker_panic (d : Z) :
  d <= 0 -> NewTicker d = Panic (PanicMsg "non-positive interval for NewTicker").
Proof. intros Hd. unfold NewTicker. destruct (Z.leb_spec d 0); [reflexivity | lia]. Qed.

Lemma upload_no_failure (cfg : config) (rnd : nat -> byte) (sendInterval : Z) :
  6 <= pktSize cfg < 2 ^ 63 -> 0 < sendInterval ->
  upload cfg rnd sendInterval []
  = Sent (start :: frames_of cfg rnd 0 (Z.to_nat (pktCount cfg)))
      [LCheckSum (fmt_x (md5_sum (payloads_of cfg rnd 0 (Z.to_nat (pktCount cfg)))));
       LTotalSent (Z.of_nat (Z.to_nat (pktCount cfg)))]
      Completed.
Proof.
  intros Hs Hd. unfold upload.
  rewrite int_wrap_small by (unfold is_int; solve_len).
  rewrite make_ok by solve_len. cbn [Write ep]. rewrite NewTicker_ok by exact Hd.
  destruct (send_loop_all cfg rnd (Z.to_nat (pktCount cfg)) Hs 0 _ _
              (sending_start cfg [] [start] ltac:(lia)))
    as (st' & Hrun & Hi & Hh & Hsent).
  { intros k e _. cbn [s_w]. rewrite lookup_nil. discriminate. }
  rewrite Hrun, Hi, Hh, Hsent. reflexivity.
Qed.

(** X5.  With a packet size of at least 6, a positive send interval and no
    failing write, [upload] writes the handshake token and then exactly
    [pktCount] datagrams; the datagram number [k + 1] has [pktSize] bytes
    and is the frame of the sequence number [k + 1] (its two low bytes:
    after 65535 comes 0) and of the [k]-th run of [pktSize - 6] random
    bytes.  It then prints the MD5 digest of all the payloads in the order
    sent, and the number of frames sent. *)
Theorem upload_sends_numbered_frames (cfg : config) (rnd : nat -> byte)
    (sendInterval : Z) :
  6 <= pktSize cfg < 2 ^ 63 -> 0 < sendInterval ->
  upload cfg rnd sendInterval []
  = Sent (start :: frames_of cfg rnd 0 (Z.to_nat (pktCount cfg)))
      [LCheckSum (fmt_x (md5_sum (payloads_of cfg rnd 0 (Z.to_nat (pktCount cfg)))));
       LTotalSent (Z.of_nat (Z.to_nat (pktCount cfg)))]
      Completed /\
  forall k : nat,
    (k < Z.to_nat (pktCount cfg))%nat ->
    exists f,
      frames_of cfg rnd 0 (Z.to_nat (pktCount cfg)) !! k = Some f /\
      len f = pktSize cfg /\
      sequence_field f = (Z.of_nat k + 1) mod 65536 /\
      take (Z.to_nat (pktSize cfg - 6)) (drop 4 f) = payload_of cfg rnd k.
Proof.
  intros Hs Hd. split.
  - apply upload_no_failure; assumption.
  - intros k Hk.
    exists (frame (Z.of_nat (S k)) (payload_of cfg rnd k)).
    assert (Hpl : length (payload_of cfg rnd k) = Z.to_nat (pktSize cfg - 6)).
    { apply length_payload_of. }
    split; [|split; [|split]].
    + unfold frames_of. rewrite list_lookup_fmap, lookup_seq_lt by exact Hk.
      reflexivity.
    + unfold frame. solve_len.
    + rewrite sequence_field_frame. unfold u16. f_equal. lia.
    + unfold frame, le16. cbn [app drop].
      rewrite <- Hpl. apply take_app_length.
Qed.

Lemma upload_sends_numbered_frames_witness :
  upload (Config 8 2 false) (fun k : nat => byte_of_Z (Z.of_nat k + 65)) 2000000 []
  = Sent [start; frame 1 [x41; x42]; frame 2 [x43; x44]]
      [LCheckSum (fmt_x (md5_sum [x41; x42; x43; x44])); LTotalSent 2] Completed.
Proof.
  exact (proj1 (upload_sends_numbered_frames (Config 8 2 false)
                  (fun k : nat => byte_of_Z (Z.of_nat k + 65)) 2000000
                  ltac:(vm_compute; split; congruence) ltac:(reflexivity))).
Defined.

(** X6.  What ends [upload] early.  If the write of the handshake token
    fails with an error other than [io.EOF], nothing more is written and
    nothing is printed.  If the send interval is not positive,
    [time.NewTicker] panics after the handshake, with a value of the
    library's that is no error of a write: no frame is written and the
    only line printed is a count of 0.  With a positive interval, if
    the handshake and the first [m] frames are written and the write of the
    next frame fails, with [io.EOF] or any other error, the run panics with
    that error, no digest is printed, and the only line printed is the
    count [m] of the frames written. *)
Theorem upload_stops_at_first_failed_write (cfg : config) (rnd : nat -> byte)
    (sendInterval : Z) :
  6 <= pktSize cfg < 2 ^ 63 ->
  (forall (w : list (option error)) (e : error),
      e <> EOF ->
      upload cfg rnd sendInterval (Some e :: w) = Sent [] [] (Aborted (PanicErr e))) /\
  (sendInterval <= 0 ->
   forall w : list (option error),
     exists v : panic,
       upload cfg rnd sendInterval (None :: w)
       = Sent [start] [LTotalSent 0] (Aborted v) /\
       forall e : error, v <> PanicErr e) /\
  (0 < sendInterval ->
   forall (w : list (option error)) (m : nat) (e : error),
      (m < Z.to_nat (pktCount cfg))%nat ->
      (forall (k : nat) (e' : error), (k < m)%nat -> w !! k <> Some (Some e')) ->
      w !! m = Some (Some e) ->
      upload cfg rnd sendInterval (None :: w)
      = Sent (start :: frames_of cfg rnd 0 m) [LTotalSent (Z.of_nat m)]
          (Aborted (PanicErr e))).
Proof.
  intros Hs. split; [|split].
  - intros w e Hne. unfold upload.
    rewrite int_wrap_small by (unfold is_int; solve_len).
    rewrite make_ok by solve_len. cbn [Write].
    destruct e; [reflexivity | destruct (Hne eq_refl) | reflexivity].
  - intros Hd w. unfold upload.
    rewrite int_wrap_small by (unfold is_int; solve_len).
    rewrite make_ok by solve_len. cbn [Write ep].
    rewrite NewTicker_panic by exact Hd.
    eexists. split; [reflexivity | discriminate].
  - intros Hd w m e Hm Hw He. unfold upload.
    rewrite int_wrap_small by (unfold is_int; solve_len).
    rewrite make_ok by solve_len. cbn [Write ep]. rewrite NewTicker_ok by exact Hd.
    replace (Z.to_nat (pktCount cfg)) with (S (m + (Z.to_nat (pktCount cfg) - S m)))
      by lia.
    destruct (send_loop_fail cfg rnd (Z.to_nat (pktCount cfg) - S m) e Hs m 0 _ _
                (sending_start cfg w [start] ltac:(lia)) Hw He)
      as (st' & Hrun & Hi & Hsent).
    rewrite Hrun, Hi, Hsent. reflexivity.
Qed.

Lemma upload_stops_at_first_failed_write_witness :
  upload (Config 8 3 false) (fun k : nat => byte_of_Z (Z.of_nat k + 65)) 2000000
    [None; None; Some EOF]
  = Sent [start; frame 1 [x41; x42]] [LTotalSent 1] (Aborted (PanicErr EOF)).
Proof.
  refine (proj2 (proj2 (upload_stops_at_first_failed_write (Config 8 3 false)
                          (fun k : nat => byte_of_Z (Z.of_nat k + 65)) 2000000 _))
            _ [None; Some EOF] 1%nat EOF _ _ _).
  - vm_compute; split; congruence.
  - reflexivity.
  - vm_compute. lia.
  - intros [|k] e' Hk; [discriminate | lia].
  - reflexivity.
Defined.

(** ** The reconstruction buffer *)

Lemma store_bytes_make (cfg : config) (s : store) :
  sizes_fit cfg -> store_ok cfg s ->
  match s with
  | None => make (int_wrap (int_wrap (pktSize cfg - pktInfSize) * pktCount cfg))
  | Some b => Ok b
  end = Ok (store_bytes cfg s) /\ len (store_bytes cfg s) = capacity cfg * pktCount cfg.
Proof.
  intros Hfit Hok. pose proof Hfit as (Hc & Hn & Hmul & _).
  destruct s as [b|]; cbn [store_bytes store_ok] in *.
  - split; [reflexivity | exact Hok].
  - rewrite capacity_wrap by exact Hfit.
    rewrite int_wrap_small by (unfold is_int; nia).
    rewrite make_ok by nia. split; [reflexivity|].
    unfold len. rewrite length_replicate. nia.
Qed.

(** X7.  [save] never resizes the reconstruction buffer and writes only
    into the window of the frame: whatever the sequence number and the
    payload of the frame, a call that returns leaves a buffer of
    [(pktSize - 6) * pktCount] bytes (none at all when buffering is off)
    whose bytes outside the [len(data)] bytes from the offset
    [uint16(no - 1) * (pktSize - 6)] on are those from before the call. *)
Theorem save_keeps_buffer_size (cfg : config) (s s' : store) (p : paket) :
  sizes_fit cfg -> store_ok cfg s ->
  save cfg s p = Ok s' ->
  store_ok cfg s' /\
  (useMem cfg = false -> s' = s) /\
  (useMem cfg = true -> s' <> None) /\
  forall i : nat,
    (Z.of_nat i < u16 (p_no p - 1) * capacity cfg \/
     u16 (p_no p - 1) * capacity cfg + len (p_data p) <= Z.of_nat i) ->
    store_bytes cfg s' !! i = store_bytes cfg s !! i.
Proof.
  intros Hfit Hok Hsave.
  destruct (useMem cfg) eqn:Hmem.
  - rewrite save_on in Hsave by exact Hmem.
    destruct (store_bytes_make cfg s Hfit Hok) as (Hb & Hlen).
    rewrite Hb, bind_Ok in Hsave. cbv zeta in Hsave.
    rewrite capacity_wrap in Hsave by exact Hfit.
    destruct (offset_wrap cfg (p_no p) Hfit) as (Hoff & Hoff0).
    rewrite Hoff in Hsave.
    destruct ((0 <=? u16 (p_no p - 1) * capacity cfg)
              && (u16 (p_no p - 1) * capacity cfg <=? len (store_bytes cfg s))) eqn:Hin;
      [|discriminate].
    apply andb_true_iff in Hin as (_ & Hle%Z.leb_le).
    injection Hsave as <-.
    assert (Hoffn : (Z.to_nat (u16 (p_no p - 1) * capacity cfg)
                     <= length (store_bytes cfg s))%nat) by (unfold len in Hle; lia).
    split; [|split; [discriminate|split; [discriminate|]]].
    + cbn [store_ok]. unfold len. rewrite length_write_at by exact Hoffn. exact Hlen.
    + intros i Hi. cbn [store_bytes]. rewrite lookup_write_at by exact Hoffn.
      destruct (decide _) as [(H1 & H2 & _)|_]; [|reflexivity].
      unfold len in Hi. lia.
  - rewrite save_off in Hsave by exact Hmem. injection Hsave as <-.
    split; [exact Hok|]. split; [reflexivity|]. split; [discriminate | reflexivity].
Qed.

Lemma save_keeps_buffer_size_witness :
  store_ok (Config 8 2 true) (Some [x41; x42; x00; x00]) /\
  store_bytes (Config 8 2 true) (Some [x41; x42; x00; x00]) !! 2%nat
  = store_bytes (Config 8 2 true) None !! 2%nat.
Proof.
  pose proof (save_keeps_buffer_size (Config 8 2 true) None (Some [x41; x42; x00; x00])
                (Paket 1 2 [x41; x42] None None)
                ltac:(vm_compute; repeat split; congruence)
                I eq_refl) as (H1 & _ & _ & H2).
  split; [exact H1|].
  exact (H2 2%nat ltac:(right; vm_compute; congruence)).
Defined.

Lemma lookup_slot (cfg : config) (b : list byte) (k : Z) (i : nat) :
  slot cfg b k !! i
  = if decide (i < Z.to_nat (capacity cfg))%nat
    then b !! (Z.to_nat ((k - 1) * capacity cfg) + i)%nat
    else None.
Proof. unfold slot. rewrite lookup_take, lookup_drop. reflexivity. Qed.

Lemma slot_zeros (cfg : config) (k : Z) :
  sizes_fit cfg -> 1 <= k <= pktCount cfg ->
  slot cfg (store_bytes cfg None) k = replicate (Z.to_nat (capacity cfg)) x00.
Proof.
  intros (Hc & Hn & _) Hk. unfold slot. cbn [store_bytes].
  rewrite drop_replicate, take_replicate. f_equal. nia.
Qed.

(** The slots of the buffer after one [save] of a full frame. *)
Lemma slot_save (cfg : config) (s : store) (f : Z * list byte) (k : Z) :
  useMem cfg = true -> sizes_fit cfg -> store_ok cfg s ->
  full_frame cfg f -> 1 <= k <= pktCount cfg ->
  exists s',
    save cfg s (as_paket f) = Ok s' /\ store_ok cfg s' /\
    slot cfg (store_bytes cfg s') k
    = if fst f =? k then snd f else slot cfg (store_bytes cfg s) k.
Proof.
  intros Hmem Hfit Hok (Hno & Hno' & Hlen) Hk.
  pose proof Hfit as (Hc & Hn & _).
  destruct (store_bytes_make cfg s Hfit Hok) as (_ & Hb).
  assert (Hacc : accepted cfg (as_paket f)).
  { split; cbn [as_paket p_no p_data]; lia. }
  rewrite save_placed by (try assumption; exact Hno).
  cbn [as_paket p_no p_data].
  assert (Hin : (Z.to_nat ((fst f - 1) * capacity cfg) + length (snd f)
                 <= length (store_bytes cfg s))%nat).
  { unfold len in *. nia. }
  eexists. split; [reflexivity|]. split.
  { apply (save_placed_store_ok cfg s (as_paket f)); assumption. }
  cbn [store_bytes]. rewrite <- write_at_fits by exact Hin.
  destruct (Z.eqb_spec (fst f) k) as [Heq|Hne]; [rewrite <- Heq|];
    apply list_eq; intros i; rewrite lookup_slot, lookup_write_at by lia.
  - destruct (decide (i < Z.to_nat (capacity cfg))%nat) as [Hi|Hi].
    + destruct (decide _) as [_|Hn']; [f_equal; lia|]. unfold len in *. lia.
    + symmetry. apply lookup_ge_None. unfold len in *. lia.
  - rewrite lookup_slot.
    destruct (decide (i < Z.to_nat (capacity cfg))%nat) as [Hi|Hi]; [|reflexivity].
    destruct (decide _) as [(H1 & H2 & _)|_]; [|reflexivity].
    unfold len in *. exfalso. nia.
Qed.

(** The slots of the buffer after the [save]s of a list of full frames. *)
Lemma slots_stored (cfg : config) (fs : list (Z * list byte)) :
  useMem cfg = true -> sizes_fit cfg -> Forall (full_frame cfg) fs ->
  forall s : store,
    store_ok cfg s ->
    exists s',
      stored cfg s fs = Ok s' /\ store_ok cfg s' /\
      forall k, 1 <= k <= pktCount cfg ->
        slot cfg (store_bytes cfg s') k
        = last_payload (slot cfg (store_bytes cfg s) k) fs k.
Proof.
  intros Hmem Hfit. induction 1 as [|f fs Hf Hfs IH]; intros s Hok.
  - exists s. split; [reflexivity|]. split; [exact Hok | reflexivity].
  - unfold stored. cbn [map]. rewrite save_all_cons.
    destruct (slot_save cfg s f 1 Hmem Hfit Hok Hf) as (s1 & Hs1 & Hok1 & _).
    { destruct Hf as (? & _). lia. }
    rewrite Hs1, bind_Ok.
    destruct (IH s1 Hok1) as (s' & Hrun & Hok' & Hslots).
    exists s'. split; [exact Hrun|]. split; [exact Hok'|].
    intros k Hk. rewrite Hslots by exact Hk.
    destruct (slot_save cfg s f k Hmem Hfit Hok Hf Hk) as (s2 & Hs2 & _ & Hslot).
    rewrite Hs1 in Hs2. injection Hs2 as <-.
    unfold last_payload. cbn [fold_left]. rewrite Hslot. reflexivity.
Qed.

(** X8.  With buffering on, after the frames [fs] were saved (each with a
    sequence number from 1 to [pktCount] and a payload of [pktSize - 6]
    bytes, in any order, with repetitions or gaps), the slot of each
    sequence number holds the payload of the last frame saved with that
    number, and zeros when no frame had it. *)
Theorem slots_hold_last_payload_or_zeros (cfg : config) (fs : list (Z * list byte)) :
  useMem cfg = true -> sizes_fit cfg -> Forall (full_frame cfg) fs ->
  exists s,
    stored cfg None fs = Ok s /\ store_ok cfg s /\
    forall k, 1 <= k <= pktCount cfg ->
      slot cfg (store_bytes cfg s) k
      = last_payload (replicate (Z.to_nat (capacity cfg)) x00) fs k.
Proof.
  intros Hmem Hfit Hfs.
  destruct (slots_stored cfg fs Hmem Hfit Hfs None I) as (s & Hrun & Hok & Hslots).
  exists s. split; [exact Hrun|]. split; [exact Hok|].
  intros k Hk. rewrite Hslots, slot_zeros by assumption. reflexivity.
Qed.

Lemma slots_hold_last_payload_or_zeros_witness :
  exists s,
    stored (Config 8 3 true) None [(3, [x41; x42]); (1, [x43; x44]); (3, [x45; x46])]
    = Ok s /\ store_ok (Config 8 3 true) s /\
    forall k, 1 <= k <= pktCount (Config 8 3 true) ->
      slot (Config 8 3 true) (store_bytes (Config 8 3 true) s) k
      = last_payload (replicate (Z.to_nat (capacity (Config 8 3 true))) x00)
          [(3, [x41; x42]); (1, [x43; x44]); (3, [x45; x46])] k.
Proof.
  apply slots_hold_last_payload_or_zeros.
  - reflexivity.
  - vm_compute. repeat split; congruence.
  - repeat constructor; vm_compute; congruence.
Defined.

(** ** Sender and receiver together *)

Lemma payloads_of_snoc (cfg : config) (rnd : nat -> byte) (j n : nat) :
  payloads_of cfg rnd j (S n) = payloads_of cfg rnd j n ++ payload_of cfg rnd (j + n).
Proof.
  unfold payloads_of. rewrite seq_S, map_app, concat_app. cbn [map concat].
  rewrite app_nil_r. reflexivity.
Qed.

Lemma length_payloads_of (cfg : config) (rnd : nat -> byte) (j n : nat) :
  length (payloads_of cfg rnd j n) = (n * Z.to_nat (capacity cfg))%nat.
Proof.
  induction n as [|n IH]; [reflexivity|].
  rewrite payloads_of_snoc, length_app, IH, length_payload_of. lia.
Qed.

Lemma full_sent_frame (cfg : config) (rnd : nat -> byte) (k : nat) :
  0 <= capacity cfg -> Z.of_nat k < pktCount cfg -> pktCount cfg <= 65535 ->
  full_frame cfg (sent_frame cfg rnd k).
Proof.
  intros Hc Hk Hn. unfold full_frame, sent_frame. cbn [fst snd].
  unfold len. rewrite length_payload_of. lia.
Qed.

(** Saving the sender's frames in the order sent fills the buffer from the
    front. *)
Lemma stored_in_order (cfg : config) (rnd : nat -> byte) :
  useMem cfg = true -> sizes_fit cfg -> pktCount cfg <= 65535 ->
  forall (n j : nat) (s : store),
    Z.of_nat (j + n) <= pktCount cfg ->
    store_ok cfg s ->
    store_bytes cfg s
    = payloads_of cfg rnd 0 j
        ++ replicate ((Z.to_nat (pktCount cfg) - j) * Z.to_nat (capacity cfg)) x00 ->
    stored cfg s (map (sent_frame cfg rnd) (seq j n))
    = Ok (match n with
          | O => s
          | S _ =>
              Some (payloads_of cfg rnd 0 (j + n)
                      ++ replicate ((Z.to_nat (pktCount cfg) - (j + n))
                                    * Z.to_nat (capacity cfg)) x00)
          end).
Proof.
  intros Hmem Hfit Hmax. pose proof Hfit as (Hc & Hn & _).
  induction n as [|n IH]; intros j s Hj Hok Hs; [reflexivity|].
  cbn [seq map]. unfold stored. cbn [map]. rewrite save_all_cons.
  destruct (full_sent_frame cfg rnd j Hc ltac:(lia) Hmax) as (Hno & Hlt & Hlen).
  assert (Hacc : accepted cfg (as_paket (sent_frame cfg rnd j))).
  { split; cbn [as_paket p_no p_data]; lia. }
  rewrite save_placed by assumption.
  rewrite bind_Ok.
  pose proof (save_placed_store_ok cfg s _ Hfit Hok Hacc Hno) as Hok1.
  cbn [as_paket p_no p_data sent_frame fst snd] in *.
  assert (Hnext : overwrite (store_bytes cfg s)
                    (Z.to_nat ((Z.of_nat (S j) - 1) * capacity cfg))
                    (payload_of cfg rnd j)
                  = payloads_of cfg rnd 0 (S j)
                      ++ replicate ((Z.to_nat (pktCount cfg) - S j)
                                    * Z.to_nat (capacity cfg)) x00).
  { rewrite Hs.
    replace (Z.to_nat ((Z.of_nat (S j) - 1) * capacity cfg))
      with (length (payloads_of cfg rnd 0 j)) by (rewrite length_payloads_of; nia).
    rewrite overwrite_app, drop_replicate, length_payload_of.
    rewrite payloads_of_snoc, <- app_assoc. cbn [Nat.add]. do 3 f_equal. nia. }
  fold (stored cfg (Some (overwrite (store_bytes cfg s)
                            (Z.to_nat ((Z.of_nat (S j) - 1) * capacity cfg))
                            (payload_of cfg rnd j)))
          (map (sent_frame cfg rnd) (seq (S j) n))).
  rewrite (IH (S j)) by (try assumption; lia).
  destruct n as [|n].
  - rewrite Hnext. do 3 f_equal; [f_equal; lia | f_equal; lia].
  - do 3 f_equal; [f_equal; lia | f_equal; lia].
Qed.

(** The digest of the buffer that holds all the frames of the sender. *)
Lemma checkSum_in_order (cfg : config) (rnd : nat -> byte) (s : store) :
  useMem cfg = true -> sizes_fit cfg -> pktCount cfg <= 65535 ->
  stored cfg None (map (sent_frame cfg rnd) (seq 0 (Z.to_nat (pktCount cfg)))) = Ok s ->
  checkSum s = fmt_x (md5_sum (payloads_of cfg rnd 0 (Z.to_nat (pktCount cfg)))).
Proof.
  intros Hmem Hfit Hmax Hrun. pose proof Hfit as (Hc & Hn & _).
  rewrite (stored_in_order cfg rnd Hmem Hfit Hmax) in Hrun.
  - injection Hrun as <-. unfold checkSum.
    destruct (Z.to_nat (pktCount cfg)) as [|n] eqn:En; [reflexivity|].
    cbn [bytes_of Nat.add]. rewrite Nat.sub_diag. cbn [Nat.mul replicate].
    rewrite app_nil_r. reflexivity.
  - lia.
  - exact I.
  - cbn [store_bytes]. unfold payloads_of. cbn [seq map concat app].
    f_equal. nia.
Qed.

Lemma report_all (cfg : config) : report cfg (pktCount cfg) = [LTotalReceived (pktCount cfg)].
Proof. unfold report. rewrite Z.eqb_refl. reflexivity. Qed.

(** The sender's frames, in the order [ks], as events of the receiver's
    socket. *)
Lemma arrivals_sent_frames (cfg : config) (rnd : nat -> byte) (a : Addr) (ks : list nat) :
  map (fun d => Recv d a None)
    (map (fun k => frame (Z.of_nat (S k)) (payload_of cfg rnd k)) ks)
  = arrivals a (map (sent_frame cfg rnd) ks).
Proof. unfold arrivals. rewrite !map_map. reflexivity. Qed.

Lemma fits_sent_frame (cfg : config) (rnd : nat -> byte) (k : nat) :
  6 <= pktSize cfg <= 65537 -> Z.of_nat k < 65535 ->
  fits cfg (sent_frame cfg rnd k).
Proof.
  intros Hs Hk. unfold fits, sent_frame. cbn [fst snd].
  unfold len. rewrite length_payload_of. unfold capacity. lia.
Qed.

Lemma sizes_fit_small (cfg : config) :
  6 <= pktSize cfg <= 65537 -> 0 <= pktCount cfg <= 65535 -> sizes_fit cfg.
Proof. intros Hs Hn. unfold sizes_fit, capacity. nia. Qed.

(** X9.  With buffering on, a packet size from 6 to 65537 and a count of at
    most 65535, take a sender with a positive send interval none of whose
    writes fails, and a receiver that gets the handshake token and then the
    datagrams the sender wrote after it, each once and in any order.  The
    receiver completes its run, counts [pktCount] frames, reports no loss
    and prints the digest the sender prints: the order of arrival shows
    only in the wrong-order lines. *)
Theorem receiver_digest_is_sender_digest (cfg : config) (rnd : nat -> byte)
    (sendInterval : Z) (dl : bool) (a0 a : Addr) (ds : list (list byte)) :
  useMem cfg = true ->
  6 <= pktSize cfg <= 65537 -> 0 <= pktCount cfg <= 65535 ->
  0 < sendInterval ->
  Permutation (start :: ds) (sent_datagrams (upload cfg rnd sendInterval [])) ->
  exists (digest : string) (s : store),
    sent_out (upload cfg rnd sendInterval [])
    = [LCheckSum digest; LTotalSent (pktCount cfg)] /\
    serve cfg (Conn dl (Recv start a0 None :: map (fun d => Recv d a None) ds))
    = Run ([LWaiting; LReceivedStart]
             ++ anomalies 0 (map sequence_field ds)
             ++ [LCheckSum digest; LTotalReceived (pktCount cfg)])
        (pktCount cfg) s Completed.
Proof.
  intros Hmem Hs Hn Hd Hperm.
  pose proof (sizes_fit_small cfg Hs Hn) as Hfit.
  rewrite upload_no_failure in Hperm by (try exact Hd; lia).
  cbn [sent_datagrams] in Hperm. apply Permutation_cons_inv in Hperm.
  apply Permutation_map_inv in Hperm as (ks & -> & Hks).
  assert (Hlt : Forall (fun k => Z.of_nat k < pktCount cfg) ks).
  { rewrite <- Hks. apply Forall_forall. intros k Hk%elem_of_seq. lia. }
  assert (Hlen : len (map (sent_frame cfg rnd) ks) = pktCount cfg).
  { unfold len. rewrite length_map, <- Hks, length_seq. lia. }
  destruct (serve_feed cfg dl a0 a (map (sent_frame cfg rnd) ks)) as (s & Hst & Hrun).
  { lia. }
  { apply Forall_fmap. eapply Forall_impl; [exact Hlt|].
    intros k Hk. cbn beta in Hk. apply fits_sent_frame; [exact Hs | lia]. }
  { right. split; [exact Hfit|]. rewrite map_map. cbn [sent_frame fst].
    apply Forall_fmap. eapply Forall_impl; [exact Hlt|]. intros k Hk. cbn in *. lia. }
  { lia. }
  rewrite Hlen, Z.eqb_refl in Hrun.
  exists (fmt_x (md5_sum (payloads_of cfg rnd 0 (Z.to_nat (pktCount cfg))))), s.
  split.
  - rewrite upload_no_failure by (try exact Hd; lia).
    cbn [sent_out]. rewrite Z2Nat.id by lia. reflexivity.
  - rewrite arrivals_sent_frames, Hrun, report_all.
    assert (Hseq : map fst (map (sent_frame cfg rnd) ks)
                   = map sequence_field
                       (map (fun k => frame (Z.of_nat (S k)) (payload_of cfg rnd k)) ks)).
    { rewrite !map_map. apply Forall_fmap_ext_1. eapply Forall_impl; [exact Hlt|].
      intros k Hk. cbn beta in Hk. cbn [sent_frame fst]. rewrite sequence_field_frame, u16_small by lia.
      reflexivity. }
    rewrite Hseq.
    assert (Hsum : checkSum s
                   = fmt_x (md5_sum (payloads_of cfg rnd 0 (Z.to_nat (pktCount cfg))))).
    { apply (checkSum_in_order cfg rnd s Hmem Hfit ltac:(lia)).
      rewrite <- Hst. unfold stored.
      apply (save_all_perm cfg); [exact Hfit | | | ].
      - apply Permutation_map, Permutation_map. exact Hks.
      - apply Forall_fmap, Forall_fmap, Forall_forall. intros k Hk%elem_of_seq.
        split; cbn [as_paket sent_frame p_no p_data fst snd].
        + lia.
        + unfold len. rewrite length_payload_of. unfold capacity. lia.
      - rewrite !map_map. cbn [as_paket sent_frame p_no fst].
        apply NoDup_fmap_2; [|apply NoDup_seq].
        intros x y Hxy. cbn in Hxy. lia. }
    rewrite Hsum. reflexivity.
Qed.

Lemma receiver_digest_is_sender_digest_witness :
  exists (digest : string) (s : store),
    sent_out (upload (Config 8 2 true) (fun k : nat => byte_of_Z (Z.of_nat k + 65))
                2000000 [])
    = [LCheckSum digest; LTotalSent 2] /\
    serve (Config 8 2 true)
      (Conn false (Recv start None None
                     :: map (fun d => Recv d None None)
                          [frame 2 [x43; x44]; frame 1 [x41; x42]]))
    = Run ([LWaiting; LReceivedStart]
             ++ anomalies 0 (map sequence_field [frame 2 [x43; x44]; frame 1 [x41; x42]])
             ++ [LCheckSum digest; LTotalReceived 2])
        2 s Completed.
Proof.
  apply (receiver_digest_is_sender_digest (Config 8 2 true)
           (fun k : nat => byte_of_Z (Z.of_nat k + 65)) 2000000 false None None
           [frame 2 [x43; x44]; frame 1 [x41; x42]]).
  - reflexivity.
  - vm_compute. split; congruence.
  - vm_compute. split; congruence.
  - reflexivity.
  - apply perm_skip, perm_swap.
Defined.

(** ** The run of [serve] after the frames it accepted *)

(** [serve] after the handshake and the frames [fs], with the events [evs]
    still to come. *)
Lemma serve_after_frames (cfg : config) (dl : bool) (a0 a : Addr)
    (fs : list (Z * list byte)) (evs : list event) :
  0 <= pktSize cfg ->
  Forall (fits cfg) fs -> saves_ok cfg (map fst fs) -> len fs <= pktCount cfg ->
  exists (pkt : paket) (s : store) (dl' : bool),
    paket_ok cfg pkt /\ stored cfg None fs = Ok s /\
    serve cfg (Conn dl (Recv start a0 None :: arrivals a fs ++ evs))
    = after_loop cfg
        (recv_loop cfg (Z.to_nat (pktCount cfg) - length fs)
           (RState (len fs) (last_seen 0 (map fst fs)) pkt s (Conn dl' evs)
              ([LWaiting; LReceivedStart] ++ anomalies 0 (map fst fs)))).
Proof.
  intros Hs Hfits Hsaves Hlen.
  rewrite serve_first_read. cbn [ep]. rewrite first_read_start.
  unfold bytes_Equal. rewrite bool_decide_eq_true_2 by reflexivity. cbn [negb].
  set (m := (Z.to_nat (pktCount cfg) - length fs)%nat).
  replace (Z.to_nat (pktCount cfg)) with (length fs + m)%nat
    by (unfold len in Hlen; lia).
  destruct (recv_loop_feed cfg a fs Hs m
              (RState 0 0 paket_zero None (Conn false (arrivals a fs ++ evs))
                 [LWaiting; LReceivedStart]) false evs)
    as (pkt & s & Hok & Hst & Hstored & Hrun).
  { reflexivity. }
  { exact I. }
  { exact Hfits. }
  { exact Hsaves. }
  { reflexivity. }
  eexists pkt, s, _. split; [exact Hok|]. split; [exact Hstored|].
  rewrite Hrun. cbn [r_i r_no r_out]. rewrite Z.add_0_l. reflexivity.
Qed.

(** A datagram that does not decode ends the loop of [serve]. *)
Lemma recv_loop_undecodable (cfg : config) (n : nat) (st : rstate) (dl : bool)
    (d : list byte) (a : Addr) (evs : list event) (v : panic) :
  0 <= pktSize cfg -> paket_ok cfg (r_pkt st) ->
  r_con st = Conn dl (Recv d a None :: evs) ->
  decode (take (Z.to_nat (Z.min (len d) (pktSize cfg))) d) = Panic v ->
  recv_loop cfg (S n) st = (st, Aborted v).
Proof.
  intros Hs Hok Hcon Hdec. cbn [recv_loop].
  rewrite Hcon, readFrom_recv by assumption.
  cbv zeta. cbn [is_deadline ep]. rewrite bind_Ok, Hdec. reflexivity.
Qed.

(** X10.  [serve] reads no datagram after the [pktCount]-th frame: whatever
    arrives after it, malformed datagrams and read errors included, the run
    is the one of a socket on which nothing more arrives. *)
Theorem serve_ignores_what_follows_the_last_frame (cfg : config) (dl : bool)
    (a0 a : Addr) (fs : list (Z * list byte)) (evs : list event) :
  0 <= pktSize cfg ->
  Forall (fits cfg) fs -> saves_ok cfg (map fst fs) -> len fs = pktCount cfg ->
  serve cfg (Conn dl (Recv start a0 None :: arrivals a fs ++ evs))
  = serve cfg (Conn dl (Recv start a0 None :: arrivals a fs)) /\
  run_end (serve cfg (Conn dl (Recv start a0 None :: arrivals a fs ++ evs))) = Completed.
Proof.
  intros Hs Hfits Hsaves Hlen.
  destruct (serve_after_frames cfg dl a0 a fs evs Hs Hfits Hsaves ltac:(lia))
    as (pkt & s & dl1 & _ & Hst & Hrun).
  destruct (serve_after_frames cfg dl a0 a fs [] Hs Hfits Hsaves ltac:(lia))
    as (pkt' & s' & dl2 & _ & Hst' & Hrun').
  rewrite app_nil_r in Hrun'. rewrite Hrun, Hrun'.
  rewrite Hst in Hst'. injection Hst' as <-.
  replace (Z.to_nat (pktCount cfg) - length fs)%nat with 0%nat
    by (unfold len in Hlen; lia).
  split; reflexivity.
Qed.

Lemma serve_ignores_what_follows_the_last_frame_witness :
  serve (Config 8 1 true)
    (Conn false (Recv start None None :: arrivals None [(1, [x41; x42])]
                   ++ [Recv [x00] None (Some (ErrOther "closed"))]))
  = serve (Config 8 1 true)
      (Conn false (Recv start None None :: arrivals None [(1, [x41; x42])])) /\
  run_end (serve (Config 8 1 true)
             (Conn false (Recv start None None :: arrivals None [(1, [x41; x42])]
                            ++ [Recv [x00] None (Some (ErrOther "closed"))])))
  = Completed.
Proof.
  apply serve_ignores_what_follows_the_last_frame.
  - vm_compute. congruence.
  - repeat constructor; vm_compute; congruence.
  - right. split; [vm_compute; repeat split; congruence|].
    repeat constructor; vm_compute; congruence.
  - reflexivity.
Defined.

(** X11.  A datagram that does not decode is fatal to [serve], however many
    frames came before it: the run panics with the message of the failed
    check, prints no digest, and the deferred report still prints the count
    of the frames accepted before it and the loss against [pktCount]. *)
Theorem serve_aborts_on_undecodable_datagram (cfg : config) (dl : bool)
    (a0 a a1 : Addr) (fs : list (Z * list byte)) (d : list byte)
    (evs : list event) :
  0 <= pktSize cfg <= 65537 ->
  Forall (fits cfg) fs -> saves_ok cfg (map fst fs) ->
  len fs < pktCount cfg < 2 ^ 63 ->
  malformed (take (Z.to_nat (pktSize cfg)) d) ->
  exists (v : panic) (s : store),
    decode (take (Z.to_nat (pktSize cfg)) d) = Panic v /\
    stored cfg None fs = Ok s /\
    serve cfg (Conn dl (Recv start a0 None :: arrivals a fs ++ Recv d a1 None :: evs))
    = Run ([LWaiting; LReceivedStart] ++ anomalies 0 (map fst fs)
             ++ [LTotalReceived (len fs);
                 LLoss (pktCount cfg - len fs)
                   (float64 (pktCount cfg - len fs) / float64 (pktCount cfg) * 100)%float])
        (len fs) s (Aborted v).
Proof.
  intros Hs Hfits Hsaves Hlen Hbad.
  assert (Hshort : len (take (Z.to_nat (pktSize cfg)) d) <= 65537).
  { unfold len. rewrite length_take. lia. }
  apply (decode_fails_iff_malformed _ Hshort) in Hbad as (v & Hdec).
  destruct (serve_after_frames cfg dl a0 a fs (Recv d a1 None :: evs)
              ltac:(lia) Hfits Hsaves ltac:(lia))
    as (pkt & s & dl1 & Hok & Hst & Hrun).
  exists v, s. split; [exact Hdec|]. split; [exact Hst|].
  rewrite Hrun.
  replace (Z.to_nat (pktCount cfg) - length fs)%nat
    with (S (Z.to_nat (pktCount cfg) - length fs - 1))
    by (unfold len in Hlen; lia).
  rewrite (recv_loop_undecodable cfg _ _ dl1 d a1 evs v); try reflexivity;
    [ | lia | exact Hok | ].
  - cbn [after_loop r_out r_i r_s]. unfold report.
    destruct (Z.eqb_spec (len fs) (pktCount cfg)) as [E|_]; [lia|]. cbn [negb].
    rewrite int_wrap_small by (unfold is_int; pose proof (len_nonneg fs); lia).
    rewrite <- app_assoc. reflexivity.
  - replace (Z.to_nat (Z.min (len d) (pktSize cfg)))
      with (Nat.min (Z.to_nat (pktSize cfg)) (length d)) by (unfold len; lia).
    rewrite <- take_take, firstn_all. exact Hdec.
Qed.

Lemma serve_aborts_on_undecodable_datagram_witness :
  exists (v : panic) (s : store),
    decode (take (Z.to_nat (pktSize (Config 8 2 false))) [x00]) = Panic v /\
    stored (Config 8 2 false) None [(1, [x41; x42])] = Ok s /\
    serve (Config 8 2 false)
      (Conn false (Recv start None None :: arrivals None [(1, [x41; x42])]
                     ++ Recv [x00] None None :: []))
    = Run ([LWaiting; LReceivedStart] ++ anomalies 0 (map fst [(1, [x41; x42])])
             ++ [LTotalReceived (len [(1, [x41; x42])]);
                 LLoss (pktCount (Config 8 2 false) - len [(1, [x41; x42])])
                   (float64 (pktCount (Config 8 2 false) - len [(1, [x41; x42])])
                    / float64 (pktCount (Config 8 2 false)) * 100)%float])
        (len [(1, [x41; x42])]) s (Aborted v).
Proof.
  apply (serve_aborts_on_undecodable_datagram (Config 8 2 false) false None None None
           [(1, [x41; x42])] [x00] []).
  - vm_compute. split; congruence.
  - repeat constructor; vm_compute; congruence.
  - left. reflexivity.
  - vm_compute. split; reflexivity.
  - left. reflexivity.
Defined.

(** ** Sequence numbers past 65535 *)

Lemma stored_off (cfg : config) (fs : list (Z * list byte)) (s : store) :
  useMem cfg = false -> stored cfg s fs = Ok s.
Proof.
  intros Hmem. unfold stored. induction fs as [|f fs IH]; [reflexivity|].
  cbn [map]. rewrite save_all_cons, save_off by exact Hmem. rewrite bind_Ok. exact IH.
Qed.

(** The wrong-order lines for the sequence numbers of the sender from the
    frame number [j + 1] on: one for each multiple of 65536. *)
Lemma anomalies_wrap (n : nat) :
  forall j : nat,
    anomalies (u16 (Z.of_nat j)) (map (fun k => u16 (Z.of_nat (S k))) (seq j n))
    = replicate (Z.to_nat (Z.of_nat (j + n) / 65536 - Z.of_nat j / 65536))
        (LWrongOrder 65535 0).
Proof.
  induction n as [|n IH]; intros j.
  - rewrite Nat.add_0_r, Z.sub_diag. reflexivity.
  - cbn [seq map anomalies]. rewrite IH.
    replace (j + S n)%nat with (S j + n)%nat by lia.
    assert (Hmono : Z.of_nat (S j) / 65536 <= Z.of_nat (S j + n) / 65536).
    { apply Z.div_le_mono; lia. }
    unfold in_order, u16.
    destruct (Z.ltb_spec (Z.of_nat j mod 65536) (Z.of_nat (S j) mod 65536)) as [Hlt|Hge].
    + cbn [app]. do 2 f_equal.
      rewrite Nat2Z.inj_succ in *. unfold Z.succ in *.
      revert Hlt. generalize (Z.of_nat (S j + n) / 65536). intros q.
      pose proof (Nat2Z.is_nonneg j).
      Z.div_mod_to_equations. lia.
    + rewrite Nat2Z.inj_succ in *. unfold Z.succ in *.
      assert (Hj : Z.of_nat j mod 65536 = 65535 /\ (Z.of_nat j + 1) mod 65536 = 0
                   /\ (Z.of_nat j + 1) / 65536 = Z.of_nat j / 65536 + 1).
      { pose proof (Nat2Z.is_nonneg j). clear Hmono.
        Z.div_mod_to_equations. lia. }
      destruct Hj as (-> & -> & Hq). rewrite Hq in *.
      replace (Z.to_nat (Z.of_nat (S j + n) / 65536 - Z.of_nat j / 65536))
        with (S (Z.to_nat (Z.of_nat (S j + n) / 65536 - (Z.of_nat j / 65536 + 1))))
        by lia.
      reflexivity.
Qed.

(** X12.  The sequence number of the sender wraps after 65535, and the
    receiver takes each wrap for a frame out of order: with buffering off
    and a packet size from 6 to 65537, a receiver that gets all the frames
    of the sender, in the order sent, completes its run and prints one line
    "wrong packet order: prev no: 65535, cur no: 0" for every 65536 frames,
    and no other wrong-order line. *)
Theorem receiver_flags_sequence_wrap (cfg : config) (rnd : nat -> byte)
    (dl : bool) (a0 a : Addr) :
  useMem cfg = false ->
  6 <= pktSize cfg <= 65537 -> 0 <= pktCount cfg ->
  serve cfg (Conn dl (Recv start a0 None
                        :: map (fun d => Recv d a None)
                             (frames_of cfg rnd 0 (Z.to_nat (pktCount cfg)))))
  = Run ([LWaiting; LReceivedStart]
           ++ replicate (Z.to_nat (pktCount cfg / 65536)) (LWrongOrder 65535 0)
           ++ [LCheckSum (checkSum None); LTotalReceived (pktCount cfg)])
      (pktCount cfg) None Completed.
Proof.
  intros Hmem Hs Hn.
  set (fs := map (fun k => (u16 (Z.of_nat (S k)), payload_of cfg rnd k))
               (seq 0 (Z.to_nat (pktCount cfg)))).
  assert (Hev : map (fun d => Recv d a None) (frames_of cfg rnd 0 (Z.to_nat (pktCount cfg)))
                = arrivals a fs).
  { unfold arrivals, frames_of, fs. rewrite !map_map. apply map_ext. intros k.
    cbn [fst snd]. rewrite frame_u16. reflexivity. }
  assert (Hlen : len fs = pktCount cfg).
  { unfold len, fs. rewrite length_map, length_seq. lia. }
  destruct (serve_feed cfg dl a0 a fs) as (s & Hst & Hrun).
  { lia. }
  { unfold fs. apply Forall_fmap, Forall_forall. intros k _.
    unfold compose, fits. cbn [fst snd]. unfold len. rewrite length_payload_of.
    pose proof (u16_range (Z.of_nat (S k))). unfold capacity. lia. }
  { left. exact Hmem. }
  { lia. }
  rewrite stored_off in Hst by exact Hmem. injection Hst as <-.
  rewrite Hev, Hrun, Hlen, Z.eqb_refl, report_all.
  do 2 f_equal.
  unfold fs. rewrite map_map. cbn [fst].
  change 0 with (u16 (Z.of_nat 0)) at 1.
  rewrite anomalies_wrap. cbn [Nat.add]. rewrite Z2Nat.id by lia.
  change (Z.of_nat 0 / 65536) with 0. rewrite Z.sub_0_r. reflexivity.
Qed.

Lemma receiver_flags_sequence_wrap_witness :
  serve (Config 8 65536 false)
    (Conn false (Recv start None None
                   :: map (fun d => Recv d None None)
                        (frames_of (Config 8 65536 false) (fun _ => x00) 0
                           (Z.to_nat (pktCount (Config 8 65536 false))))))
  = Run ([LWaiting; LReceivedStart]
           ++ replicate (Z.to_nat (pktCount (Config 8 65536 false) / 65536))
                (LWrongOrder 65535 0)
           ++ [LCheckSum (checkSum None);
               LTotalReceived (pktCount (Config 8 65536 false))])
      (pktCount (Config 8 65536 false)) None Completed.
Proof.
  apply (receiver_flags_sequence_wrap (Config 8 65536 false) (fun _ => x00)
           false None None).
  - reflexivity.
  - cbn [pktSize]. lia.
  - cbn [pktCount]. lia.
Defined.

(** ** Sender and receiver with different packet sizes *)

(** X13.  The packet sizes of the two sides must match.  A receiver whose
    packet size is smaller than the sender's reads only that many bytes of
    the sender's first frame, finds its declared payload length wrong and
    panics: the run ends after the handshake with no frame counted and no
    digest printed. *)
Theorem serve_aborts_on_longer_frames (cfg sender : config) (rnd : nat -> byte)
    (dl : bool) (a0 a : Addr) (no : Z) (k : nat) (evs : list event) :
  6 <= pktSize cfg -> pktSize cfg < pktSize sender <= 65541 ->
  1 <= pktCount cfg < 2 ^ 63 ->
  serve cfg (Conn dl (Recv start a0 None
                        :: Recv (frame no (payload_of sender rnd k)) a None :: evs))
  = Run [LWaiting; LReceivedStart; LTotalReceived 0;
         LLoss (pktCount cfg)
           (float64 (pktCount cfg) / float64 (pktCount cfg) * 100)%float]
      0 None
      (Aborted (PanicMsg "expected and received packet size are not match")).
Proof.
  intros Hs Hsnd Hn.
  assert (Hpl : length (payload_of sender rnd k) = Z.to_nat (pktSize sender - 6)).
  { apply length_payload_of. }
  rewrite serve_first_read. cbn [ep]. rewrite first_read_start.
  unfold bytes_Equal. rewrite bool_decide_eq_true_2 by reflexivity. cbn [negb].
  replace (Z.to_nat (pktCount cfg)) with (S (Z.to_nat (pktCount cfg) - 1)) by lia.
  rewrite (recv_loop_undecodable cfg _ _ false (frame no (payload_of sender rnd k)) a evs
             (PanicMsg "expected and received packet size are not match"));
    try reflexivity; [ | lia | ].
  - cbn [after_loop r_out r_i r_s]. unfold report.
    destruct (Z.eqb_spec 0 (pktCount cfg)) as [E|_]; [lia|]. cbn [negb].
    rewrite Z.sub_0_r, int_wrap_small by (unfold is_int; lia). reflexivity.
  - assert (Hlen : len (frame no (payload_of sender rnd k)) = pktSize sender).
    { unfold frame. solve_len. }
    replace (Z.min (len (frame no (payload_of sender rnd k))) (pktSize cfg))
      with (pktSize cfg) by lia.
    unfold frame, le16.
    replace (Z.to_nat (pktSize cfg)) with (4 + Z.to_nat (pktSize cfg - 4))%nat by lia.
    cbn [app take Nat.add].
    rewrite decode_long.
    2:{ unfold len. rewrite length_take, length_app, length_pktEnd. lia. }
    assert (Hrest : len (take (Z.to_nat (pktSize cfg - 4))
                           (payload_of sender rnd k ++ pktEnd)) = pktSize cfg - 4).
    { unfold len. rewrite length_take, length_app, length_pktEnd. lia. }
    rewrite Hrest, le16_value_le16, (u16_small (len (payload_of sender rnd k)))
      by (unfold len; lia).
    destruct (Z.eqb_spec (pktSize cfg - 4 - 2) (len (payload_of sender rnd k))) as [E|_];
      [unfold len in E; lia | reflexivity].
Qed.

Lemma serve_aborts_on_longer_frames_witness :
  serve (Config 8 2 false)
    (Conn false (Recv start None None
                   :: Recv (frame 1 (payload_of (Config 9 2 false) (fun _ => x41) 0))
                        None None :: []))
  = Run [LWaiting; LReceivedStart; LTotalReceived 0;
         LLoss (pktCount (Config 8 2 false))
           (float64 (pktCount (Config 8 2 false))
            / float64 (pktCount (Config 8 2 false)) * 100)%float]
      0 None
      (Aborted (PanicMsg "expected and received packet size are not match")).
Proof.
  apply (serve_aborts_on_longer_frames (Config 8 2 false) (Config 9 2 false)
           (fun _ => x41) false None None 1 0 []).
  - cbn [pktSize]. lia.
  - cbn [pktSize]. lia.
  - cbn [pktCount]. lia.
Defined.
